(** * Knowledge-graph viewer: the graph builder and render lifecycle of
      [frontend/src/components/GraphVisualisation.jsx]

    A shallow embedding of the [GraphVisualization] React component: the
    payload values it receives, the node and edge construction of its
    [useEffect] body, the cytoscape instance it owns through [cyRef], the
    legend statistics, the deferred fit and the export command. *)

From stdpp Require Import base strings list gmap fin_maps pretty sorting.
From Stdlib Require Import ZArith Lia Ascii.

Set Warnings "-register-all".

Local Open Scope string_scope.
Local Open Scope list_scope.
Local Open Scope Z_scope.

(** ** Payload values

    [graphData] is the result of [response.json()], i.e. a JSON value; a
    property read can additionally produce [undefined].  Numbers are the
    integers of magnitude below 2^53 (the numeric payload fields, [mentions]
    and numeric ids, are such integers): a double holds them exactly and
    JavaScript prints them in plain decimal.  The property list of an
    object is its own enumerable properties in enumeration order, each key
    occurring once; no value is a function. *)

Inductive JSValue : Type :=
  | JUndefined
  | JNull
  | JBool (b : bool)
  | JNum (z : Z)
  | JStr (s : string)
  | JArr (items : list JSValue)
  | JObj (props : list (string * JSValue)).

(** Truthiness, as tested by [!x], [x || y] and [if (x)]. *)
Definition truthy (v : JSValue) : bool :=
  match v with
  | JUndefined | JNull => false
  | JBool b => b
  | JNum z => negb (z =? 0)
  | JStr s => negb (String.eqb s "")
  | JArr _ | JObj _ => true
  end.

(** [a || b] on values (both operands here are side-effect free). *)
Definition js_or (a b : JSValue) : JSValue := if truthy a then a else b.

Definition Array_isArray (v : JSValue) : bool :=
  match v with JArr _ => true | _ => false end.

(** Whether the conversion of [v] to a string returns.  An object is
    converted through its [toString] member; when the object has an own
    property of that name, the member is that JSON value, which cannot be
    called, and the inherited [valueOf] gives back the object itself: the
    conversion throws a [TypeError].  An array is converted element by
    element. *)
Fixpoint stringable (v : JSValue) : bool :=
  match v with
  | JArr items =>
      (fix all (l : list JSValue) : bool :=
         match l with
         | [] => true
         | x :: rest => stringable x && all rest
         end) items
  | JObj props => negb (bool_decide ("toString" ∈ props.*1))
  | _ => true
  end.

(** The text that the conversion of [v] to a string gives when it returns.
    An array is its elements joined by commas, [null] and [undefined]
    elements contributing the empty string. *)
Fixpoint js_String (v : JSValue) : string :=
  match v with
  | JUndefined => "undefined"
  | JNull => "null"
  | JBool true => "true"
  | JBool false => "false"
  | JNum z => pretty z
  | JStr s => s
  | JArr items =>
      (fix join (l : list JSValue) : string :=
         match l with
         | [] => ""
         | x :: rest =>
             let sx := match x with
                       | JUndefined | JNull => ""
                       | _ => js_String x
                       end in
             match rest with
             | [] => sx
             | _ :: _ => sx +:+ "," +:+ join rest
             end
         end) items
  | JObj _ => "[object Object]"
  end.

(** ** Completions: a computation either returns or throws *)

(** A [TypeError] raised by reading property [what] of [null] or
    [undefined], the [TypeError] raised when an object cannot be converted
    to a primitive value, or a value thrown by the rendering library. *)
Inductive JSError : Type :=
  | TypeError (what : string)
  | ConversionError
  | Thrown (v : JSValue).

Inductive Completion (A : Type) : Type :=
  | Normal (a : A)
  | Throw (e : JSError).
Arguments Normal {A} a.
Arguments Throw {A} e.

Definition cbind {A B} (c : Completion A) (k : A → Completion B) : Completion B :=
  match c with
  | Normal a => k a
  | Throw e => Throw e
  end.

Notation "x ←! c ; k" := (cbind c (λ x, k))
  (at level 20, c at level 100, k at level 200, right associativity, only parsing).

(** The conversion to a string, as performed by [String(v)], by a template
    literal and by a computed property key [acc[v]]. *)
Definition ToString (v : JSValue) : Completion string :=
  if stringable v then Normal (js_String v) else Throw ConversionError.

(** Runs the callbacks' completions left to right; the first throw aborts. *)
Fixpoint sequenceC {A} (l : list (Completion A)) : Completion (list A) :=
  match l with
  | [] => Normal []
  | c :: rest => x ←! c; xs ←! sequenceC rest; Normal (x :: xs)
  end.

(** [Array.prototype.map] with a callback that may throw. *)
Definition Array_map {A B} (f : A → Completion B) (l : list A) : Completion (list B) :=
  sequenceC (f <$> l).

(** [Array.prototype.map] with the [(element, index)] callback. *)
Definition Array_mapi {A B} (f : A → nat → Completion B) (l : list A)
  : Completion (list B) :=
  sequenceC (imap (λ idx x, f x idx) l).

(** Own-property lookup in a property list; a missing key reads [undefined]. *)
Fixpoint lookup_prop (k : string) (props : list (string * JSValue)) : JSValue :=
  match props with
  | [] => JUndefined
  | (k', v) :: rest => if decide (k = k') then v else lookup_prop k rest
  end.

(** [v.k] for the keys the component reads ([id], [name], [type],
    [properties], [mentions], [source], [from], [target], [to],
    [relationship], [entities], [relationships]): none of them is inherited
    by a primitive, an array or a plain object, so only an own property can
    answer.  Reading a property of [null] or [undefined] throws. *)
Definition getProp (v : JSValue) (k : string) : Completion JSValue :=
  match v with
  | JUndefined | JNull => Throw (TypeError k)
  | JObj props => Normal (lookup_prop k props)
  | JBool _ | JNum _ | JStr _ | JArr _ => Normal JUndefined
  end.

(** ** The [Set] of node ids: insertion ordered, no duplicates *)

Definition Set_add (s : list string) (x : string) : list string :=
  if decide (x ∈ s) then s else s ++ [x].

Definition Set_from (l : list string) : list string := foldl Set_add [] l.

Definition Set_has (s : list string) (x : string) : bool := bool_decide (x ∈ s).

(** ** Nodes and edges (the [data] object of each cytoscape element) *)

Record NodeData : Type := mkNodeData {
  node_id : string;
  node_label : JSValue;
  node_type : JSValue;
  node_properties : JSValue;
  node_mentions : JSValue
}.

Record EdgeData : Type := mkEdgeData {
  edge_id : string;
  edge_source : string;
  edge_target : string;
  edge_label : JSValue;
  edge_type : JSValue
}.

(** The callback of [graphData.entities.map(entity => ...)]:
    [id: String(entity.id || entity.name)] is evaluated first. *)
Definition node_of_entity (entity : JSValue) : Completion NodeData :=
  e_id ←! getProp entity "id";
  e_name ←! getProp entity "name";
  id ←! ToString (js_or e_id e_name);
  e_type ←! getProp entity "type";
  e_properties ←! getProp entity "properties";
  e_mentions ←! getProp entity "mentions";
  Normal {| node_id := id;
            node_label := js_or e_name (JStr "Unknown");
            node_type := js_or e_type (JStr "default");
            node_properties := js_or e_properties (JObj []);
            node_mentions := js_or e_mentions (JNum 1) |}.

(** [String(rel.source || rel.from || '')] and its [target] twin. *)
Definition resolve_source (rel : JSValue) : Completion string :=
  r_source ←! getProp rel "source";
  r_from ←! getProp rel "from";
  ToString (js_or (js_or r_source r_from) (JStr "")).

Definition resolve_target (rel : JSValue) : Completion string :=
  r_target ←! getProp rel "target";
  r_to ←! getProp rel "to";
  ToString (js_or (js_or r_target r_to) (JStr "")).

(** [rel.type || rel.relationship || 'related']. *)
Definition rel_type (rel : JSValue) : Completion JSValue :=
  r_type ←! getProp rel "type";
  r_relationship ←! getProp rel "relationship";
  Normal (js_or (js_or r_type r_relationship) (JStr "related")).

(** The callback of [graphData.relationships.map((rel, idx) => ...)]: the
    edge data together with its [valid] flag. *)
Definition edge_of_rel (validNodeIds : list string) (rel : JSValue) (idx : nat)
  : Completion (EdgeData * bool) :=
  source ←! resolve_source rel;
  target ←! resolve_target rel;
  ty ←! rel_type rel;
  Normal ({| edge_id := "edge-" +:+ pretty idx;
             edge_source := source;
             edge_target := target;
             edge_label := ty;
             edge_type := ty |},
          Set_has validNodeIds source && Set_has validNodeIds target).

(** ** Console output *)

Inductive Level : Type := LLog | LWarn | LError.

Global Instance Level_eq_dec : EqDecision Level.
Proof. solve_decision. Defined.

Record LogEntry : Type := mkLog {
  log_level : Level;
  log_text : string;
  log_args : list JSValue
}.

Definition node_to_js (n : NodeData) : JSValue :=
  JObj [("data", JObj [("id", JStr (node_id n));
                       ("label", node_label n);
                       ("type", node_type n);
                       ("properties", node_properties n);
                       ("mentions", node_mentions n)])].

Definition edge_to_js (e : EdgeData) : JSValue :=
  JObj [("data", JObj [("id", JStr (edge_id e));
                       ("source", JStr (edge_source e));
                       ("target", JStr (edge_target e));
                       ("label", edge_label e);
                       ("type", edge_type e)])].

(** The [console.warn] of the [filter] callback. *)
Definition skip_warning (e : EdgeData) : LogEntry :=
  mkLog LWarn ("Skipping invalid edge: " +:+ edge_source e +:+ " -> " +:+ edge_target e) [].

(** [.filter(edge => { if (!edge.valid) { console.warn(...); return false; }
    return true; })]: the kept elements and the warnings it printed, both in
    input order. *)
Fixpoint filter_valid (l : list (EdgeData * bool))
  : list (EdgeData * bool) * list LogEntry :=
  match l with
  | [] => ([], [])
  | e :: rest =>
      let '(kept, warns) := filter_valid rest in
      if e.2 then (e :: kept, warns) else (kept, skip_warning e.1 :: warns)
  end.

(** Lines 43-51: the [nodes] array. *)
Definition build_nodes (entities : list JSValue) : Completion (list NodeData) :=
  Array_map node_of_entity entities.

(** Line 54: [new Set(nodes.map(node => node.data.id))]. *)
Definition valid_node_ids (nodes : list NodeData) : list string :=
  Set_from (node_id <$> nodes).

(** Lines 59-82: [relationships.map(...).filter(...).map(...)]; the result
    is the [edges] array and the warnings printed for the skipped ones. *)
Definition build_edges (validNodeIds : list string) (relationships : list JSValue)
  : Completion (list EdgeData * list LogEntry) :=
  flagged ←! Array_mapi (edge_of_rel validNodeIds) relationships;
  let '(kept, warns) := filter_valid flagged in
  Normal (fst <$> kept, warns).

(** The graph the component hands to the renderer, with the rejection log
    printed while building it. *)
Record GraphModel : Type := mkGraphModel {
  nodes : list NodeData;
  edges : list EdgeData;
  rejectedEdges : list LogEntry
}.

Definition build (entities relationships : list JSValue) : Completion GraphModel :=
  ns ←! build_nodes entities;
  es ←! build_edges (valid_node_ids ns) relationships;
  Normal {| nodes := ns; edges := es.1; rejectedEdges := es.2 |}.

(** ** Legend statistics *)

(** A value stored in the accumulator object of the two [reduce] calls: a
    count, or the text that [+ 1] produces once the slot held something that
    is not a number (the text itself depends on the engine). *)
Inductive CountVal : Type :=
  | CNum (n : nat)
  | CText.

(** The member names every plain object ([{}]) inherits. *)
Definition objectPrototypeKeys : list string :=
  ["constructor"; "hasOwnProperty"; "isPrototypeOf"; "propertyIsEnumerable";
   "toLocaleString"; "toString"; "valueOf"; "__defineGetter__";
   "__defineSetter__"; "__lookupGetter__"; "__lookupSetter__"; "__proto__"].

(** [acc[type] = (acc[type] || 0) + 1] on an accumulator that started as
    [{}], for the key that [type] converts to.  An own slot holding a count
    is incremented.  A key with no own slot reads the inherited member when
    there is one: a function or object, which is truthy, so [+ 1]
    concatenates text; the write then creates an own slot, except for
    [__proto__], whose setter ignores a string. *)
Definition count_key (acc : gmap string CountVal) (key : string)
  : gmap string CountVal :=
  match acc !! key with
  | Some (CNum n) => <[key := CNum (n + 1)%nat]> acc
  | Some CText => <[key := CText]> acc
  | None =>
      if bool_decide (key ∈ objectPrototypeKeys)
      then (if bool_decide (key = "__proto__") then acc else <[key := CText]> acc)
      else <[key := CNum 1%nat]> acc
  end.

(** [Array.prototype.reduce] with a callback that may throw. *)
Fixpoint Array_reduce {A B} (f : B → A → Completion B) (l : list A) (acc : B)
  : Completion B :=
  match l with
  | [] => Normal acc
  | x :: rest => acc' ←! f acc x; Array_reduce f rest acc'
  end.

Definition getEntityTypeCounts (entities : list JSValue)
  : Completion (gmap string CountVal) :=
  Array_reduce (λ acc entity,
      e_type ←! getProp entity "type";
      let type := js_or e_type (JStr "Unknown") in
      key ←! ToString type;
      Normal (count_key acc key))
    entities ∅.

Definition getRelationshipTypeCounts (relationships : list JSValue)
  : Completion (gmap string CountVal) :=
  Array_reduce (λ acc rel,
      type ←! rel_type rel;
      key ←! ToString type;
      Normal (count_key acc key))
    relationships ∅.

Record Stats : Type := mkStats {
  stats_nodes : nat;
  stats_edges : nat;
  stats_entityTypes : gmap string CountVal;
  stats_relationshipTypes : gmap string CountVal
}.

(** The numeric total of a legend section. *)
Definition count_total (m : gmap string CountVal) : nat :=
  map_fold (λ _ v total, match v with CNum n => (n + total)%nat | CText => total end)
           0%nat m.

(** ** The renderer and the component state *)

(** A cytoscape instance, as far as the component observes it: what it was
    created with, whether [destroy()] was called, the [fit(padding)] calls
    it received, and what its [destroy()] throws when it throws. *)
Record CyInstance : Type := mkCy {
  cy_nodes : list NodeData;
  cy_edges : list EdgeData;
  cy_layout : string;
  cy_destroyed : bool;
  cy_fits : list Z;
  cy_destroy_throws : option JSValue
}.

(** [containerRef.current.getBoundingClientRect()], in whole pixels. *)
Record Rect : Type := mkRect {
  rect_width : Z;
  rect_height : Z;
  rect_top : Z;
  rect_left : Z
}.

(** A pending [setTimeout] callback.  The callback is always the deferred
    fit; [timer_session] records the instance that the scheduling run had
    just created (the local [cy]), which the callback itself never reads. *)
Record Timer : Type := mkTimer {
  timer_delay : Z;
  timer_session : nat
}.

(** [instances] holds every instance ever created, an instance's identity
    being its position; [cyRef] is [cyRef.current]. *)
Record State : Type := mkState {
  cyRef : option nat;
  instances : list CyInstance;
  console : list LogEntry;
  stats : option Stats;
  timers : list Timer
}.

Definition initial_state : State :=
  {| cyRef := None; instances := []; console := []; stats := None; timers := [] |}.

(** What one run of the effect sees from outside: the [graphData] prop, the
    layout box of the container (absent while the canvas is not rendered),
    the [layout] state, whether the library constructor throws, and whether
    [destroy()] of the instance it returns will throw. *)
Record Env : Type := mkEnv {
  graphData : JSValue;
  container : option Rect;
  layout : string;
  cytoscape_throws : option JSValue;
  destroy_throws : option JSValue
}.

(** A computation over the component state that may throw. *)
Definition Eff (A : Type) : Type := State → Completion A * State.

Definition ret {A} (a : A) : Eff A := λ s, (Normal a, s).

Definition bind {A B} (m : Eff A) (k : A → Eff B) : Eff B :=
  λ s, match m s with
       | (Normal a, s') => k a s'
       | (Throw e, s') => (Throw e, s')
       end.

Notation "x ←$ m ; k" := (bind m (λ x, k))
  (at level 20, m at level 100, k at level 200, right associativity, only parsing).
Notation "'exec' m ; k" := (bind m (λ _, k))
  (at level 20, m at level 100, k at level 200, right associativity, only parsing).

Definition liftC {A} (c : Completion A) : Eff A := λ s, (c, s).

Definition try_catch {A} (m : Eff A) (handler : JSError → Eff A) : Eff A :=
  λ s, match m s with
       | (Normal a, s') => (Normal a, s')
       | (Throw e, s') => handler e s'
       end.

Definition get_cyRef : Eff (option nat) := λ s, (Normal (cyRef s), s).

Definition set_cyRef (r : option nat) : Eff unit :=
  λ s, (Normal (), {| cyRef := r; instances := instances s; console := console s;
                      stats := stats s; timers := timers s |}).

Definition console_emit (entries : list LogEntry) : Eff unit :=
  λ s, (Normal (), {| cyRef := cyRef s; instances := instances s;
                      console := console s ++ entries;
                      stats := stats s; timers := timers s |}).

Definition console_log (text : string) (args : list JSValue) : Eff unit :=
  console_emit [mkLog LLog text args].
Definition console_warn (text : string) (args : list JSValue) : Eff unit :=
  console_emit [mkLog LWarn text args].
Definition console_error (text : string) (args : list JSValue) : Eff unit :=
  console_emit [mkLog LError text args].

Definition setStats (st : Stats) : Eff unit :=
  λ s, (Normal (), {| cyRef := cyRef s; instances := instances s; console := console s;
                      stats := Some st; timers := timers s |}).

Definition setTimeout (t : Timer) : Eff unit :=
  λ s, (Normal (), {| cyRef := cyRef s; instances := instances s; console := console s;
                      stats := stats s; timers := timers s ++ [t] |}).

Definition update_instance (c : nat) (f : CyInstance → CyInstance) : Eff unit :=
  λ s, (Normal (), {| cyRef := cyRef s; instances := alter f c (instances s);
                      console := console s; stats := stats s; timers := timers s |}).

(** The instance after a call of [destroy()]. *)
Definition mark_destroyed (i : CyInstance) : CyInstance :=
  {| cy_nodes := cy_nodes i; cy_edges := cy_edges i; cy_layout := cy_layout i;
     cy_destroyed := true; cy_fits := cy_fits i;
     cy_destroy_throws := cy_destroy_throws i |}.

(** The instance after a call of [fit(padding)]. *)
Definition add_fit (padding : Z) (i : CyInstance) : CyInstance :=
  {| cy_nodes := cy_nodes i; cy_edges := cy_edges i; cy_layout := cy_layout i;
     cy_destroyed := cy_destroyed i; cy_fits := cy_fits i ++ [padding];
     cy_destroy_throws := cy_destroy_throws i |}.

(** What [destroy()] of the instance at [c] throws, if it throws. *)
Definition destroy_failure (c : nat) (s : State) : option JSValue :=
  i ← instances s !! c; cy_destroy_throws i.

(** [cy.destroy()]: the call is recorded on the instance; it returns or
    throws as the library decides. *)
Definition cy_destroy (c : nat) : Eff unit :=
  λ s, (match destroy_failure c s with
        | Some v => Throw (Thrown v)
        | None => Normal ()
        end,
        {| cyRef := cyRef s; instances := alter mark_destroyed c (instances s);
           console := console s; stats := stats s; timers := timers s |}).

(** [cy.fit(padding)]. *)
Definition cy_fit (c : nat) (padding : Z) : Eff unit :=
  update_instance c (add_fit padding).

(** [cytoscape({ container, elements: [...nodes, ...edges], style, layout })]:
    allocates a fresh live instance, unless the library throws. *)
Definition cytoscape (throws destroyThrows : option JSValue) (ns : list NodeData)
    (es : list EdgeData) (layoutName : string) : Eff nat :=
  λ s, match throws with
       | Some v => (Throw (Thrown v), s)
       | None =>
           (Normal (length (instances s)),
            {| cyRef := cyRef s;
               instances := instances s ++
                 [{| cy_nodes := ns; cy_edges := es; cy_layout := layoutName;
                     cy_destroyed := false; cy_fits := [];
                     cy_destroy_throws := destroyThrows |}];
               console := console s; stats := stats s; timers := timers s |})
       end.

Definition array_items (v : JSValue) : list JSValue :=
  match v with JArr items => items | _ => [] end.

(** The caught exception as it is printed. *)
Definition error_value (e : JSError) : JSValue :=
  match e with
  | TypeError what => JStr ("TypeError: cannot read property " +:+ what)
  | ConversionError => JStr "TypeError: Cannot convert object to primitive value"
  | Thrown v => v
  end.

(** The callback handed to [setTimeout]:
    [if (cyRef.current) { cyRef.current.fit(50); }]. *)
Definition deferred_fit : Eff unit :=
  r ←$ get_cyRef;
  match r with
  | Some c => cy_fit c 50
  | None => ret ()
  end.

(** The function returned by the effect (lines 211-221): [destroy()] is
    called inside a [try] whose [catch] prints a warning. *)
Definition cleanup : Eff unit :=
  exec console_log "Cleanup: destroying cytoscape instance" [];
  r ←$ get_cyRef;
  match r with
  | Some c =>
      exec try_catch (cy_destroy c)
             (λ e, console_warn "Error during cleanup:" [error_value e]);
      set_cyRef None
  | None => ret ()
  end.

(** What the effect returns: nothing on the early returns, else [cleanup]. *)
Inductive EffectReturn : Type := NoCleanup | ReturnsCleanup.

(** Lines 31-40: destroy the previous instance before creating a new one;
    [destroy()] is called inside a [try] whose [catch] prints a warning. *)
Definition destroy_previous : Eff unit :=
  r ←$ get_cyRef;
  match r with
  | Some c =>
      exec console_log "Destroying previous cytoscape instance" [];
      exec try_catch (cy_destroy c)
             (λ e, console_warn "Error destroying previous instance:" [error_value e]);
      set_cyRef None
  | None => ret ()
  end.

(** Lines 105-209: the [try] block and its [catch]. *)
Definition create_instance (env : Env) (entities relationships : JSValue)
    (ns : list NodeData) (es : list EdgeData) : Eff unit :=
  try_catch
    (cy ←$ cytoscape (cytoscape_throws env) (destroy_throws env) ns es (layout env);
     exec console_log "Cytoscape instance created successfully" [];
     exec set_cyRef (Some cy);
     entityTypes ←$ liftC (getEntityTypeCounts (array_items (js_or entities (JArr []))));
     relationshipTypes ←$
       liftC (getRelationshipTypeCounts (array_items (js_or relationships (JArr []))));
     exec setStats {| stats_nodes := length ns;
                      stats_edges := length es;
                      stats_entityTypes := entityTypes;
                      stats_relationshipTypes := relationshipTypes |};
     setTimeout {| timer_delay := 100; timer_session := cy |})
    (λ err, console_error "Error creating cytoscape graph:" [error_value err]).

(** Lines 42-103 and on: build the elements, check the container, create. *)
Definition render (env : Env) (rect : Rect) (entities relationships : JSValue)
  : Eff EffectReturn :=
  ns ←$ liftC (build_nodes (array_items entities));
  let validNodeIds := valid_node_ids ns in
  exec console_log "Valid node IDs:" [JArr (JStr <$> validNodeIds)];
  built ←$ liftC (build_edges validNodeIds (array_items relationships));
  exec console_emit built.2;
  let es := built.1 in
  exec console_log "Processed nodes:" [JNum (Z.of_nat (length ns))];
  exec console_log "Processed edges (after validation):" [JNum (Z.of_nat (length es))];
  exec console_log "Sample node:" [from_option node_to_js JUndefined (head ns)];
  exec match head es with
       | Some e => console_log "Sample edge:" [edge_to_js e]
       | None => ret ()
       end;
  exec console_log "Container dimensions:"
         [JObj [("width", JNum (rect_width rect)); ("height", JNum (rect_height rect));
                ("top", JNum (rect_top rect)); ("left", JNum (rect_left rect))]];
  if (rect_width rect =? 0) || (rect_height rect =? 0) then
    exec console_error "Container has zero dimensions! Cannot render graph." [];
    ret NoCleanup
  else
    exec create_instance env entities relationships ns es;
    ret ReturnsCleanup.

(** The body of [useEffect(() => { ... }, [graphData, layout])]. *)
Definition useEffect_body (env : Env) : Eff EffectReturn :=
  match truthy (graphData env), container env with
  | true, Some rect =>
      exec console_log "Creating graph with data:" [graphData env];
      entities ←$ liftC (getProp (graphData env) "entities");
      if negb (truthy entities) || negb (Array_isArray entities) then
        exec console_error "Invalid graphData.entities:" [entities];
        ret NoCleanup
      else
        relationships ←$ liftC (getProp (graphData env) "relationships");
        if negb (truthy relationships) || negb (Array_isArray relationships) then
          exec console_error "Invalid graphData.relationships:" [relationships];
          ret NoCleanup
        else
          exec destroy_previous;
          render env rect entities relationships
  | _, _ =>
      exec console_log "Early return - missing graphData or container" [];
      ret NoCleanup
  end.

(** ** Events of the single-threaded event loop *)

Inductive Event : Type :=
  | RunEffect (env : Env)        (* React runs the effect *)
  | RunCleanup                   (* React calls the returned cleanup *)
  | FireTimer (k : nat).         (* the k-th pending timeout fires *)

(** Firing a pending timeout removes it and runs its callback. *)
Definition fire_timer (k : nat) : Eff unit :=
  λ s, match timers s !! k with
       | Some _ =>
           deferred_fit {| cyRef := cyRef s; instances := instances s;
                           console := console s; stats := stats s;
                           timers := delete k (timers s) |}
       | None => (Normal (), s)
       end.

(** The state after an event, whether its handler returned or threw. *)
Definition step (s : State) (ev : Event) : State :=
  match ev with
  | RunEffect env => (useEffect_body env s).2
  | RunCleanup => (cleanup s).2
  | FireTimer k => (fire_timer k s).2
  end.

Definition run (evs : list Event) (s : State) : State := foldl step s evs.

(** The instances that exist and have not been destroyed. *)
Definition live_sessions (s : State) : list nat :=
  filter (λ c, (cy_destroyed <$> instances s !! c) = Some false)
         (seq 0 (length (instances s))).

(** ** Export *)

Definition newline : string := String "010"%char "".

Definition hex_digit (n : N) : ascii :=
  match n with
  | 0%N => "0" | 1%N => "1" | 2%N => "2" | 3%N => "3" | 4%N => "4"
  | 5%N => "5" | 6%N => "6" | 7%N => "7" | 8%N => "8" | 9%N => "9"
  | 10%N => "a" | 11%N => "b" | 12%N => "c" | 13%N => "d" | 14%N => "e"
  | _ => "f"
  end%char.

Definition backslash : ascii := "092"%char.

(** The escape of one character inside a JSON string literal: a backslash
    and a letter for backspace, tab, line feed, form feed and carriage
    return, a backslash before a quote or a backslash, a backslash and u00XX
    for the other control characters, the character itself otherwise. *)
Definition escape_char (c : ascii) : string :=
  let n := N_of_ascii c in
  if (n =? 8)%N then String backslash "b"
  else if (n =? 9)%N then String backslash "t"
  else if (n =? 10)%N then String backslash "n"
  else if (n =? 12)%N then String backslash "f"
  else if (n =? 13)%N then String backslash "r"
  else if (n =? 34)%N then String backslash (String c EmptyString)
  else if (n =? 92)%N then String backslash (String backslash EmptyString)
  else if (n <? 32)%N then
    String backslash
      ("u00" +:+ String (hex_digit (n / 16)) (String (hex_digit (n mod 16)) EmptyString))
  else String c EmptyString.

Fixpoint escape_string (s : string) : string :=
  match s with
  | EmptyString => ""
  | String c rest => escape_char c +:+ escape_string rest
  end.

Definition quote (s : string) : string :=
  String "034"%char (escape_string s +:+ String "034"%char "").

(** [JSON.stringify(value, null, 2)] at nesting [indent]: [None] stands
    for the [undefined] result.  A member whose value serializes to
    [undefined] is left out of an object and printed as [null] in an
    array. *)
Fixpoint serialize (indent : string) (v : JSValue) : option string :=
  match v with
  | JUndefined => None
  | JNull => Some "null"
  | JBool true => Some "true"
  | JBool false => Some "false"
  | JNum z => Some (pretty z)
  | JStr s => Some (quote s)
  | JArr items =>
      let inner := indent +:+ "  " in
      let parts :=
        (fix elements (l : list JSValue) : list string :=
           match l with
           | [] => []
           | x :: rest => default "null" (serialize inner x) :: elements rest
           end) items in
      match parts with
      | [] => Some "[]"
      | _ :: _ =>
          Some ("[" +:+ newline +:+ inner
                +:+ String.concat ("," +:+ newline +:+ inner) parts
                +:+ newline +:+ indent +:+ "]")
      end
  | JObj props =>
      let inner := indent +:+ "  " in
      let parts :=
        (fix members (l : list (string * JSValue)) : list string :=
           match l with
           | [] => []
           | (k, x) :: rest =>
               match serialize inner x with
               | Some sx => (quote k +:+ ": " +:+ sx) :: members rest
               | None => members rest
               end
           end) props in
      match parts with
      | [] => Some "{}"
      | _ :: _ =>
          Some ("{" +:+ newline +:+ inner
                +:+ String.concat ("," +:+ newline +:+ inner) parts
                +:+ newline +:+ indent +:+ "}")
      end
  end.

Definition JSON_stringify (v : JSValue) : option string := serialize "" v.

(** What a click on the generated download link saves. *)
Inductive DownloadContent : Type :=
  | PngImage (cy : nat) (scale : Z)      (* [cy.png({ scale })] *)
  | JsonBlob (text : string).            (* [new Blob([data])] *)

Record Download : Type := mkDownload {
  download_name : string;
  download_content : DownloadContent
}.

(** [exportGraph(format)], with the [graphData] prop it closes over.  A
    [Blob] part that is [undefined] is saved as the text "undefined". *)
Definition exportGraph (format : string) (gd : JSValue) (s : State) : option Download :=
  match cyRef s with
  | None => None
  | Some c =>
      if String.eqb format "png" then
        Some {| download_name := "knowledge-graph.png";
                download_content := PngImage c 2 |}
      else if String.eqb format "json" then
        Some {| download_name := "knowledge-graph.json";
                download_content :=
                  JsonBlob (default "undefined" (JSON_stringify gd)) |}
      else None
  end.

(** * Notions used to state the properties *)

(** ** Values that can be read from *)

Definition non_nullish (v : JSValue) : Prop :=
  match v with JUndefined | JNull => False | _ => True end.

(** The value of [v.k] when [v] is neither [null] nor [undefined]. *)
Definition prop_of (v : JSValue) (k : string) : JSValue :=
  match v with JObj props => lookup_prop k props | _ => JUndefined end.

(** ** The values the builder and the counters convert to strings *)

(** [entity.id || entity.name] *)
Definition id_value (entity : JSValue) : JSValue :=
  js_or (prop_of entity "id") (prop_of entity "name").

(** [rel.source || rel.from || ''] and [rel.target || rel.to || ''] *)
Definition source_value (rel : JSValue) : JSValue :=
  js_or (js_or (prop_of rel "source") (prop_of rel "from")) (JStr "").

Definition target_value (rel : JSValue) : JSValue :=
  js_or (js_or (prop_of rel "target") (prop_of rel "to")) (JStr "").

(** [entity.type || 'Unknown'] and [rel.type || rel.relationship || 'related'] *)
Definition type_of_entity (entity : JSValue) : JSValue :=
  js_or (prop_of entity "type") (JStr "Unknown").

Definition type_of_rel (rel : JSValue) : JSValue :=
  js_or (js_or (prop_of rel "type") (prop_of rel "relationship")) (JStr "related").

(** An entity the node callback returns on, a relationship the edge
    callback returns on. *)
Definition buildable_entity (entity : JSValue) : Prop :=
  non_nullish entity ∧ stringable (id_value entity) = true.

Definition buildable_relationship (rel : JSValue) : Prop :=
  non_nullish rel ∧ stringable (source_value rel) = true
  ∧ stringable (target_value rel) = true.

(** An element the legend counters return on. *)
Definition countable_entity (entity : JSValue) : Prop :=
  non_nullish entity ∧ stringable (type_of_entity entity) = true.

Definition countable_relationship (rel : JSValue) : Prop :=
  non_nullish rel ∧ stringable (type_of_rel rel) = true.

(** ** The legend counters *)

(** The two counters as the [try] block calls them, in order. *)
Definition legend_counts (entities relationships : list JSValue)
  : Completion (gmap string CountVal * gmap string CountVal) :=
  entityTypes ←! getEntityTypeCounts entities;
  relationshipTypes ←! getRelationshipTypeCounts relationships;
  Normal (entityTypes, relationshipTypes).

Definition type_key_of_entity (entity : JSValue) : string :=
  js_String (js_or (prop_of entity "type") (JStr "Unknown")).

Definition type_key_of_rel (rel : JSValue) : string :=
  js_String (js_or (js_or (prop_of rel "type") (prop_of rel "relationship"))
                   (JStr "related")).

(** An accumulator whose slots all hold counts. *)
Definition all_counts (acc : gmap string CountVal) : Prop :=
  ∀ k, acc !! k ≠ Some CText.

(** ** What a run of the effect prints and creates *)

(** What [render] prints before it looks at the container size. *)
Definition render_log (rect : Rect) (m : GraphModel) : list LogEntry :=
  [mkLog LLog "Valid node IDs:" [JArr (JStr <$> valid_node_ids (nodes m))]]
  ++ rejectedEdges m
  ++ [mkLog LLog "Processed nodes:" [JNum (Z.of_nat (length (nodes m)))];
      mkLog LLog "Processed edges (after validation):"
            [JNum (Z.of_nat (length (edges m)))];
      mkLog LLog "Sample node:" [from_option node_to_js JUndefined (head (nodes m))]]
  ++ match head (edges m) with
     | Some e => [mkLog LLog "Sample edge:" [edge_to_js e]]
     | None => []
     end
  ++ [mkLog LLog "Container dimensions:"
        [JObj [("width", JNum (rect_width rect)); ("height", JNum (rect_height rect));
               ("top", JNum (rect_top rect)); ("left", JNum (rect_left rect))]]].

Definition zero_extent (rect : Rect) : bool :=
  (rect_width rect =? 0) || (rect_height rect =? 0).

Definition zero_dimensions_error : LogEntry :=
  mkLog LError "Container has zero dimensions! Cannot render graph." [].

Definition created_log : LogEntry :=
  mkLog LLog "Cytoscape instance created successfully" [].

(** What the [catch] of the [try] block prints when a counter throws. *)
Definition legend_error (entities relationships : list JSValue) : list LogEntry :=
  match legend_counts entities relationships with
  | Normal _ => []
  | Throw e => [mkLog LError "Error creating cytoscape graph:" [error_value e]]
  end.

(** The legend of a graph built from [entities] and [relationships]. *)
Definition stats_of (entities relationships : list JSValue) (m : GraphModel) : Stats :=
  {| stats_nodes := length (nodes m);
     stats_edges := length (edges m);
     stats_entityTypes := foldl count_key ∅ (type_key_of_entity <$> entities);
     stats_relationshipTypes := foldl count_key ∅ (type_key_of_rel <$> relationships) |}.

Definition new_instance (env : Env) (m : GraphModel) : CyInstance :=
  {| cy_nodes := nodes m; cy_edges := edges m; cy_layout := layout env;
     cy_destroyed := false; cy_fits := [];
     cy_destroy_throws := destroy_throws env |}.

(** ** Sessions: which instances are live, and who refers to them *)

(** Every live instance is the one [cyRef] refers to. *)
Definition owns_all_live (s : State) : Prop :=
  ∀ c i, instances s !! c = Some i → cy_destroyed i = false → cyRef s = Some c.

(** [cyRef] refers to a live instance or to nothing. *)
Definition ref_is_live (s : State) : Prop :=
  ∀ c, cyRef s = Some c → ∃ i, instances s !! c = Some i ∧ cy_destroyed i = false.

Definition session_invariant (s : State) : Prop := owns_all_live s ∧ ref_is_live s.

(** No instance is live and [cyRef] is empty. *)
Definition quiescent (s : State) : Prop :=
  cyRef s = None ∧ ∀ c i, instances s !! c = Some i → cy_destroyed i = true.

(** [s'] differs from [s] at most in the console. *)
Definition same_sessions (s s' : State) : Prop :=
  cyRef s' = cyRef s ∧ instances s' = instances s.

(** [s'] is [s] with one more instance, live and referred to by [cyRef]. *)
Definition one_created (s s' : State) : Prop :=
  cyRef s' = Some (length (instances s)) ∧
  ∃ i : CyInstance, instances s' = instances s ++ [i] ∧ cy_destroyed i = false.

Definition data_error_texts : list string :=
  ["Invalid graphData.entities:"; "Invalid graphData.relationships:"].

(** ** Example payloads *)

(** Two entities and two relationships, the second naming an unknown node. *)
Definition sample_entities : list JSValue :=
  [JObj [("id", JStr "a"); ("name", JStr "Alice"); ("type", JStr "PERSON")];
   JObj [("id", JStr "b"); ("name", JStr "Acme"); ("type", JStr "ORGANIZATION")]].

Definition sample_relationships : list JSValue :=
  [JObj [("source", JStr "a"); ("target", JStr "b"); ("type", JStr "works_at")];
   JObj [("source", JStr "a"); ("target", JStr "zzz"); ("type", JStr "bad")]].

Definition payload_of (entities relationships : list JSValue) : JSValue :=
  JObj [("entities", JArr entities); ("relationships", JArr relationships)].

Definition sample_rect : Rect :=
  {| rect_width := 800; rect_height := 600; rect_top := 0; rect_left := 0 |}.

Definition env_of (gd : JSValue) (rect : Rect) : Env :=
  {| graphData := gd; container := Some rect; layout := "cose";
     cytoscape_throws := None; destroy_throws := None |}.

Definition sample_env : Env :=
  env_of (payload_of sample_entities sample_relationships) sample_rect.

Definition sample_model : GraphModel :=
  {| nodes := [ {| node_id := "a"; node_label := JStr "Alice";
                   node_type := JStr "PERSON"; node_properties := JObj [];
                   node_mentions := JNum 1 |};
                {| node_id := "b"; node_label := JStr "Acme";
                   node_type := JStr "ORGANIZATION"; node_properties := JObj [];
                   node_mentions := JNum 1 |} ];
     edges := [ {| edge_id := "edge-0"; edge_source := "a"; edge_target := "b";
                   edge_label := JStr "works_at"; edge_type := JStr "works_at" |} ];
     rejectedEdges := [ mkLog LWarn "Skipping invalid edge: a -> zzz" [] ] |}.

(** The component after its first mount of the sample payload, and after a
    mount, an unmount and a second mount. *)
Definition mounted_state : State := step initial_state (RunEffect sample_env).

Definition remounted_state : State :=
  run [RunEffect sample_env; RunCleanup; RunEffect sample_env] initial_state.

Definition flat_rect : Rect :=
  {| rect_width := 800; rect_height := 0; rect_top := 0; rect_left := 0 |}.

(** ** The export of the sample payload *)

(** The document that a serialization of the validated model would be, in
    the shape the specification gives to a graph model: the nodes with their
    defaults, then the materialized edges. *)
Definition model_document (m : GraphModel) : JSValue :=
  JObj [("nodes", JArr (node_to_js <$> nodes m));
        ("edges", JArr (edge_to_js <$> edges m))].

(** The text saved for the sample payload: the payload as received, with
    the relationship that the builder rejected and without defaults. *)
Definition sample_export_text : string :=
  default "" (JSON_stringify (payload_of sample_entities sample_relationships)).

(** ** Duplicate identifiers *)

Definition twin_entities : list JSValue :=
  [JObj [("id", JStr "x"); ("name", JStr "First"); ("type", JStr "PERSON")];
   JObj [("id", JStr "x"); ("name", JStr "Second"); ("type", JStr "PERSON")]].

(** ** Entities without id and name *)

Definition anonymous_entities : list JSValue :=
  [JObj [("type", JStr "PERSON")]; JObj [("id", JStr "a")]].

Definition anonymous_relationships : list JSValue :=
  [JObj [("source", JStr "undefined"); ("target", JStr "a")];
   JObj [("target", JStr "a")]].

(** ** Payloads for the legend *)

Definition legend_relationships : list JSValue :=
  [JObj [("source", JStr "x"); ("target", JStr "zzz"); ("type", JStr "bad")]].

Definition legend_env : Env :=
  env_of (payload_of twin_entities legend_relationships) sample_rect.

Definition constructor_env : Env :=
  env_of (payload_of [JObj [("id", JStr "a"); ("type", JStr "constructor")]] [])
         sample_rect.

Definition legend_stats : option Stats :=
  stats (step initial_state (RunEffect legend_env)).

Definition constructor_stats : option Stats :=
  stats (step initial_state (RunEffect constructor_env)).

Definition legend_model : GraphModel :=
  {| nodes := [ {| node_id := "x"; node_label := JStr "First";
                   node_type := JStr "PERSON"; node_properties := JObj [];
                   node_mentions := JNum 1 |};
                {| node_id := "x"; node_label := JStr "Second";
                   node_type := JStr "PERSON"; node_properties := JObj [];
                   node_mentions := JNum 1 |} ];
     edges := [];
     rejectedEdges := [ mkLog LWarn "Skipping invalid edge: x -> zzz" [] ] |}.

(** ** Rebuilding *)

(** What one run of the effect printed, and the instances it created. *)
Definition emitted (env : Env) (s : State) : list LogEntry :=
  drop (length (console s)) (console (useEffect_body env s).2).

(** A warning printed by the [filter] callback for a skipped edge. *)
Definition is_skip_warning (e : LogEntry) : Prop :=
  log_level e = LWarn ∧ String.prefix "Skipping invalid edge: " (log_text e) = true.

Global Instance is_skip_warning_dec e : Decision (is_skip_warning e).
Proof. unfold is_skip_warning. apply _. Defined.

(** The rejection log of a run: the skip warnings it printed, in order. *)
Definition rejection_log (env : Env) (s : State) : list LogEntry :=
  filter is_skip_warning (emitted env s).

Definition created (env : Env) (s : State) : list CyInstance :=
  drop (length (instances s)) (instances (useEffect_body env s).2).

(** The warning of a [catch] around [destroy()], when [destroy()] throws. *)
Definition destroy_warning (text : string) (failure : option JSValue) : list LogEntry :=
  match failure with
  | Some v => [mkLog LWarn text [v]]
  | None => []
  end.

(** What the destroy step of the effect prints in state [s]. *)
Definition destroy_log (s : State) : list LogEntry :=
  match cyRef s with
  | Some c =>
      mkLog LLog "Destroying previous cytoscape instance" []
      :: destroy_warning "Error destroying previous instance:" (destroy_failure c s)
  | None => []
  end.

(** ** The earlier copy of the component

    The file carries a second, earlier [GraphVisualization] whose effect
    maps every relationship to an edge without looking at the nodes. *)

Record LegacyEdgeData : Type := mkLegacyEdgeData {
  legacy_edge_id : string;
  legacy_edge_source : JSValue;
  legacy_edge_target : JSValue;
  legacy_edge_label : JSValue;
  legacy_edge_type : JSValue
}.

(** The callback of [graphData.relationships?.map((rel, idx) => ...)] in
    the earlier copy. *)
Definition legacy_edge_of_rel (rel : JSValue) (idx : nat) : Completion LegacyEdgeData :=
  r_source ←! getProp rel "source";
  r_target ←! getProp rel "target";
  r_type ←! getProp rel "type";
  Normal {| legacy_edge_id := "edge-" +:+ pretty idx;
            legacy_edge_source := r_source;
            legacy_edge_target := r_target;
            legacy_edge_label := r_type;
            legacy_edge_type := r_type |}.

Definition legacy_edges (relationships : list JSValue)
  : Completion (list LegacyEdgeData) :=
  Array_mapi legacy_edge_of_rel relationships.

(** * Further notions *)

(** ** Values that cannot be read from *)

Definition nullish (v : JSValue) : Prop := v = JNull ∨ v = JUndefined.

(** ** Reading the legend counters *)

(** The count held by a slot; 0 when the slot is absent. *)
Definition bucket (acc : gmap string CountVal) (k : string) : nat :=
  match acc !! k with Some (CNum n) => n | _ => 0%nat end.

Definition occurrences (k : string) (keys : list string) : nat :=
  length (filter (λ x, x = k) keys).

(** ** Inputs on which the effect gives up *)

(** The props or the container fail one of the four checks at the top of
    the effect. *)
Definition payload_rejected (env : Env) : Prop :=
  truthy (graphData env) = false ∨
  container env = None ∨
  Array_isArray (prop_of (graphData env) "entities") = false ∨
  Array_isArray (prop_of (graphData env) "relationships") = false.

(** ** The fit button *)

(** [fitGraph]: [if (cyRef.current) { cyRef.current.fit(50); }]. *)
Definition fitGraph : Eff unit :=
  r ←$ get_cyRef;
  match r with
  | Some c => cy_fit c 50
  | None => ret ()
  end.

(** Props whose payload has no [entities] field. *)
Definition env_without_entities : Env :=
  env_of (JObj [("relationships", JArr [])]) sample_rect.

(** A payload whose second entity is [null]. *)
Definition env_with_null_entity : Env :=
  env_of (payload_of [JObj [("id", JStr "a")]; JNull] []) sample_rect.

(** ** Node colours *)

(** [String.prototype.toUpperCase] on text made of ASCII characters: the
    letters [a]..[z] become [A]..[Z], every other character stays. *)
Definition upper_char (a : ascii) : ascii :=
  let n := nat_of_ascii a in
  if (97 <=? n)%nat && (n <=? 122)%nat then ascii_of_nat (n - 32) else a.

Fixpoint toUpperCase (s : string) : string :=
  match s with
  | EmptyString => EmptyString
  | String a rest => String (upper_char a) (toUpperCase rest)
  end.

(** Text on which [toUpperCase] above is what the engine computes. *)
Fixpoint ascii_text (s : string) : bool :=
  match s with
  | EmptyString => true
  | String a rest => (nat_of_ascii a <? 128)%nat && ascii_text rest
  end.

(** The [colors] object literal of [getNodeColor]. *)
Definition colors : list (string * string) :=
  [("PERSON", "#FF6B6B"); ("ORGANIZATION", "#4ECDC4"); ("LOCATION", "#45B7D1");
   ("CONCEPT", "#FFA07A"); ("EVENT", "#98D8C8"); ("DATE", "#F7DC6F");
   ("TECHNOLOGY", "#BB8FCE"); ("default", "#95A5A6")].

Fixpoint assoc (k : string) (l : list (string * string)) : option string :=
  match l with
  | [] => None
  | (k', v) :: rest => if decide (k = k') then Some v else assoc k rest
  end.

(** What [getNodeColor] returns: one of the strings of [colors], or a
    member that [colors] inherits from [Object.prototype] (a function or an
    object, not a colour). *)
Inductive Colour : Type :=
  | Own (hex : string)
  | Inherited (member : string).

(** [colors.default] *)
Definition colors_default : Colour := Own (default "undefined" (assoc "default" colors)).

(** [colors[key] || colors.default]: an own colour (all are non-empty,
    hence truthy); else an inherited member, which is truthy too; else
    [undefined], which falls through to [colors.default]. *)
Definition colors_or_default (key : string) : Colour :=
  match assoc key colors with
  | Some hex => if String.eqb hex "" then colors_default else Own hex
  | None => if decide (key ∈ objectPrototypeKeys) then Inherited key else colors_default
  end.

(** [getNodeColor] of the validating component:
    [colors[type?.toUpperCase()] || colors.default].  [?.] yields
    [undefined] on [null] and [undefined], and [colors[undefined]] reads the
    key ["undefined"]; a string is upper-cased; any other value has no
    callable [toUpperCase], and the call throws. *)
Definition getNodeColor (type : JSValue) : Completion Colour :=
  match type with
  | JUndefined | JNull => Normal (colors_or_default "undefined")
  | JStr t => Normal (colors_or_default (toUpperCase t))
  | JBool _ | JNum _ | JArr _ | JObj _ => Throw (TypeError "toUpperCase")
  end.

(** [getNodeColor] of the earlier copy: [colors[type] || colors.default],
    the key being [type] converted to a string. *)
Definition legacy_getNodeColor (type : JSValue) : Completion Colour :=
  key ←! ToString type;
  Normal (colors_or_default key).

(** The names of the seven coloured types. *)
Definition palette_types : list string :=
  ["PERSON"; "ORGANIZATION"; "LOCATION"; "CONCEPT"; "EVENT"; "DATE"; "TECHNOLOGY"].

(** Some character of the text is one of [a]..[z]. *)
Fixpoint has_lower (s : string) : bool :=
  match s with
  | EmptyString => false
  | String a rest =>
      ((97 <=? nat_of_ascii a)%nat && (nat_of_ascii a <=? 122)%nat) || has_lower rest
  end.

(** ** Node size *)

(** The [width] and [height] of a node,
    [Math.min(20 + (ele.data('mentions') || 1) * 5, 60)], where the product
    is computed from a number or a boolean.  [None] stands for the other
    operands (a non-empty string, an array, an object), whose conversion to
    a number is not part of the model. *)
Definition node_diameter (mentions : JSValue) : option Z :=
  match js_or mentions (JNum 1) with
  | JNum m => Some (Z.min (20 + m * 5) 60)
  | JBool _ => Some (Z.min (20 + 1 * 5) 60)
  | _ => None
  end.

(** * The application shell *)

(** ** State *)

(** What [error] holds when it is not [null]: the [message] of the error
    caught by [handleURLSubmit].  It is a text the handler or a rejected
    promise supplied, or the engine's own wording of a [TypeError] it
    raised (some non-empty text). *)
Inductive ErrorText : Type :=
  | Text (message : string)
  | EngineText (e : JSError).

(** The five [useState] cells of [App]. *)
Record AppState : Type := mkAppState {
  app_graphData : JSValue;
  app_loading : bool;
  app_error : option ErrorText;
  app_progress : Z;
  app_currentStep : string
}.

(** Where a call of [handleURLSubmit] is suspended: at [await fetch(...)],
    at [await response.json().catch(...)] of a response that is not [ok],
    at [await response.json()], at the 300 ms pause. *)
Inductive Suspended : Type :=
  | AwaitFetch
  | AwaitErrorBody (status : Z) (statusText : string)
  | AwaitBody
  | AwaitDelay (data : JSValue).

(** The component together with what is pending: the suspended calls of
    [handleURLSubmit] and the number of 500 ms timeouts that will call
    [setLoading(false)]. *)
Record App : Type := mkApp {
  app_state : AppState;
  app_calls : list Suspended;
  app_closing : nat
}.

Definition app_initial : App :=
  {| app_state := {| app_graphData := JNull; app_loading := false; app_error := None;
                     app_progress := 0; app_currentStep := "" |};
     app_calls := []; app_closing := 0 |}.

(** ** What is rendered *)

(** Truthiness of [error]. *)
Definition error_truthy (e : option ErrorText) : bool :=
  match e with
  | None => false
  | Some (Text message) => negb (String.eqb message "")
  | Some (EngineText _) => true
  end.

(** The four conditional sections of [<main>]. *)
Definition shows_input (st : AppState) : bool :=
  negb (truthy (app_graphData st)) && negb (app_loading st)
  && negb (error_truthy (app_error st)).

Definition shows_loading (st : AppState) : bool := app_loading st.

Definition shows_error (st : AppState) : bool := error_truthy (app_error st).

Definition shows_graph (st : AppState) : bool :=
  truthy (app_graphData st) && negb (app_loading st)
  && negb (error_truthy (app_error st)).

(** ** [handleURLSubmit] *)

(** The [catch] block. *)
Definition handle_failure (st : AppState) (e : ErrorText) : AppState :=
  {| app_graphData := app_graphData st; app_loading := false; app_error := Some e;
     app_progress := 0; app_currentStep := "" |}.

Definition with_progress (st : AppState) (p : Z) (text : string) : AppState :=
  {| app_graphData := app_graphData st; app_loading := app_loading st;
     app_error := app_error st; app_progress := p; app_currentStep := text |}.

(** The template literal [`HTTP ${response.status}: ${response.statusText}`]. *)
Definition http_error_text (status : Z) (statusText : string) : string :=
  "HTTP " +:+ pretty status +:+ ": " +:+ statusText.

(** The argument of [new Error(...)] for a response that is not [ok]:
    [errorData.detail || errorData.error || `HTTP ...`]. *)
Definition http_error_value (errorData : JSValue) (status : Z) (statusText : string)
  : Completion JSValue :=
  detail ←! getProp errorData "detail";
  error ←! getProp errorData "error";
  Normal (js_or (js_or detail error) (JStr (http_error_text status statusText))).

(** What the [catch] block receives in that case: the [Error] built from
    that value, whose message is the value converted to a string, or the
    [TypeError] of reading a property of [null]. *)
Definition http_error (errorData : JSValue) (status : Z) (statusText : string)
  : ErrorText :=
  match v ←! http_error_value errorData status statusText; ToString v with
  | Normal message => Text message
  | Throw e => EngineText e
  end.

(** [!data.entities || !data.relationships] *)
Definition response_invalid (data : JSValue) : Completion bool :=
  entities ←! getProp data "entities";
  relationships ←! getProp data "relationships";
  Normal (negb (truthy entities) || negb (truthy relationships)).

(** ** Events *)

(** What can happen to the component: the form calls [onSubmit]; a pending
    [fetch], [json()] or timeout of a suspended call settles; the 500 ms
    timeout fires; the Retry button of the error view is clicked. *)
Inductive AppEvent : Type :=
  | Submit (url : string)
  | FetchResolved (call : nat) (ok : bool) (status : Z) (statusText : string)
  | FetchRejected (call : nat) (message : string)
  | ErrorBodyRead (call : nat) (errorData : JSValue)
  | BodyResolved (call : nat) (data : JSValue)
  | BodyRejected (call : nat) (message : string)
  | DelayElapsed (call : nat)
  | CloseTimerFired
  | RetryClicked.

(** The call at position [call] leaves through the [catch] block. *)
Definition fail_call (a : App) (call : nat) (e : ErrorText) : App :=
  {| app_state := handle_failure (app_state a) e;
     app_calls := delete call (app_calls a);
     app_closing := app_closing a |}.

(** The call at position [call] sets the progress and suspends again. *)
Definition suspend_call (a : App) (call : nat) (p : Z) (text : string) (next : Suspended)
  : App :=
  {| app_state := with_progress (app_state a) p text;
     app_calls := <[call := next]> (app_calls a);
     app_closing := app_closing a |}.

(** One event; [None] when the event cannot happen in that state: the form
    exists only while the input section is rendered, the Retry button only
    while the error section is, and a call can only be resumed where it is
    suspended.  The state given is the one at the next suspension (or at the
    end) of the code that runs. *)
Definition app_step (a : App) (ev : AppEvent) : option App :=
  let st := app_state a in
  match ev with
  | Submit url =>
      if shows_input st then
        Some {| app_state := {| app_graphData := JNull; app_loading := true;
                                app_error := None; app_progress := 10;
                                app_currentStep := "Sending request to backend..." |};
                app_calls := app_calls a ++ [AwaitFetch];
                app_closing := app_closing a |}
      else None
  | FetchResolved call ok status statusText =>
      match app_calls a !! call with
      | Some AwaitFetch =>
          if ok
          then Some (suspend_call a call 70 "Receiving knowledge graph..." AwaitBody)
          else Some (suspend_call a call 30 "Backend processing article..."
                       (AwaitErrorBody status statusText))
      | _ => None
      end
  | FetchRejected call message =>
      match app_calls a !! call with
      | Some AwaitFetch => Some (fail_call a call (Text message))
      | _ => None
      end
  | ErrorBodyRead call errorData =>
      match app_calls a !! call with
      | Some (AwaitErrorBody status statusText) =>
          Some (fail_call a call (http_error errorData status statusText))
      | _ => None
      end
  | BodyResolved call data =>
      match app_calls a !! call with
      | Some AwaitBody =>
          match response_invalid data with
          | Throw e => Some (fail_call a call (EngineText e))
          | Normal true =>
              Some (fail_call a call (Text "Invalid response format from backend"))
          | Normal false =>
              Some (suspend_call a call 90 "Rendering graph..." (AwaitDelay data))
          end
      | _ => None
      end
  | BodyRejected call message =>
      match app_calls a !! call with
      | Some AwaitBody => Some (fail_call a call (Text message))
      | _ => None
      end
  | DelayElapsed call =>
      match app_calls a !! call with
      | Some (AwaitDelay data) =>
          Some {| app_state := {| app_graphData := data; app_loading := app_loading st;
                                  app_error := app_error st; app_progress := 100;
                                  app_currentStep := "Complete!" |};
                  app_calls := delete call (app_calls a);
                  app_closing := S (app_closing a) |}
      | _ => None
      end
  | CloseTimerFired =>
      match app_closing a with
      | S n =>
          Some {| app_state := {| app_graphData := app_graphData st; app_loading := false;
                                  app_error := app_error st;
                                  app_progress := app_progress st;
                                  app_currentStep := app_currentStep st |};
                  app_calls := app_calls a;
                  app_closing := n |}
      | O => None
      end
  | RetryClicked =>
      if shows_error st then
        Some {| app_state := {| app_graphData := JNull; app_loading := app_loading st;
                                app_error := None; app_progress := 0;
                                app_currentStep := "" |};
                app_calls := app_calls a;
                app_closing := app_closing a |}
      else None
  end.

Fixpoint app_run (evs : list AppEvent) (a : App) : option App :=
  match evs with
  | [] => Some a
  | ev :: rest => match app_step a ev with Some a' => app_run rest a' | None => None end
  end.

(** ** The shapes of a reachable state *)

(** A payload that passes the check of [handleURLSubmit]. *)
Definition accepted (data : JSValue) : Prop :=
  truthy (prop_of data "entities") = true ∧ truthy (prop_of data "relationships") = true.

(** The progress and the step text while a call is suspended. *)
Definition progress_at (ph : Suspended) : Z :=
  match ph with
  | AwaitFetch => 10
  | AwaitErrorBody _ _ => 30
  | AwaitBody => 70
  | AwaitDelay _ => 90
  end.

Definition step_at (ph : Suspended) : string :=
  match ph with
  | AwaitFetch => "Sending request to backend..."
  | AwaitErrorBody _ _ => "Backend processing article..."
  | AwaitBody => "Receiving knowledge graph..."
  | AwaitDelay _ => "Rendering graph..."
  end.

Definition payload_of_call (ph : Suspended) : Prop :=
  match ph with AwaitDelay data => accepted data | _ => True end.

Inductive AppShape : App → Prop :=
  | shape_idle e :
      AppShape {| app_state := {| app_graphData := JNull; app_loading := false;
                                  app_error := e; app_progress := 0;
                                  app_currentStep := "" |};
                  app_calls := []; app_closing := 0 |}
  | shape_in_flight ph :
      payload_of_call ph →
      AppShape {| app_state := {| app_graphData := JNull; app_loading := true;
                                  app_error := None; app_progress := progress_at ph;
                                  app_currentStep := step_at ph |};
                  app_calls := [ph]; app_closing := 0 |}
  | shape_closing data :
      accepted data →
      AppShape {| app_state := {| app_graphData := data; app_loading := true;
                                  app_error := None; app_progress := 100;
                                  app_currentStep := "Complete!" |};
                  app_calls := []; app_closing := 1 |}
  | shape_showing data :
      accepted data →
      AppShape {| app_state := {| app_graphData := data; app_loading := false;
                                  app_error := None; app_progress := 100;
                                  app_currentStep := "Complete!" |};
                  app_calls := []; app_closing := 0 |}.

(** The number of sections of [<main>] that are rendered. *)
Definition sections_shown (st : AppState) : nat :=
  length (filter (λ b : bool, b = true)
            [shows_input st; shows_loading st; shows_error st; shows_graph st]).

(** ** Example histories of the application *)

Definition sample_payload : JSValue := payload_of sample_entities sample_relationships.

(** A submission that succeeds, up to the moment the graph is shown. *)
Definition success_history : list AppEvent :=
  [Submit "https://example.org/a"; FetchResolved 0 true 200 "OK";
   BodyResolved 0 sample_payload; DelayElapsed 0; CloseTimerFired].

(** A submission answered with status 404 and an empty JSON object. *)
Definition not_found_history : list AppEvent :=
  [Submit "https://example.org/a"; FetchResolved 0 false 404 "Not Found";
   ErrorBodyRead 0 (JObj [])].

Definition app_showing_sample : App :=
  {| app_state := {| app_graphData := sample_payload; app_loading := false;
                     app_error := None; app_progress := 100;
                     app_currentStep := "Complete!" |};
     app_calls := []; app_closing := 0 |}.

Definition app_not_found : App :=
  {| app_state := {| app_graphData := JNull; app_loading := false;
                     app_error := Some (Text "HTTP 404: Not Found"); app_progress := 0;
                     app_currentStep := "" |};
     app_calls := []; app_closing := 0 |}.

(** * The error view *)

(** [s.includes(sub)]: [sub] occurs in [s] as a contiguous piece. *)
Fixpoint includes (s sub : string) : bool :=
  String.prefix sub s
  || match s with
     | EmptyString => false
     | String _ rest => includes rest sub
     end.

(** The [errorMap] of [formatError], in the order [Object.entries] lists
    it. *)
Definition errorMap : list (string * string) :=
  [("Failed to fetch", "Network error. Please check your connection.");
   ("HTTP error! status: 404", "Article not found.");
   ("HTTP error! status: 500", "Server error. Please try again later.");
   ("HTTP error! status: 403", "Access to this URL is forbidden.");
   ("Invalid URL", "Please enter a valid URL.")].

(** [formatError]: the text of the first entry whose key the message
    includes, else the message itself. *)
Definition formatError (errorMessage : string) : string :=
  match List.find (λ entry, includes errorMessage entry.1) errorMap with
  | Some entry => entry.2
  | None => errorMessage
  end.

Definition getErrorIcon (errorMessage : string) : string :=
  if includes errorMessage "Network" || includes errorMessage "fetch"
  then "Network Error"
  else if includes errorMessage "not found" || includes errorMessage "404"
  then "Not Found"
  else if includes errorMessage "forbidden" || includes errorMessage "403"
  then "Access Denied"
  else if includes errorMessage "server" || includes errorMessage "500"
  then "Server Error"
  else "Error".

(** The character occurs in the text. *)
Fixpoint occurs (c : ascii) (s : string) : bool :=
  match s with
  | EmptyString => false
  | String a rest => if ascii_dec c a then true else occurs c rest
  end.

(** A non-empty text of decimal digits. *)
Fixpoint digits_only (s : string) : bool :=
  match s with
  | EmptyString => true
  | String a rest =>
      (48 <=? nat_of_ascii a)%nat && (nat_of_ascii a <=? 57)%nat && digits_only rest
  end.

Definition decimal (s : string) : Prop := s ≠ "" ∧ digits_only s = true.

(** * What the graph component renders *)

Inductive View : Type :=
  | LoadingView      (* "Loading graph..." *)
  | ErrorView        (* "Error loading graph" *)
  | EmptyView        (* "No graph data available" *)
  | CanvasView.      (* the controls and the canvas, which carries [containerRef] *)

(** [v.length === 0] for a truthy [v]: an empty array, or an object whose
    own [length] is the number 0.  A non-empty string has a positive
    length; a number or [true] has none. *)
Definition length_is_zero (v : JSValue) : bool :=
  match v with
  | JArr [] => true
  | JObj props => match lookup_prop "length" props with JNum 0 => true | _ => false end
  | _ => false
  end.

(** The three early [return]s of the validating component, then the main
    view. *)
Definition view (loading error graphData : JSValue) : View :=
  if truthy loading then LoadingView
  else if truthy error then ErrorView
  else if negb (truthy graphData)
          || negb (truthy (prop_of graphData "entities"))
          || length_is_zero (prop_of graphData "entities")
  then EmptyView
  else CanvasView.

(** The [error] prop [App] passes to the graph component.  The component
    tests it for truthiness only; an engine-worded message is some
    non-empty text. *)
Definition error_prop (e : option ErrorText) : JSValue :=
  match e with
  | None => JNull
  | Some (Text message) => JStr message
  | Some (EngineText e) => error_value e
  end.

Definition app_view (st : AppState) : View :=
  view (JBool (app_loading st)) (error_prop (app_error st)) (app_graphData st).

(** The state in which the component is mounted by [App] with a payload
    whose [entities] is a text. *)
Definition text_payload : JSValue :=
  JObj [("entities", JStr "none"); ("relationships", JArr [])].

Definition text_history : list AppEvent :=
  [Submit "https://example.org/a"; FetchResolved 0 true 200 "OK";
   BodyResolved 0 text_payload; DelayElapsed 0; CloseTimerFired].

Definition app_showing_text : App :=
  {| app_state := {| app_graphData := text_payload; app_loading := false;
                     app_error := None; app_progress := 100;
                     app_currentStep := "Complete!" |};
     app_calls := []; app_closing := 0 |}.

(** ** The legend counters of the earlier copy *)

(** [acc[entity.type] = (acc[entity.type] || 0) + 1]: the key is the type
    as it is, converted to a string. *)
Definition legacy_getEntityTypeCounts (entities : list JSValue)
  : Completion (gmap string CountVal) :=
  Array_reduce (λ acc entity,
      e_type ←! getProp entity "type";
      key ←! ToString e_type;
      Normal (count_key acc key))
    entities ∅.

Definition legacy_getRelationshipTypeCounts (relationships : list JSValue)
  : Completion (gmap string CountVal) :=
  Array_reduce (λ acc rel,
      r_type ←! getProp rel "type";
      key ←! ToString r_type;
      Normal (count_key acc key))
    relationships ∅.

Definition typed (v : JSValue) : Prop := truthy (prop_of v "type") = true.

(** ** The cleanup of the earlier copy *)

(** [return () => { if (cyRef.current) { cyRef.current.destroy(); } }]:
    the instance is destroyed and [cyRef] keeps referring to it. *)
Definition legacy_cleanup : Eff unit :=
  r ←$ get_cyRef;
  match r with
  | Some c => cy_destroy c
  | None => ret ()
  end.

(** A payload whose relationship has a type with an own [toString]. *)
Definition env_unconvertible_type : Env :=
  env_of (payload_of sample_entities
            [JObj [("source", JStr "a"); ("target", JStr "b");
                   ("type", JObj [("toString", JNum 1)])]])
         sample_rect.

(** The sample payload drawn by an instance whose [destroy()] throws. *)
Definition env_destroy_throws : Env :=
  {| graphData := payload_of sample_entities sample_relationships;
     container := Some sample_rect; layout := "cose";
     cytoscape_throws := None; destroy_throws := Some (JStr "boom") |}.

(** * Properties *)

(** ** The [Set] model *)

Lemma Set_add_elem s x y : y ∈ Set_add s x ↔ y ∈ s ∨ y = x.
Proof.
  unfold Set_add. destruct (decide (x ∈ s)) as [Hin|Hnin].
  - split; [by left | intros [?| ->]; done].
  - rewrite elem_of_app, list_elem_of_singleton. done.
Qed.

Lemma Set_add_NoDup s x : NoDup s → NoDup (Set_add s x).
Proof.
  intros Hnd. unfold Set_add. destruct (decide (x ∈ s)) as [Hin|Hnin]; [done|].
  apply NoDup_app. split_and!; [done | | apply NoDup_singleton].
  intros y Hy Hy'. apply list_elem_of_singleton in Hy'. by subst.
Qed.

Lemma foldl_Set_add_elem l s y : y ∈ foldl Set_add s l ↔ y ∈ s ∨ y ∈ l.
Proof.
  revert s. induction l as [|x l IH]; intros s; simpl.
  - rewrite elem_of_nil. tauto.
  - rewrite IH, Set_add_elem, elem_of_cons. tauto.
Qed.

Lemma foldl_Set_add_NoDup l s : NoDup s → NoDup (foldl Set_add s l).
Proof.
  revert s. induction l as [|x l IH]; intros s Hs; simpl; [done|].
  apply IH. by apply Set_add_NoDup.
Qed.

Lemma Set_from_elem l y : y ∈ Set_from l ↔ y ∈ l.
Proof.
  unfold Set_from. rewrite foldl_Set_add_elem, elem_of_nil. tauto.
Qed.

Lemma Set_from_NoDup l : NoDup (Set_from l).
Proof. apply foldl_Set_add_NoDup, NoDup_nil_2. Qed.

Lemma Set_has_true l x : Set_has (Set_from l) x = true ↔ x ∈ l.
Proof. unfold Set_has. rewrite bool_decide_eq_true. apply Set_from_elem. Qed.

(** ** Array helpers *)

Lemma sequenceC_Normal {A} (l : list (Completion A)) (r : list A) :
  sequenceC l = Normal r ↔ l = Normal <$> r.
Proof.
  revert r. induction l as [|c l IH]; intros r; simpl.
  - split.
    + intros [= <-]. done.
    + destruct r; [done | discriminate].
  - destruct c as [a|e]; simpl.
    + destruct (sequenceC l) as [xs|e] eqn:Hs; simpl.
      * split.
        -- intros [= <-]. simpl. f_equal. by apply IH.
        -- destruct r as [|y r]; [discriminate|]. simpl. intros [= -> Hl].
           apply IH in Hl. by injection Hl as ->.
      * split; [discriminate|].
        destruct r as [|y r]; [discriminate|]. simpl. intros [= -> Hl].
        apply IH in Hl. discriminate.
    + split; [discriminate|]. destruct r; discriminate.
Qed.

Lemma Array_map_Normal {A B} (f : A → Completion B) l r :
  Array_map f l = Normal r → Forall2 (λ x y, f x = Normal y) l r.
Proof.
  unfold Array_map. rewrite sequenceC_Normal.
  revert r. induction l as [|x l IH]; intros [|y r]; simpl; try discriminate.
  - constructor.
  - intros [= Hx Hl]. constructor; [done | by apply IH].
Qed.

Lemma Array_mapi_lookup {A B} (f : A → nat → Completion B) l r :
  Array_mapi f l = Normal r →
  length r = length l ∧
  ∀ k x, l !! k = Some x → ∃ y, f x k = Normal y ∧ r !! k = Some y.
Proof.
  unfold Array_mapi. rewrite sequenceC_Normal. intros Heq. split.
  - apply (f_equal length) in Heq. rewrite length_imap, length_fmap in Heq. done.
  - intros k x Hk.
    assert (imap (λ idx x, f x idx) l !! k = Some (f x k)) as Hi.
    { rewrite list_lookup_imap, Hk. done. }
    rewrite Heq, list_lookup_fmap in Hi.
    destruct (r !! k) as [y|]; simpl in Hi; [|discriminate].
    injection Hi as Hi. eauto.
Qed.

Lemma filter_valid_spec (l : list (EdgeData * bool)) :
  filter_valid l =
    (filter (λ e, e.2 = true) l,
     (skip_warning ∘ fst) <$> filter (λ e, e.2 = false) l).
Proof.
  induction l as [|[e b] l IH]; [done|].
  cbn [filter_valid]. rewrite IH. destruct b.
  - rewrite filter_cons_True by done. rewrite filter_cons_False by done. done.
  - rewrite filter_cons_False by done. rewrite filter_cons_True by done. done.
Qed.

Lemma filter_bool_partition_length {A} (p : A → bool) (l : list A) :
  (length (filter (λ e, p e = true) l) + length (filter (λ e, p e = false) l))%nat
  = length l.
Proof.
  induction l as [|x l IH]; [done|].
  destruct (p x) eqn:Hp.
  - rewrite filter_cons_True by done. rewrite filter_cons_False by congruence.
    simpl. lia.
  - rewrite filter_cons_False by congruence. rewrite filter_cons_True by done.
    simpl. lia.
Qed.

(** ** The builder, unfolded *)

(** What a successful [build] computed, stage by stage. *)
Lemma build_Normal entities relationships m :
  build entities relationships = Normal m →
  ∃ flagged,
    build_nodes entities = Normal (nodes m) ∧
    Array_mapi (edge_of_rel (valid_node_ids (nodes m))) relationships = Normal flagged ∧
    edges m = fst <$> filter (λ e, e.2 = true) flagged ∧
    rejectedEdges m = (skip_warning ∘ fst) <$> filter (λ e, e.2 = false) flagged.
Proof.
  unfold build, build_edges.
  destruct (build_nodes entities) as [ns|?]; simpl; [|discriminate].
  destruct (Array_mapi _ relationships) as [flagged|?] eqn:Hflagged; simpl;
    [|discriminate].
  rewrite filter_valid_spec. simpl. intros [= <-]. simpl.
  exists flagged. done.
Qed.

Lemma edge_of_rel_Normal ids rel idx e b :
  edge_of_rel ids rel idx = Normal (e, b) →
  resolve_source rel = Normal (edge_source e) ∧
  resolve_target rel = Normal (edge_target e) ∧
  rel_type rel = Normal (edge_type e) ∧
  edge_label e = edge_type e ∧
  edge_id e = "edge-" +:+ pretty idx ∧
  b = Set_has ids (edge_source e) && Set_has ids (edge_target e).
Proof.
  unfold edge_of_rel.
  destruct (resolve_source rel) as [src|?]; simpl; [|discriminate].
  destruct (resolve_target rel) as [tgt|?]; simpl; [|discriminate].
  destruct (rel_type rel) as [ty|?]; simpl; [|discriminate].
  intros [= <- <-]. simpl. done.
Qed.

Lemma edge_id_inj (j k : nat) :
  "edge-" +:+ pretty j = "edge-" +:+ pretty k → j = k.
Proof. intros H. apply (inj (String.append "edge-")) in H. by apply (inj pretty) in H. Qed.

Lemma Array_mapi_lookup_inv {A B} (f : A → nat → Completion B) l r k y :
  Array_mapi f l = Normal r → r !! k = Some y →
  ∃ x, l !! k = Some x ∧ f x k = Normal y.
Proof.
  intros Hmap Hk. destruct (Array_mapi_lookup f l r Hmap) as [Hlen Hfw].
  destruct (l !! k) as [x|] eqn:Hx.
  - destruct (Hfw k x Hx) as (y' & Hy' & Hr). exists x. split; [done|]. congruence.
  - apply lookup_ge_None in Hx. apply lookup_lt_Some in Hk. lia.
Qed.

(** Each materialized edge is the image of one input relationship, found at
    the index written in its id, and was flagged valid. *)
Lemma edges_origin entities relationships m e :
  build entities relationships = Normal m → e ∈ edges m →
  ∃ k rel, relationships !! k = Some rel ∧
           edge_of_rel (valid_node_ids (nodes m)) rel k = Normal (e, true).
Proof.
  intros Hb He. destruct (build_Normal _ _ _ Hb) as (flagged & _ & Hmap & Hedges & _).
  rewrite Hedges in He. apply list_elem_of_fmap in He as ([e' b] & -> & Hin).
  apply list_elem_of_filter in Hin as [Hb' Hin]. simpl in Hb'. subst b.
  apply list_elem_of_lookup in Hin as [k Hk].
  destruct (Array_mapi_lookup_inv _ _ _ _ _ Hmap Hk) as (rel & Hrel & Hf).
  exists k, rel. done.
Qed.

(** A relationship at index [k] is kept exactly when it is flagged valid;
    otherwise its warning is in the rejection log. *)
Lemma relationship_classified entities relationships m k rel :
  build entities relationships = Normal m → relationships !! k = Some rel →
  ∃ e b, edge_of_rel (valid_node_ids (nodes m)) rel k = Normal (e, b) ∧
         (b = true → e ∈ edges m) ∧
         (b = false → skip_warning e ∈ rejectedEdges m ∧
                      ∀ e', e' ∈ edges m → edge_id e' ≠ edge_id e).
Proof.
  intros Hb Hrel.
  destruct (build_Normal _ _ _ Hb) as (flagged & _ & Hmap & Hedges & Hrej).
  destruct (Array_mapi_lookup _ _ _ Hmap) as [_ Hfw].
  destruct (Hfw k rel Hrel) as ([e b] & Hf & Hk). exists e, b. split; [done|].
  split.
  - intros ->. rewrite Hedges. apply list_elem_of_fmap. exists (e, true).
    split; [done|]. apply list_elem_of_filter. split; [done|].
    apply list_elem_of_lookup. eauto.
  - intros ->. split.
    + rewrite Hrej. apply list_elem_of_fmap. exists (e, false).
      split; [done|]. apply list_elem_of_filter. split; [done|].
      apply list_elem_of_lookup. eauto.
    + intros e' He' Hid.
      destruct (edges_origin _ _ _ _ Hb He') as (k' & rel' & Hrel' & Hf').
      destruct (edge_of_rel_Normal _ _ _ _ _ Hf) as (_ & _ & _ & _ & Hide & _).
      destruct (edge_of_rel_Normal _ _ _ _ _ Hf') as (_ & _ & _ & _ & Hide' & _).
      rewrite Hide, Hide' in Hid. apply edge_id_inj in Hid. subst k'.
      rewrite Hrel in Hrel'. injection Hrel' as <-. congruence.
Qed.

(** C1. Every edge of the built model has its resolved source and target
    among the ids of the model's own nodes, and is the unrenamed image of an
    input relationship; the nodes are exactly the images of the input
    entities (none is created for an edge); and a relationship with an
    unresolved endpoint yields no edge and is reported in the rejection
    log. *)
Theorem built_edges_reference_model_nodes entities relationships m :
  build entities relationships = Normal m →
  (∀ e, e ∈ edges m →
     (∃ n, n ∈ nodes m ∧ node_id n = edge_source e) ∧
     (∃ n, n ∈ nodes m ∧ node_id n = edge_target e) ∧
     (∃ k rel, relationships !! k = Some rel ∧
               edge_id e = "edge-" +:+ pretty k ∧
               resolve_source rel = Normal (edge_source e) ∧
               resolve_target rel = Normal (edge_target e))) ∧
  Forall2 (λ entity n, node_of_entity entity = Normal n) entities (nodes m) ∧
  (∀ k rel src tgt,
     relationships !! k = Some rel →
     resolve_source rel = Normal src →
     resolve_target rel = Normal tgt →
     ¬ (src ∈ node_id <$> nodes m ∧ tgt ∈ node_id <$> nodes m) →
     (∀ e, e ∈ edges m → edge_id e ≠ "edge-" +:+ pretty k) ∧
     mkLog LWarn ("Skipping invalid edge: " +:+ src +:+ " -> " +:+ tgt) []
       ∈ rejectedEdges m).
Proof.
  intros Hb. split_and!.
  - intros e He.
    destruct (edges_origin _ _ _ _ Hb He) as (k & rel & Hrel & Hf).
    apply edge_of_rel_Normal in Hf as (Hs & Ht & _ & _ & Hid & Hvalid).
    symmetry in Hvalid. apply andb_true_iff in Hvalid as [Hsrc Htgt].
    unfold valid_node_ids in Hsrc, Htgt.
    apply Set_has_true, list_elem_of_fmap in Hsrc as (n1 & Hn1 & Hin1).
    apply Set_has_true, list_elem_of_fmap in Htgt as (n2 & Hn2 & Hin2).
    split_and!; [by exists n1 | by exists n2 | by exists k, rel].
  - destruct (build_Normal _ _ _ Hb) as (flagged & Hnodes & _).
    by apply Array_map_Normal.
  - intros k rel src tgt Hrel Hs Ht Hunres.
    destruct (relationship_classified _ _ _ _ _ Hb Hrel) as (e & b & Hf & Hkeep & Hdrop).
    apply edge_of_rel_Normal in Hf as (Hs' & Ht' & _ & _ & Hid & Hvalid).
    rewrite Hs in Hs'. rewrite Ht in Ht'. injection Hs' as Hs'. injection Ht' as Ht'.
    assert (b = false) as Hb'.
    { destruct b; [|done]. exfalso. apply Hunres.
      symmetry in Hvalid. apply andb_true_iff in Hvalid as [Hsrc Htgt].
      unfold valid_node_ids in Hsrc, Htgt.
      apply Set_has_true in Hsrc. apply Set_has_true in Htgt. by subst. }
    destruct (Hdrop Hb') as [Hwarn Hnone]. split.
    + intros e' He'. rewrite <- Hid. by apply Hnone.
    + unfold skip_warning in Hwarn. by rewrite <- Hs', <- Ht' in Hwarn.
Qed.

(** C2. The rejected relationships and the materialized edges partition the
    input: each relationship is flagged once, the edges are the ones flagged
    valid and the rejection log the ones flagged invalid, so the two lengths
    add up to the number of input relationships. *)
Theorem rejected_plus_edges_is_relationships entities relationships m :
  build entities relationships = Normal m →
  (length (rejectedEdges m) + length (edges m))%nat = length relationships ∧
  ∃ flagged,
    Array_mapi (edge_of_rel (valid_node_ids (nodes m))) relationships = Normal flagged ∧
    length flagged = length relationships ∧
    edges m = fst <$> filter (λ e, e.2 = true) flagged ∧
    rejectedEdges m = (skip_warning ∘ fst) <$> filter (λ e, e.2 = false) flagged.
Proof.
  intros Hb. destruct (build_Normal _ _ _ Hb) as (flagged & _ & Hmap & Hedges & Hrej).
  destruct (Array_mapi_lookup _ _ _ Hmap) as [Hlen _].
  split; [|by exists flagged].
  rewrite Hedges, Hrej, !length_fmap, <- Hlen.
  rewrite Nat.add_comm. apply (filter_bool_partition_length snd).
Qed.

(** ** Values that can be read from *)

Lemma getProp_non_nullish v k : non_nullish v → getProp v k = Normal (prop_of v k).
Proof. by destruct v. Qed.

Lemma getProp_Normal v k x : getProp v k = Normal x → non_nullish v ∧ x = prop_of v k.
Proof. destruct v; simpl; intros [= <-] || discriminate; done. Qed.

Lemma ToString_stringable v : stringable v = true → ToString v = Normal (js_String v).
Proof. unfold ToString. by intros ->. Qed.

Lemma ToString_Normal v text :
  ToString v = Normal text → stringable v = true ∧ text = js_String v.
Proof. unfold ToString. destruct (stringable v); [|discriminate]. by intros [= <-]. Qed.


Lemma node_of_entity_non_nullish entity :
  non_nullish entity →
  node_of_entity entity =
    (id ←! ToString (id_value entity);
     Normal {| node_id := id;
               node_label := js_or (prop_of entity "name") (JStr "Unknown");
               node_type := js_or (prop_of entity "type") (JStr "default");
               node_properties := js_or (prop_of entity "properties") (JObj []);
               node_mentions := js_or (prop_of entity "mentions") (JNum 1) |}).
Proof.
  intros H. unfold node_of_entity, id_value. rewrite !getProp_non_nullish by done.
  simpl. by destruct (ToString _).
Qed.

Lemma node_of_entity_Normal entity n :
  node_of_entity entity = Normal n → non_nullish entity.
Proof.
  unfold node_of_entity. destruct (getProp entity "id") eqn:Hid; [|discriminate].
  intros _. by apply getProp_Normal in Hid as [? _].
Qed.

(** The fields of the node the callback returns. *)
Lemma node_of_entity_fields entity n :
  node_of_entity entity = Normal n →
  n = {| node_id := js_String (js_or (prop_of entity "id") (prop_of entity "name"));
         node_label := js_or (prop_of entity "name") (JStr "Unknown");
         node_type := js_or (prop_of entity "type") (JStr "default");
         node_properties := js_or (prop_of entity "properties") (JObj []);
         node_mentions := js_or (prop_of entity "mentions") (JNum 1) |}.
Proof.
  intros Hn. pose proof (node_of_entity_Normal _ _ Hn) as Hnn.
  rewrite node_of_entity_non_nullish in Hn by done.
  destruct (ToString (id_value entity)) as [id|] eqn:Hid; simpl in Hn; [|discriminate].
  apply ToString_Normal in Hid as [_ ->]. by injection Hn as <-.
Qed.

Lemma node_of_entity_buildable entity n :
  node_of_entity entity = Normal n → buildable_entity entity.
Proof.
  intros Hn. pose proof (node_of_entity_Normal _ _ Hn) as Hnn. split; [done|].
  rewrite node_of_entity_non_nullish in Hn by done.
  destruct (ToString (id_value entity)) as [id|] eqn:Hid; simpl in Hn; [|discriminate].
  by apply ToString_Normal in Hid as [? _].
Qed.


Lemma edge_of_rel_non_nullish ids rel idx :
  non_nullish rel →
  edge_of_rel ids rel idx =
    (source ←! ToString (source_value rel);
     target ←! ToString (target_value rel);
     Normal ({| edge_id := "edge-" +:+ pretty idx;
                edge_source := source;
                edge_target := target;
                edge_label := type_of_rel rel;
                edge_type := type_of_rel rel |},
             Set_has ids source && Set_has ids target)).
Proof.
  intros H. unfold edge_of_rel, resolve_source, resolve_target, rel_type,
    source_value, target_value, type_of_rel.
  rewrite !getProp_non_nullish by done. simpl.
  destruct (ToString _); simpl; [|done]. by destruct (ToString _).
Qed.


Lemma edge_of_rel_Normal_non_nullish ids rel idx eb :
  edge_of_rel ids rel idx = Normal eb → non_nullish rel.
Proof.
  unfold edge_of_rel, resolve_source.
  destruct (getProp rel "source") eqn:Hs; [|discriminate].
  intros _. by apply getProp_Normal in Hs as [? _].
Qed.

Lemma edge_of_rel_buildable ids rel idx eb :
  edge_of_rel ids rel idx = Normal eb → buildable_relationship rel.
Proof.
  intros He. pose proof (edge_of_rel_Normal_non_nullish _ _ _ _ He) as Hnn.
  split; [done|]. rewrite edge_of_rel_non_nullish in He by done.
  destruct (ToString (source_value rel)) as [src|] eqn:Hs; simpl in He; [|discriminate].
  destruct (ToString (target_value rel)) as [tgt|] eqn:Ht; simpl in He; [|discriminate].
  apply ToString_Normal in Hs as [? _]. by apply ToString_Normal in Ht as [? _].
Qed.

Lemma sequenceC_total {A} (l : list (Completion A)) :
  Forall (λ c, ∃ a, c = Normal a) l → ∃ r, sequenceC l = Normal r.
Proof.
  induction 1 as [|c l [a ->] _ [r IH]]; simpl; [eauto|].
  rewrite IH. simpl. eauto.
Qed.


Lemma build_Normal_buildable entities relationships m :
  build entities relationships = Normal m →
  Forall buildable_entity entities ∧ Forall buildable_relationship relationships.
Proof.
  intros Hb. destruct (build_Normal _ _ _ Hb) as (flagged & Hn & Hmap & _). split.
  - apply Array_map_Normal in Hn. apply Forall_lookup. intros k e He.
    destruct (Forall2_lookup_l _ _ _ _ _ Hn He) as (n & _ & Hen).
    by eapply node_of_entity_buildable.
  - apply Forall_lookup. intros k rel Hrel.
    destruct (Array_mapi_lookup _ _ _ Hmap) as [_ Hfw].
    destruct (Hfw k rel Hrel) as (eb & Hf & _).
    by eapply edge_of_rel_buildable.
Qed.

Lemma build_Normal_non_nullish entities relationships m :
  build entities relationships = Normal m →
  Forall non_nullish entities ∧ Forall non_nullish relationships.
Proof.
  intros Hb. destruct (build_Normal_buildable _ _ _ Hb) as [He Hr]. split.
  - eapply Forall_impl; [exact He|]. by intros e [? _].
  - eapply Forall_impl; [exact Hr|]. by intros r [? _].
Qed.

(** ** The legend counters *)

Lemma getEntityTypeCounts_Normal entities :
  Forall countable_entity entities →
  getEntityTypeCounts entities
  = Normal (foldl count_key ∅ (type_key_of_entity <$> entities)).
Proof.
  unfold getEntityTypeCounts. generalize (∅ : gmap string CountVal).
  induction entities as [|e l IH]; intros acc Hl; simpl; [done|].
  inversion Hl as [|? ? [Hnn Hs] Hl']; subst.
  rewrite getProp_non_nullish by done. simpl.
  unfold type_of_entity in Hs. rewrite ToString_stringable by done. simpl.
  by apply IH.
Qed.

Lemma getRelationshipTypeCounts_Normal relationships :
  Forall countable_relationship relationships →
  getRelationshipTypeCounts relationships
  = Normal (foldl count_key ∅ (type_key_of_rel <$> relationships)).
Proof.
  unfold getRelationshipTypeCounts. generalize (∅ : gmap string CountVal).
  induction relationships as [|e l IH]; intros acc Hl; simpl; [done|].
  inversion Hl as [|? ? [Hnn Hs] Hl']; subst. unfold rel_type at 1.
  rewrite !getProp_non_nullish by done. simpl.
  unfold type_of_rel in Hs. rewrite ToString_stringable by done. simpl.
  by apply IH.
Qed.

(** A counter that returns found every element readable and every type
    convertible. *)
Lemma getEntityTypeCounts_countable entities counts :
  getEntityTypeCounts entities = Normal counts → Forall countable_entity entities.
Proof.
  unfold getEntityTypeCounts. generalize (∅ : gmap string CountVal).
  induction entities as [|e l IH]; intros acc; simpl; [constructor|].
  destruct (getProp e "type") as [ty|] eqn:Hty; simpl; [|discriminate].
  apply getProp_Normal in Hty as [Hnn ->].
  destruct (ToString _) as [key|] eqn:Hkey; simpl; [|discriminate].
  apply ToString_Normal in Hkey as [Hs _].
  intros Hrest. constructor; [by split|]. by eapply IH.
Qed.

Lemma getRelationshipTypeCounts_countable relationships counts :
  getRelationshipTypeCounts relationships = Normal counts →
  Forall countable_relationship relationships.
Proof.
  unfold getRelationshipTypeCounts. generalize (∅ : gmap string CountVal).
  induction relationships as [|e l IH]; intros acc; simpl; [constructor|].
  unfold rel_type at 1.
  destruct (getProp e "type") as [ty|] eqn:Hty; simpl; [|discriminate].
  apply getProp_Normal in Hty as [Hnn ->].
  rewrite getProp_non_nullish by done. simpl.
  destruct (ToString _) as [key|] eqn:Hkey; simpl; [|discriminate].
  apply ToString_Normal in Hkey as [Hs _].
  intros Hrest. constructor; [by split|]. by eapply IH.
Qed.

Lemma legend_counts_Normal entities relationships :
  Forall countable_entity entities → Forall countable_relationship relationships →
  legend_counts entities relationships
  = Normal (foldl count_key ∅ (type_key_of_entity <$> entities),
            foldl count_key ∅ (type_key_of_rel <$> relationships)).
Proof.
  intros He Hr. unfold legend_counts.
  by rewrite getEntityTypeCounts_Normal, getRelationshipTypeCounts_Normal.
Qed.

Lemma legend_counts_countable entities relationships counts :
  legend_counts entities relationships = Normal counts →
  Forall countable_entity entities ∧ Forall countable_relationship relationships.
Proof.
  unfold legend_counts.
  destruct (getEntityTypeCounts entities) as [ce|] eqn:He; simpl; [|discriminate].
  destruct (getRelationshipTypeCounts relationships) as [cr|] eqn:Hr; simpl;
    [|discriminate].
  intros _. split.
  - by eapply getEntityTypeCounts_countable.
  - by eapply getRelationshipTypeCounts_countable.
Qed.

Lemma count_total_step_comm (z1 z2 : CountVal) (y : nat) :
  match z1 with
  | CNum n => (n + match z2 with CNum n' => (n' + y)%nat | CText => y end)%nat
  | CText => match z2 with CNum n' => (n' + y)%nat | CText => y end
  end =
  match z2 with
  | CNum n' => (n' + match z1 with CNum n => (n + y)%nat | CText => y end)%nat
  | CText => match z1 with CNum n => (n + y)%nat | CText => y end
  end.
Proof. destruct z1, z2; lia. Qed.

Lemma count_total_insert_fresh acc k n :
  acc !! k = None → count_total (<[k := CNum n]> acc) = (n + count_total acc)%nat.
Proof.
  intros H. unfold count_total. rewrite map_fold_insert_L; [done| |done].
  intros j1 j2 z1 z2 y _ _ _. apply count_total_step_comm.
Qed.

Lemma count_total_lookup acc k n :
  acc !! k = Some (CNum n) → count_total acc = (n + count_total (delete k acc))%nat.
Proof.
  intros H. unfold count_total.
  rewrite (map_fold_delete_L _ _ k (CNum n) acc); [done| |done].
  intros j1 j2 z1 z2 y _ _ _. apply count_total_step_comm.
Qed.

(** Counting a key that no plain object inherits adds one to the total. *)
Lemma count_total_count_key acc key :
  key ∉ objectPrototypeKeys → all_counts acc →
  count_total (count_key acc key) = S (count_total acc) ∧ all_counts (count_key acc key).
Proof.
  intros Hkey Hacc. unfold count_key.
  destruct (acc !! key) as [[n|]|] eqn:Hl.
  - split.
    + rewrite <- insert_delete_eq. rewrite count_total_insert_fresh
        by apply lookup_delete_eq.
      rewrite (count_total_lookup acc key n) by done. lia.
    + intros k. destruct (decide (key = k)) as [->|Hne].
      * rewrite lookup_insert_eq. discriminate.
      * rewrite lookup_insert_ne by done. apply Hacc.
  - by destruct (Hacc key).
  - rewrite bool_decide_eq_false_2 by done. split.
    + by rewrite count_total_insert_fresh.
    + intros k. destruct (decide (key = k)) as [->|Hne].
      * rewrite lookup_insert_eq. discriminate.
      * rewrite lookup_insert_ne by done. apply Hacc.
Qed.

Lemma count_total_foldl keys acc :
  Forall (λ k, k ∉ objectPrototypeKeys) keys → all_counts acc →
  count_total (foldl count_key acc keys) = (count_total acc + length keys)%nat.
Proof.
  intros H. revert acc. induction H as [|k keys Hk _ IH]; intros acc Hacc; simpl.
  - lia.
  - destruct (count_total_count_key acc k Hk Hacc) as [Hs Hc].
    rewrite IH by done. lia.
Qed.

Lemma count_total_empty : count_total ∅ = 0%nat.
Proof. unfold count_total. apply map_fold_empty. Qed.

Lemma all_counts_empty : all_counts ∅.
Proof. intros k. by rewrite lookup_empty. Qed.

(** ** The effect, path by path *)

Lemma build_stages entities relationships m :
  build entities relationships = Normal m →
  build_nodes entities = Normal (nodes m) ∧
  build_edges (valid_node_ids (nodes m)) relationships
    = Normal (edges m, rejectedEdges m).
Proof.
  unfold build. destruct (build_nodes entities) as [ns|?]; simpl; [|discriminate].
  destruct (build_edges (valid_node_ids ns) relationships) as [[es warns]|?] eqn:He;
    simpl; [|discriminate].
  intros [= <-]. simpl. done.
Qed.

Lemma render_zero_extent env rect entities relationships m s :
  build entities relationships = Normal m →
  zero_extent rect = true →
  render env rect (JArr entities) (JArr relationships) s
  = (Normal NoCleanup,
     {| cyRef := cyRef s; instances := instances s;
        console := console s ++ render_log rect m ++ [zero_dimensions_error];
        stats := stats s; timers := timers s |}).
Proof.
  intros Hb Hz. destruct (build_stages _ _ _ Hb) as [Hn He].
  unfold render, bind, liftC. simpl. rewrite Hn, He.
  unfold zero_extent in Hz. rewrite Hz. unfold render_log.
  simpl. destruct (head (edges m)); simpl; do 2 f_equal;
    by rewrite <- ?app_assoc.
Qed.

Lemma render_creates env rect entities relationships m s :
  build entities relationships = Normal m →
  zero_extent rect = false →
  cytoscape_throws env = None →
  render env rect (JArr entities) (JArr relationships) s
  = (Normal ReturnsCleanup,
     {| cyRef := Some (length (instances s));
        instances := instances s ++ [new_instance env m];
        console := console s ++ render_log rect m ++ [created_log]
                   ++ legend_error entities relationships;
        stats := match legend_counts entities relationships with
                 | Normal counts =>
                     Some {| stats_nodes := length (nodes m);
                             stats_edges := length (edges m);
                             stats_entityTypes := counts.1;
                             stats_relationshipTypes := counts.2 |}
                 | Throw _ => stats s
                 end;
        timers := timers s ++
                  match legend_counts entities relationships with
                  | Normal _ => [{| timer_delay := 100;
                                    timer_session := length (instances s) |}]
                  | Throw _ => []
                  end |}).
Proof.
  intros Hb Hz Hlib. destruct (build_stages _ _ _ Hb) as [Hn He].
  unfold render, bind, liftC. simpl. rewrite Hn, He.
  unfold zero_extent in Hz. rewrite Hz.
  unfold create_instance, try_catch, bind, cytoscape, liftC. rewrite Hlib. simpl.
  unfold legend_error, legend_counts, render_log, new_instance, created_log.
  destruct (getEntityTypeCounts entities) as [ce|?]; simpl;
    [destruct (getRelationshipTypeCounts relationships) as [cr|?]; simpl|];
    destruct (head (edges m)); simpl; do 2 f_equal;
    rewrite <- ?app_assoc, ?app_nil_r; done.
Qed.

(** The same when the legend counters return. *)
Lemma render_creates_legend env rect entities relationships m s :
  build entities relationships = Normal m →
  zero_extent rect = false →
  cytoscape_throws env = None →
  Forall countable_entity entities →
  Forall countable_relationship relationships →
  render env rect (JArr entities) (JArr relationships) s
  = (Normal ReturnsCleanup,
     {| cyRef := Some (length (instances s));
        instances := instances s ++ [new_instance env m];
        console := console s ++ render_log rect m ++ [created_log];
        stats := Some (stats_of entities relationships m);
        timers := timers s ++ [{| timer_delay := 100;
                                  timer_session := length (instances s) |}] |}).
Proof.
  intros Hb Hz Hlib Hce Hcr.
  rewrite (render_creates env rect entities relationships m) by done.
  unfold legend_error. rewrite legend_counts_Normal by done.
  by rewrite app_nil_r.
Qed.

Lemma render_library_throws env rect entities relationships m s err :
  build entities relationships = Normal m →
  zero_extent rect = false →
  cytoscape_throws env = Some err →
  render env rect (JArr entities) (JArr relationships) s
  = (Normal ReturnsCleanup,
     {| cyRef := cyRef s; instances := instances s;
        console := console s ++ render_log rect m
                   ++ [mkLog LError "Error creating cytoscape graph:" [err]];
        stats := stats s; timers := timers s |}).
Proof.
  intros Hb Hz Hlib. destruct (build_stages _ _ _ Hb) as [Hn He].
  unfold render, bind, liftC. simpl. rewrite Hn, He.
  unfold zero_extent in Hz. rewrite Hz.
  unfold create_instance, try_catch, bind, cytoscape, liftC. rewrite Hlib. simpl.
  unfold render_log.
  simpl. destruct (head (edges m)); simpl; do 2 f_equal;
    by rewrite <- ?app_assoc.
Qed.

(** ** Sessions: which instances are live, and who refers to them *)

Lemma quiescent_invariant s : quiescent s → session_invariant s.
Proof.
  intros [Href Hall]. split.
  - intros c i Hi Hlive. rewrite (Hall c i Hi) in Hlive. discriminate.
  - intros c Hc. congruence.
Qed.

Lemma elem_of_live_sessions s c :
  c ∈ live_sessions s ↔ ∃ i, instances s !! c = Some i ∧ cy_destroyed i = false.
Proof.
  unfold live_sessions. rewrite list_elem_of_filter, elem_of_seq. split.
  - intros [Hd _]. destruct (instances s !! c) as [i|]; simpl in Hd; [|discriminate].
    exists i. split; [done|]. congruence.
  - intros (i & Hi & Hd). rewrite Hi. simpl. split; [by rewrite Hd|].
    apply lookup_lt_Some in Hi. lia.
Qed.

Lemma NoDup_live_sessions s : NoDup (live_sessions s).
Proof. unfold live_sessions. apply NoDup_filter, NoDup_seq. Qed.

Lemma NoDup_all_equal (l : list nat) c :
  NoDup l → (∀ x, x ∈ l → x = c) → l = [] ∨ l = [c].
Proof.
  intros Hnd Hall. destruct l as [|x [|y l]]; [by left| |].
  - right. f_equal. apply Hall. by left.
  - exfalso. assert (x = c) by (apply Hall; set_solver).
    assert (y = c) by (apply Hall; set_solver). subst.
    apply NoDup_cons in Hnd as [Hnin _]. apply Hnin. by left.
Qed.

Lemma live_sessions_quiescent s : quiescent s → live_sessions s = [].
Proof.
  intros [_ Hall]. destruct (live_sessions s) as [|c l] eqn:Hl; [done|].
  assert (c ∈ live_sessions s) as Hc by (rewrite Hl; by left).
  apply elem_of_live_sessions in Hc as (i & Hi & Hd).
  rewrite (Hall c i Hi) in Hd. discriminate.
Qed.

Lemma live_sessions_invariant s :
  session_invariant s →
  live_sessions s = match cyRef s with Some c => [c] | None => [] end.
Proof.
  intros [Hown Hlive]. destruct (cyRef s) as [c|] eqn:Href.
  - destruct (NoDup_all_equal (live_sessions s) c (NoDup_live_sessions s)) as [Hl|Hl].
    + intros x Hx. apply elem_of_live_sessions in Hx as (i & Hi & Hd).
      specialize (Hown x i Hi Hd). congruence.
    + exfalso. destruct (Hlive c Href) as (i & Hi & Hd).
      assert (c ∈ live_sessions s) as Hc by (apply elem_of_live_sessions; eauto).
      rewrite Hl in Hc. by apply elem_of_nil in Hc.
    + done.
  - destruct (live_sessions s) as [|c l] eqn:Hl; [done|].
    assert (c ∈ live_sessions s) as Hc by (rewrite Hl; by left).
    apply elem_of_live_sessions in Hc as (i & Hi & Hd).
    specialize (Hown c i Hi Hd). congruence.
Qed.

(** *** The primitive steps *)

Lemma destroy_previous_spec s :
  destroy_previous s =
  (Normal (),
   match cyRef s with
   | Some c =>
       {| cyRef := None; instances := alter mark_destroyed c (instances s);
          console := console s
            ++ mkLog LLog "Destroying previous cytoscape instance" []
               :: destroy_warning "Error destroying previous instance:"
                    (destroy_failure c s);
          stats := stats s; timers := timers s |}
   | None => s
   end).
Proof.
  unfold destroy_previous, bind, get_cyRef. simpl. destruct (cyRef s) as [c|]; [|done].
  unfold try_catch, cy_destroy, destroy_failure. simpl.
  destruct (instances s !! c ≫= cy_destroy_throws); simpl; [|done].
  by rewrite <- app_assoc.
Qed.

Lemma cleanup_spec s :
  cleanup s =
  (Normal (),
   {| cyRef := None;
      instances := match cyRef s with
                   | Some c => alter mark_destroyed c (instances s)
                   | None => instances s
                   end;
      console := console s
        ++ mkLog LLog "Cleanup: destroying cytoscape instance" []
           :: match cyRef s with
              | Some c => destroy_warning "Error during cleanup:" (destroy_failure c s)
              | None => []
              end;
      stats := stats s; timers := timers s |}).
Proof.
  unfold cleanup, bind, get_cyRef. simpl. destruct (cyRef s) as [c|] eqn:Href; simpl.
  - unfold try_catch, cy_destroy, destroy_failure. simpl.
    destruct (instances s !! c ≫= cy_destroy_throws); simpl; [|done].
    by rewrite <- app_assoc.
  - unfold ret. by rewrite <- Href.
Qed.

Lemma destroyed_all_quiescent s c0 :
  owns_all_live s →
  ∀ c i, alter mark_destroyed c0 (instances s) !! c = Some i →
         cyRef s = Some c0 → cy_destroyed i = true.
Proof.
  intros Hown c i Hi Href. destruct (decide (c0 = c)) as [->|Hne].
  - rewrite list_lookup_alter_eq in Hi.
    destruct (instances s !! c); simpl in Hi; [|discriminate].
    by injection Hi as <-.
  - rewrite list_lookup_alter_ne in Hi by done.
    destruct (cy_destroyed i) eqn:Hd; [done|].
    specialize (Hown c i Hi Hd). congruence.
Qed.

Lemma destroy_previous_quiescent s :
  session_invariant s → quiescent (destroy_previous s).2.
Proof.
  intros [Hown Hlive]. rewrite destroy_previous_spec. simpl.
  destruct (cyRef s) as [c0|] eqn:Href; simpl.
  - split; [done|]. intros c i Hi. by eapply destroyed_all_quiescent.
  - split; [done|]. intros c i Hi. destruct (cy_destroyed i) eqn:Hd; [done|].
    specialize (Hown c i Hi Hd). congruence.
Qed.

Lemma cleanup_quiescent s : session_invariant s → quiescent (cleanup s).2.
Proof.
  intros [Hown Hlive]. rewrite cleanup_spec. simpl.
  destruct (cyRef s) as [c0|] eqn:Href; simpl.
  - split; [done|]. intros c i Hi. by eapply destroyed_all_quiescent.
  - split; [done|]. simpl. intros c i Hi. destruct (cy_destroyed i) eqn:Hd; [done|].
    specialize (Hown c i Hi Hd). congruence.
Qed.

(** Whatever path [render] takes, it either leaves the sessions alone or
    creates exactly one instance and stores it in [cyRef]. *)
Lemma render_sessions env rect entities relationships s :
  same_sessions s (render env rect entities relationships s).2 ∨
  one_created s (render env rect entities relationships s).2.
Proof.
  unfold render, bind, liftC. simpl.
  destruct (build_nodes (array_items entities)) as [ns|?]; simpl;
    [|by left].
  destruct (build_edges (valid_node_ids ns) (array_items relationships))
    as [[es warns]|?]; simpl; [|by left].
  destruct (head es); simpl;
    (destruct ((rect_width rect =? 0) || (rect_height rect =? 0)); simpl;
     [by left|]);
    unfold create_instance, try_catch, bind, cytoscape, liftC;
    (destruct (cytoscape_throws env); simpl; [by left|]);
    (destruct (getEntityTypeCounts _); simpl;
     [|right; split; [done|eexists; split; done]]);
    (destruct (getRelationshipTypeCounts _); simpl;
     right; split; [done|eexists; split; done| done | eexists; split; done]).
Qed.

Ltac eff_step :=
  cbv beta iota delta [bind liftC console_log console_error console_emit ret].

Arguments render : simpl never.
Arguments destroy_previous : simpl never.

Lemma useEffect_body_valid env rect entities relationships s :
  container env = Some rect →
  prop_of (graphData env) "entities" = JArr entities →
  prop_of (graphData env) "relationships" = JArr relationships →
  useEffect_body env s
  = render env rect (JArr entities) (JArr relationships)
      (destroy_previous
         (console_log "Creating graph with data:" [graphData env] s).2).2.
Proof.
  intros Hc He Hr. unfold useEffect_body. rewrite Hc.
  destruct (graphData env) as [| | | | | |props] eqn:Hgd; try discriminate.
  simpl in He, Hr. cbn [truthy getProp]. eff_step. rewrite He. cbn. rewrite Hr. cbn.
  rewrite destroy_previous_spec. done.
Qed.

(** The effect either leaves the sessions alone, or first reaches a state
    with the previous instance destroyed and then behaves as [render]. *)
Lemma useEffect_body_sessions env s :
  same_sessions s (useEffect_body env s).2 ∨
  ∃ s1, same_sessions (destroy_previous s).2 s1 ∧
        (same_sessions s1 (useEffect_body env s).2 ∨
         one_created s1 (useEffect_body env s).2).
Proof.
  unfold useEffect_body.
  destruct (truthy (graphData env)) eqn:Ht; [|by left].
  destruct (container env) as [rect|]; [|by left].
  eff_step.
  destruct (getProp (graphData env) "entities") as [entities|?];
    [|left; split; reflexivity].
  destruct (negb (truthy entities) || negb (Array_isArray entities));
    [left; split; reflexivity|].
  destruct (getProp (graphData env) "relationships") as [relationships|?];
    [|left; split; reflexivity].
  destruct (negb (truthy relationships) || negb (Array_isArray relationships));
    [left; split; reflexivity|].
  right. rewrite !destroy_previous_spec. cbv iota.
  eexists. split; [|apply render_sessions].
  simpl. destruct (cyRef s) eqn:Href; split; simpl; congruence.
Qed.

Lemma fire_timer_spec k s :
  fire_timer k s =
  (Normal (),
   match timers s !! k with
   | Some _ =>
       {| cyRef := cyRef s;
          instances := match cyRef s with
                       | Some c => alter (add_fit 50) c (instances s)
                       | None => instances s
                       end;
          console := console s; stats := stats s; timers := delete k (timers s) |}
   | None => s
   end).
Proof.
  unfold fire_timer. destruct (timers s !! k); [|done].
  unfold deferred_fit, bind, get_cyRef. simpl. by destruct (cyRef s).
Qed.

(** *** The invariant is kept by every event *)

Lemma same_sessions_invariant s s' :
  same_sessions s s' → session_invariant s → session_invariant s'.
Proof.
  intros [Href Hinst] [Hown Hlive]. split.
  - intros c i. rewrite Hinst, Href. apply Hown.
  - intros c. rewrite Hinst, Href. apply Hlive.
Qed.

Lemma same_sessions_quiescent s s' :
  same_sessions s s' → quiescent s → quiescent s'.
Proof. intros [Href Hinst] [Hnone Hall]. split; [congruence|]. by rewrite Hinst. Qed.

Lemma one_created_invariant s s' :
  one_created s s' → quiescent s → session_invariant s'.
Proof.
  intros [Href (i & Hinst & Hd)] [_ Hall]. split.
  - intros c j Hj Hlive. rewrite Hinst in Hj. rewrite Href.
    apply lookup_app_Some in Hj as [Hj|[Hge Hj]].
    + rewrite (Hall c j Hj) in Hlive. discriminate.
    + apply list_lookup_singleton_Some in Hj as [Hz _]. f_equal. lia.
  - intros c Hc. rewrite Href in Hc. injection Hc as <-. exists i. split; [|done].
    rewrite Hinst. by apply list_lookup_middle.
Qed.

Lemma step_invariant s ev : session_invariant s → session_invariant (step s ev).
Proof.
  intros Hinv. destruct ev as [env| |k]; simpl.
  - destruct (useEffect_body_sessions env s) as [Hsame|(s1 & Hs1 & [Hsame|Hnew])].
    + by eapply same_sessions_invariant.
    + eapply same_sessions_invariant; [exact Hsame|]. apply quiescent_invariant.
      eapply same_sessions_quiescent; [exact Hs1|]. by apply destroy_previous_quiescent.
    + eapply one_created_invariant; [exact Hnew|].
      eapply same_sessions_quiescent; [exact Hs1|]. by apply destroy_previous_quiescent.
  - by apply quiescent_invariant, cleanup_quiescent.
  - rewrite fire_timer_spec. simpl. destruct (timers s !! k); [|done].
    destruct Hinv as [Hown Hlive]. destruct (cyRef s) as [c0|] eqn:Href.
    + split.
      * intros c i Hi Hd. simpl in *. destruct (decide (c0 = c)) as [->|Hne]; [done|].
        rewrite list_lookup_alter_ne in Hi by done.
        specialize (Hown c i Hi Hd). congruence.
      * intros c Hc. simpl in *. injection Hc as <-.
        destruct (Hlive c0 Href) as (i & Hi & Hd). exists (add_fit 50 i).
        rewrite list_lookup_alter_eq, Hi. done.
    + split.
      * intros c i Hi Hd. simpl in *. specialize (Hown c i Hi Hd). congruence.
      * intros c Hc. simpl in *. congruence.
Qed.

Lemma initial_state_invariant : session_invariant initial_state.
Proof. apply quiescent_invariant. split; [done|]. intros c i Hi. done. Qed.

Lemma run_invariant evs s : session_invariant s → session_invariant (run evs s).
Proof.
  revert s. induction evs as [|ev evs IH]; intros s Hs; simpl; [done|].
  apply IH. by apply step_invariant.
Qed.

Lemma destroy_previous_length s :
  length (instances (destroy_previous s).2) = length (instances s).
Proof.
  rewrite destroy_previous_spec. simpl. destruct (cyRef s); simpl; [|done].
  apply length_alter.
Qed.

Lemma console_log_sessions text args s :
  same_sessions s (console_log text args s).2.
Proof. by split. Qed.

(** C3. Mounting destroys the previous instance before creating the new one:
    the effect is [render] run on the state that [destroy_previous] leaves,
    in which no session is live; after a successful mount exactly the new
    session is live; whatever the sequence of effect runs, cleanups and
    timer firings, at most one session is live; and the cleanup always
    returns normally, leaves no session referred to, and changes no instance
    when none was referred to, as does the destroy step of the next mount. *)
Theorem mount_destroys_previous_session evs env rect entities relationships m :
  container env = Some rect →
  prop_of (graphData env) "entities" = JArr entities →
  prop_of (graphData env) "relationships" = JArr relationships →
  build entities relationships = Normal m →
  zero_extent rect = false →
  cytoscape_throws env = None →
  let s := run evs initial_state in
  let s_destroyed :=
    (destroy_previous
       (console_log "Creating graph with data:" [graphData env] s).2).2 in
  useEffect_body env s
    = render env rect (JArr entities) (JArr relationships) s_destroyed ∧
  live_sessions s_destroyed = [] ∧
  live_sessions (step s (RunEffect env)) = [length (instances s)] ∧
  live_sessions (step s RunCleanup) = [] ∧
  (∀ evs', (length (live_sessions (run evs' initial_state)) ≤ 1)%nat) ∧
  (∀ s0, (cleanup s0).1 = Normal () ∧
         cyRef (cleanup s0).2 = None ∧
         (cyRef s0 = None → instances (cleanup s0).2 = instances s0) ∧
         (cyRef s0 = None → destroy_previous s0 = (Normal (), s0))).
Proof.
  intros Hc He Hr Hb Hz Hlib s s_destroyed.
  assert (session_invariant s) as Hinv
    by apply run_invariant, initial_state_invariant.
  assert (quiescent s_destroyed) as Hq.
  { apply destroy_previous_quiescent.
    eapply same_sessions_invariant; [apply console_log_sessions|done]. }
  assert (useEffect_body env s
          = render env rect (JArr entities) (JArr relationships) s_destroyed) as Heq
    by by apply useEffect_body_valid.
  split_and!.
  - done.
  - by apply live_sessions_quiescent.
  - simpl. rewrite Heq.
    rewrite (render_creates env rect entities relationships m) by done.
    rewrite live_sessions_invariant.
    + simpl. f_equal. unfold s_destroyed. by rewrite destroy_previous_length.
    + rewrite <- (render_creates env rect entities relationships m s_destroyed) by done.
      destruct (render_sessions env rect (JArr entities) (JArr relationships) s_destroyed)
        as [Hsame|Hnew].
      * eapply same_sessions_invariant; [exact Hsame|]. by apply quiescent_invariant.
      * by eapply one_created_invariant.
  - simpl. apply live_sessions_quiescent. by apply cleanup_quiescent.
  - intros evs'.
    rewrite live_sessions_invariant by apply run_invariant, initial_state_invariant.
    destruct (cyRef _); simpl; lia.
  - intros s0. rewrite cleanup_spec, destroy_previous_spec. simpl.
    split_and!; [done..| |]; by intros ->.
Qed.

(** ** The container check *)

Lemma render_log_no_error rect entities relationships m :
  build entities relationships = Normal m →
  Forall (λ e, log_level e ≠ LError) (render_log rect m).
Proof.
  intros Hb. destruct (build_Normal _ _ _ Hb) as (flagged & _ & _ & _ & Hrej).
  unfold render_log. rewrite !Forall_app. split_and!.
  - by repeat constructor.
  - rewrite Hrej. apply Forall_fmap, Forall_forall. intros x _. done.
  - by repeat constructor.
  - destruct (head (edges m)); by repeat constructor.
  - by repeat constructor.
Qed.

Arguments render_log : simpl never.

Lemma destroy_warning_no_error text failure :
  Forall (λ e, log_level e ≠ LError) (destroy_warning text failure).
Proof. destruct failure; by repeat constructor. Qed.

(** C8. With a model built and a container of zero width or zero height,
    the effect returns before the renderer is constructed: no instance is
    created, none is referred to, and the last thing printed is the
    zero-dimension error, the only error of the run and none of the data
    errors.  With a container of nonzero width and height the check passes:
    nothing is reported and the constructor is called, which creates the
    instance whenever the library does not throw. *)
Theorem zero_extent_container_is_reported s env rect entities relationships m :
  container env = Some rect →
  prop_of (graphData env) "entities" = JArr entities →
  prop_of (graphData env) "relationships" = JArr relationships →
  build entities relationships = Normal m →
  let r := useEffect_body env s in
  (zero_extent rect = true →
     r.1 = Normal NoCleanup ∧
     length (instances r.2) = length (instances s) ∧
     cyRef r.2 = None ∧
     (∃ pre, console r.2 = console s ++ pre ++ [zero_dimensions_error] ∧
             Forall (λ e, log_level e ≠ LError) pre) ∧
     log_text zero_dimensions_error ∉ data_error_texts) ∧
  (zero_extent rect = false →
     r.1 = Normal ReturnsCleanup ∧
     (∃ pre post, console r.2 = console s ++ pre ++ [post] ∧
                  Forall (λ e, log_level e ≠ LError) pre ∧
                  post ≠ zero_dimensions_error) ∧
     (cytoscape_throws env = None →
        cyRef r.2 = Some (length (instances s)) ∧
        instances r.2 !! length (instances s) = Some (new_instance env m))).
Proof.
  intros Hc He Hr Hb r. unfold r.
  rewrite (useEffect_body_valid env rect entities relationships) by done.
  set (s1 := (destroy_previous _).2).
  assert (cyRef s1 = None) as Href.
  { unfold s1. rewrite destroy_previous_spec. simpl. by destruct (cyRef s) eqn:H. }
  assert (length (instances s1) = length (instances s)) as Hlen.
  { unfold s1. by rewrite destroy_previous_length. }
  assert (∃ pre, console s1 = console s ++ pre ∧ Forall (λ e, log_level e ≠ LError) pre)
    as (pre & Hcons & Hpre).
  { unfold s1. rewrite destroy_previous_spec. simpl. destruct (cyRef s); simpl.
    - eexists. rewrite <- app_assoc. split; [done|].
      repeat (apply Forall_cons; split; [done|]). apply destroy_warning_no_error.
    - eexists. split; [done|]. repeat constructor; done. }
  pose proof (render_log_no_error rect _ _ _ Hb) as Hlog.
  split.
  - intros Hz. rewrite (render_zero_extent env rect entities relationships m) by done.
    cbn. split_and!; [done..| |].
    + exists (pre ++ render_log rect m). rewrite Hcons, <- !app_assoc.
      split; [done|]. by apply Forall_app.
    + unfold data_error_texts. rewrite !not_elem_of_cons.
      split_and!; [done..|apply not_elem_of_nil].
  - intros Hz. destruct (cytoscape_throws env) as [err|] eqn:Hlib.
    + rewrite (render_library_throws env rect entities relationships m _ err) by done.
      cbn. split_and!; [done| |done].
      eexists (pre ++ render_log rect m), _. rewrite Hcons, <- !app_assoc.
      split_and!; [done| by apply Forall_app | done].
    + rewrite (render_creates env rect entities relationships m) by done.
      cbn. split_and!; [done| |].
      * unfold legend_error.
        destruct (legend_counts entities relationships) as [counts|err].
        -- eexists (pre ++ render_log rect m), created_log.
           rewrite Hcons, <- !app_assoc.
           split_and!; [done| by apply Forall_app | done].
        -- eexists (pre ++ render_log rect m ++ [created_log]), _.
           rewrite Hcons, <- !app_assoc.
           split_and!; [done| |done].
           apply Forall_app; split; [done|]. apply Forall_app; split; [done|].
           by repeat constructor.
      * intros _. rewrite Hlen. split; [done|].
        rewrite <- Hlen. by apply list_lookup_middle.
Qed.

(** ** Example payloads *)

Example build_sample : build sample_entities sample_relationships = Normal sample_model.
Proof. reflexivity. Qed.

(** With no entities every relationship is rejected. *)
Example build_no_entities :
  build [] sample_relationships
  = Normal {| nodes := []; edges := [];
              rejectedEdges := [ mkLog LWarn "Skipping invalid edge: a -> b" [];
                                 mkLog LWarn "Skipping invalid edge: a -> zzz" [] ] |}.
Proof. reflexivity. Qed.

(** A [null] entity makes the [map] callback throw. *)
Example build_null_entity : build [JNull] [] = Throw (TypeError "id").
Proof. reflexivity. Qed.

(** Without an [entities] array nothing is built and no instance is made. *)
Example effect_without_entities :
  useEffect_body (env_of (JObj [("relationships", JArr [])]) sample_rect) initial_state
  = (Normal NoCleanup,
     {| cyRef := None; instances := [];
        console := [ mkLog LLog "Creating graph with data:"
                           [JObj [("relationships", JArr [])]];
                     mkLog LError "Invalid graphData.entities:" [JUndefined] ];
        stats := None; timers := [] |}).
Proof. reflexivity. Qed.

Lemma built_edges_reference_model_nodes_witness :
  build sample_entities sample_relationships = Normal sample_model ∧
  ∀ e, e ∈ edges sample_model →
       (∃ n, n ∈ nodes sample_model ∧ node_id n = edge_source e) ∧
       (∃ n, n ∈ nodes sample_model ∧ node_id n = edge_target e).
Proof.
  split; [reflexivity|]. intros e He.
  destruct (built_edges_reference_model_nodes
              sample_entities sample_relationships sample_model eq_refl)
    as [Hedges _].
  destruct (Hedges e He) as (Hs & Ht & _). split; assumption.
Defined.

Lemma rejected_plus_edges_is_relationships_witness :
  build sample_entities sample_relationships = Normal sample_model ∧
  (length (rejectedEdges sample_model) + length (edges sample_model))%nat
  = length sample_relationships.
Proof.
  split; [reflexivity|].
  exact (proj1 (rejected_plus_edges_is_relationships
                  sample_entities sample_relationships sample_model eq_refl)).
Defined.

Lemma mount_destroys_previous_session_witness :
  container sample_env = Some sample_rect ∧
  build sample_entities sample_relationships = Normal sample_model ∧
  zero_extent sample_rect = false ∧
  live_sessions (step (run [RunEffect sample_env] initial_state) (RunEffect sample_env))
  = [1%nat].
Proof.
  split_and!; [reflexivity..|].
  exact (proj1 (proj2 (proj2
    (mount_destroys_previous_session [RunEffect sample_env] sample_env sample_rect
       sample_entities sample_relationships sample_model
       eq_refl eq_refl eq_refl eq_refl eq_refl eq_refl)))).
Defined.

Lemma zero_extent_container_is_reported_witness :
  container (env_of (payload_of sample_entities sample_relationships) flat_rect)
    = Some flat_rect ∧
  build sample_entities sample_relationships = Normal sample_model ∧
  zero_extent flat_rect = true ∧
  (useEffect_body (env_of (payload_of sample_entities sample_relationships) flat_rect)
     initial_state).1 = Normal NoCleanup.
Proof.
  split_and!; [reflexivity..|].
  exact (proj1 (proj1
    (zero_extent_container_is_reported initial_state
       (env_of (payload_of sample_entities sample_relationships) flat_rect) flat_rect
       sample_entities sample_relationships sample_model
       eq_refl eq_refl eq_refl eq_refl) eq_refl)).
Defined.

(** ** Export *)

(** The JSON export of the sample payload is the text of the raw payload,
    rejected relationship included, and is not the text of the validated
    model. *)
Lemma export_json_is_not_validated_model :
  build sample_entities sample_relationships = Normal sample_model ∧
  exportGraph "json" (graphData sample_env) mounted_state
    = Some {| download_name := "knowledge-graph.json";
              download_content := JsonBlob sample_export_text |} ∧
  JSON_stringify (payload_of sample_entities sample_relationships)
    = Some sample_export_text ∧
  JSON_stringify (model_document sample_model) ≠ Some sample_export_text ∧
  JSON_stringify (JArr sample_relationships)
    ≠ JSON_stringify (JArr (edge_to_js <$> edges sample_model)).
Proof.
  split_and!; [reflexivity..| |]; intros H; vm_compute in H; discriminate H.
Qed.

(** C4 (amended). While an instance is referred to, the JSON export saves
    the serialization of the [graphData] prop, the payload as received; the
    text does not depend on the component state, hence not on the built
    model or the instance.  While none is referred to nothing is exported. *)
Theorem export_json_serializes_raw_payload gd s c :
  cyRef s = Some c →
  exportGraph "json" gd s
    = Some {| download_name := "knowledge-graph.json";
              download_content := JsonBlob (default "undefined" (JSON_stringify gd)) |} ∧
  (∀ s', is_Some (cyRef s') → exportGraph "json" gd s' = exportGraph "json" gd s) ∧
  (∀ format s', cyRef s' = None → exportGraph format gd s' = None).
Proof.
  intros Href. unfold exportGraph. rewrite Href. simpl. split_and!.
  - done.
  - intros s' [c' ->]. done.
  - intros format s' ->. done.
Qed.

Lemma export_json_serializes_raw_payload_witness :
  cyRef mounted_state = Some 0%nat ∧
  exportGraph "json" (graphData sample_env) mounted_state
    = Some {| download_name := "knowledge-graph.json";
              download_content :=
                JsonBlob (default "undefined" (JSON_stringify (graphData sample_env))) |}.
Proof.
  split; [reflexivity|].
  exact (proj1 (export_json_serializes_raw_payload (graphData sample_env)
                  mounted_state 0%nat eq_refl)).
Defined.

(** ** Duplicate identifiers *)

(** Two entities sharing the id "x" give two nodes with that id, the first
    entity's node included, and one entry in the id set. *)
Lemma duplicate_ids_are_not_collapsed :
  ∃ m, build twin_entities [] = Normal m ∧
       length (filter (λ n, node_id n = "x") (nodes m)) = 2%nat ∧
       node_label <$> nodes m = [JStr "First"; JStr "Second"] ∧
       valid_node_ids (nodes m) = ["x"].
Proof. eexists. split; [reflexivity|]. split_and!; reflexivity. Qed.

(** C6 (amended). The builder keeps one node per input entity, in input
    order, each with the attributes of its own entity; entities that resolve
    to the same identifier therefore yield as many nodes with that
    identifier.  Only the id set used to validate edges holds each
    identifier once. *)
Theorem duplicate_ids_keep_one_node_per_entity entities relationships m :
  build entities relationships = Normal m →
  length (nodes m) = length entities ∧
  (∀ i entity, entities !! i = Some entity →
     ∃ n, nodes m !! i = Some n ∧ node_of_entity entity = Normal n) ∧
  (∀ i j n1 n2, i ≠ j → nodes m !! i = Some n1 → nodes m !! j = Some n2 →
     node_id n1 = node_id n2 →
     (2 ≤ length (filter (λ n, node_id n = node_id n1) (nodes m)))%nat) ∧
  NoDup (valid_node_ids (nodes m)) ∧
  (∀ x, x ∈ valid_node_ids (nodes m) ↔ ∃ n, n ∈ nodes m ∧ node_id n = x).
Proof.
  intros Hb. destruct (build_Normal _ _ _ Hb) as (flagged & Hn & _).
  apply Array_map_Normal in Hn. split_and!.
  - symmetry. by eapply Forall2_length.
  - intros i entity Hi.
    destruct (Forall2_lookup_l _ _ _ _ _ Hn Hi) as (n & Hni & Hne). eauto.
  - intros i j n1 n2 Hij H1 H2 Hid.
    assert (∀ (l : list NodeData) i j a b, (i < j)%nat → l !! i = Some a →
              l !! j = Some b → node_id a = node_id b →
              (2 ≤ length (filter (λ n, node_id n = node_id a) l))%nat) as Hgen.
    { clear. intros l i j a b Hlt Hi Hj Hid.
      rewrite <- (take_drop_middle l i a Hi).
      rewrite filter_app, filter_cons_True by done.
      rewrite length_app. simpl.
      assert (b ∈ drop (S i) l) as Hin.
      { apply list_elem_of_lookup. exists (j - S i)%nat.
        rewrite lookup_drop. replace (S i + (j - S i))%nat with j by lia. done. }
      assert (b ∈ filter (λ n, node_id n = node_id a) (drop (S i) l)) as Hf
        by (apply list_elem_of_filter; split; [done|done]).
      destruct (filter _ (drop (S i) l)); [by apply elem_of_nil in Hf|].
      simpl. lia. }
    destruct (decide (i < j)%nat) as [Hlt|Hge].
    + by eapply (Hgen _ i j n1 n2).
    + assert (j < i)%nat as Hlt by lia.
      rewrite Hid. by eapply (Hgen _ j i n2 n1).
  - apply Set_from_NoDup.
  - intros x. unfold valid_node_ids. rewrite Set_from_elem, list_elem_of_fmap.
    split; intros (n & ? & ?); exists n; done.
Qed.

Lemma duplicate_ids_keep_one_node_per_entity_witness :
  build twin_entities [] = Normal
    {| nodes := [ {| node_id := "x"; node_label := JStr "First";
                     node_type := JStr "PERSON"; node_properties := JObj [];
                     node_mentions := JNum 1 |};
                  {| node_id := "x"; node_label := JStr "Second";
                     node_type := JStr "PERSON"; node_properties := JObj [];
                     node_mentions := JNum 1 |} ];
       edges := []; rejectedEdges := [] |} ∧
  (2 ≤ length (filter (λ n, node_id n = "x")
                 [ {| node_id := "x"; node_label := JStr "First";
                      node_type := JStr "PERSON"; node_properties := JObj [];
                      node_mentions := JNum 1 |};
                   {| node_id := "x"; node_label := JStr "Second";
                      node_type := JStr "PERSON"; node_properties := JObj [];
                      node_mentions := JNum 1 |} ]))%nat.
Proof.
  split; [reflexivity|].
  exact (proj1 (proj2 (proj2
    (duplicate_ids_keep_one_node_per_entity twin_entities [] _ eq_refl)))
    0%nat 1%nat _ _ ltac:(discriminate) eq_refl eq_refl eq_refl).
Defined.

(** ** Entities without id and name *)

(** A [null] name is falsy but does not resolve to "undefined"; and two
    entities without id and name give two nodes. *)
Lemma falsy_name_resolves_to_its_own_text :
  (∃ n, node_of_entity (JObj [("id", JNull); ("name", JNull)]) = Normal n ∧
        node_id n = "null") ∧
  (∃ n, node_of_entity (JObj [("id", JNum 0); ("name", JStr "")]) = Normal n ∧
        node_id n = "") ∧
  (∃ m, build [JObj [("type", JStr "PERSON")]; JObj []] [] = Normal m ∧
        node_id <$> nodes m = ["undefined"; "undefined"]).
Proof. split_and!; eexists; split; reflexivity. Qed.

(** C10 (amended). An entity whose [id] is falsy takes the string coercion
    of its [name] as identifier; when the name is absent as well this is
    "undefined".  Such an entity still has its own node, the id set then
    contains "undefined", and a relationship whose endpoints are each
    "undefined" or another known id is materialized with those endpoints. *)
Theorem absent_id_and_name_resolve_to_undefined entities relationships m i entity :
  build entities relationships = Normal m →
  entities !! i = Some entity →
  truthy (prop_of entity "id") = false →
  (∃ n, nodes m !! i = Some n ∧ node_id n = js_String (prop_of entity "name")) ∧
  (prop_of entity "name" = JUndefined →
     (∃ n, nodes m !! i = Some n ∧ node_id n = "undefined") ∧
     Set_has (valid_node_ids (nodes m)) "undefined" = true ∧
     (∀ k rel src tgt,
        relationships !! k = Some rel →
        resolve_source rel = Normal src →
        resolve_target rel = Normal tgt →
        src = "undefined" ∨ src ∈ node_id <$> nodes m →
        tgt = "undefined" ∨ tgt ∈ node_id <$> nodes m →
        ∃ e, e ∈ edges m ∧ edge_id e = "edge-" +:+ pretty k ∧
             edge_source e = src ∧ edge_target e = tgt)).
Proof.
  intros Hb Hi Hfalsy.
  destruct (build_Normal _ _ _ Hb) as (flagged & Hn & _).
  apply Array_map_Normal in Hn.
  destruct (Forall2_lookup_l _ _ _ _ _ Hn Hi) as (n & Hni & Hne).
  pose proof (node_of_entity_Normal _ _ Hne) as Hnn.
  apply node_of_entity_fields in Hne as ->.
  assert (js_or (prop_of entity "id") (prop_of entity "name") = prop_of entity "name")
    as Hor by (unfold js_or; by rewrite Hfalsy).
  split.
  - eexists. split; [exact Hni|]. simpl. by rewrite Hor.
  - intros Hname.
    assert ("undefined" ∈ node_id <$> nodes m) as Hin.
    { apply list_elem_of_fmap. eexists. split; [|by eapply list_elem_of_lookup_2].
      simpl. by rewrite Hor, Hname. }
    split_and!.
    + eexists. split; [exact Hni|]. simpl. by rewrite Hor, Hname.
    + by apply Set_has_true.
    + intros k rel src tgt Hrel Hs Ht Hsrc Htgt.
      assert (src ∈ node_id <$> nodes m) as Hsrc' by (destruct Hsrc; by subst).
      assert (tgt ∈ node_id <$> nodes m) as Htgt' by (destruct Htgt; by subst).
      destruct (relationship_classified _ _ _ _ _ Hb Hrel) as (e & b & Hf & Hkeep & _).
      apply edge_of_rel_Normal in Hf as (Hs' & Ht' & _ & _ & Hid & Hvalid).
      rewrite Hs in Hs'. rewrite Ht in Ht'. injection Hs' as Hs'. injection Ht' as Ht'.
      exists e. split_and!; [|done..]. apply Hkeep. rewrite Hvalid, <- Hs', <- Ht'.
      apply andb_true_iff. split; by apply Set_has_true.
Qed.

Lemma absent_id_and_name_resolve_to_undefined_witness :
  (∃ m, build anonymous_entities anonymous_relationships = Normal m ∧
        edge_source <$> edges m = ["undefined"]) ∧
  anonymous_entities !! 0%nat = Some (JObj [("type", JStr "PERSON")]) ∧
  truthy (prop_of (JObj [("type", JStr "PERSON")]) "id") = false ∧
  ∃ n, nodes (mkGraphModel
                [ {| node_id := "undefined"; node_label := JStr "Unknown";
                     node_type := JStr "PERSON"; node_properties := JObj [];
                     node_mentions := JNum 1 |};
                  {| node_id := "a"; node_label := JStr "Unknown";
                     node_type := JStr "default"; node_properties := JObj [];
                     node_mentions := JNum 1 |} ]
                [ {| edge_id := "edge-0"; edge_source := "undefined";
                     edge_target := "a"; edge_label := JStr "related";
                     edge_type := JStr "related" |} ]
                [ mkLog LWarn "Skipping invalid edge:  -> a" [] ]) !! 0%nat = Some n ∧
       node_id n = "undefined".
Proof.
  split_and!; [eexists; split; reflexivity | reflexivity..|].
  exact (proj1 (proj2
    (absent_id_and_name_resolve_to_undefined
       anonymous_entities anonymous_relationships _ 0%nat _ eq_refl eq_refl eq_refl)
    eq_refl)).
Defined.

(** ** The legend *)

(** The legend of a payload with two entities of the same id and one
    rejected relationship: no edge is materialized and the edge count is 0,
    yet the relationship types add up to 1; both entities are counted.  And
    an entity of type "constructor" is a node that the entity types do not
    count. *)
Lemma legend_counts_rejected_relationship :
  build twin_entities legend_relationships = Normal legend_model ∧
  stats_edges <$> legend_stats = Some (length (edges legend_model)) ∧
  stats_edges <$> legend_stats = Some 0%nat ∧
  (λ st, stats_relationshipTypes st !! "bad") <$> legend_stats = Some (Some (CNum 1)) ∧
  (λ st, count_total (stats_relationshipTypes st)) <$> legend_stats = Some 1%nat ∧
  valid_node_ids (nodes legend_model) = ["x"] ∧
  stats_nodes <$> legend_stats = Some 2%nat ∧
  (λ st, count_total (stats_entityTypes st)) <$> legend_stats = Some 2%nat ∧
  stats_nodes <$> constructor_stats = Some 1%nat ∧
  (λ st, stats_entityTypes st !! "constructor") <$> constructor_stats = Some (Some CText) ∧
  (λ st, count_total (stats_entityTypes st)) <$> constructor_stats = Some 0%nat.
Proof. split_and!; vm_compute; reflexivity. Qed.

(** The legend's relationship types are counted over the input
    relationships, kept or rejected. *)
Lemma relationship_types_count_the_input relationships :
  Forall countable_relationship relationships →
  Forall (λ rel, type_key_of_rel rel ∉ objectPrototypeKeys) relationships →
  ∃ counts, getRelationshipTypeCounts relationships = Normal counts ∧
            count_total counts = length relationships.
Proof.
  intros Hnn Hkeys. rewrite getRelationshipTypeCounts_Normal by done.
  eexists. split; [done|].
  rewrite count_total_foldl.
  - rewrite count_total_empty, length_fmap. done.
  - by apply Forall_fmap.
  - apply all_counts_empty.
Qed.

(** The legend counters return exactly when every element can be read and
    every type converts to a string. *)
Lemma legend_counts_return_iff entities relationships :
  (∃ counts, legend_counts entities relationships = Normal counts) ↔
  Forall countable_entity entities ∧ Forall countable_relationship relationships.
Proof.
  split.
  - intros [counts Hc]. by eapply legend_counts_countable.
  - intros [He Hr]. rewrite legend_counts_Normal by done. eauto.
Qed.

(** C5 (amended). After a successful mount in which the legend counters
    return, which they do exactly when every entity and relationship can be
    read and its type converts to a string, the legend is a function of the
    payload alone: its node count is the number of built nodes, one per
    input entity; its edge count is the number of materialized edges; and
    the entity types add up to the node count when no entity's type is the
    name of a member that every plain object inherits.  When a counter
    throws, the instance stays mounted and referred to, the error is
    printed, and neither the legend nor the timeout is set. *)
Theorem legend_counts_built_nodes_and_edges s env rect entities relationships m :
  container env = Some rect →
  prop_of (graphData env) "entities" = JArr entities →
  prop_of (graphData env) "relationships" = JArr relationships →
  build entities relationships = Normal m →
  zero_extent rect = false →
  cytoscape_throws env = None →
  ((∃ counts, legend_counts entities relationships = Normal counts) ↔
   Forall countable_entity entities ∧ Forall countable_relationship relationships) ∧
  (Forall countable_entity entities → Forall countable_relationship relationships →
   ∃ st,
     stats (step s (RunEffect env)) = Some st ∧
     st = stats_of entities relationships m ∧
     stats_nodes st = length (nodes m) ∧
     stats_nodes st = length entities ∧
     stats_edges st = length (edges m) ∧
     (Forall (λ entity, type_key_of_entity entity ∉ objectPrototypeKeys) entities →
      count_total (stats_entityTypes st) = stats_nodes st)) ∧
  (∀ err, legend_counts entities relationships = Throw err →
     stats (step s (RunEffect env)) = stats s ∧
     timers (step s (RunEffect env)) = timers s ∧
     cyRef (step s (RunEffect env)) = Some (length (instances s)) ∧
     instances (step s (RunEffect env)) !! length (instances s)
       = Some (new_instance env m) ∧
     last (console (step s (RunEffect env)))
       = Some (mkLog LError "Error creating cytoscape graph:" [error_value err])).
Proof.
  intros Hc He Hr Hb Hz Hlib. unfold step.
  rewrite (useEffect_body_valid env rect entities relationships) by done.
  split_and!.
  - apply legend_counts_return_iff.
  - intros Hce Hcr.
    rewrite (render_creates_legend env rect entities relationships m) by done.
    exists (stats_of entities relationships m).
    destruct (build_Normal _ _ _ Hb) as (flagged & Hn & _).
    apply Array_map_Normal, Forall2_length in Hn.
    split_and!; [reflexivity|reflexivity|reflexivity|by symmetry|reflexivity|].
    intros Hkeys. unfold stats_of. cbn [stats_entityTypes stats_nodes].
    rewrite count_total_foldl.
    + rewrite count_total_empty, length_fmap. simpl. done.
    + by apply Forall_fmap.
    + apply all_counts_empty.
  - intros err Herr.
    set (s1 := (destroy_previous _).2).
    assert (length (instances s1) = length (instances s)) as Hlen
      by (unfold s1; by rewrite destroy_previous_length).
    assert (stats s1 = stats s ∧ timers s1 = timers s) as [Hstats Htimers].
    { unfold s1. rewrite destroy_previous_spec. simpl. by destruct (cyRef s). }
    rewrite (render_creates env rect entities relationships m) by done.
    unfold legend_error. rewrite Herr. cbn [snd stats timers cyRef instances console].
    rewrite Hlen, Hstats, Htimers.
    split_and!; [done|by rewrite app_nil_r|done| |].
    + rewrite <- Hlen. by apply list_lookup_middle.
    + rewrite !app_assoc. apply last_snoc.
Qed.

Lemma legend_counts_built_nodes_and_edges_witness :
  container sample_env = Some sample_rect ∧
  build sample_entities sample_relationships = Normal sample_model ∧
  zero_extent sample_rect = false ∧
  Forall countable_entity sample_entities ∧
  Forall countable_relationship sample_relationships ∧
  ∃ st, stats (step initial_state (RunEffect sample_env)) = Some st ∧
        stats_nodes st = 2%nat ∧ stats_edges st = 1%nat ∧
        count_total (stats_entityTypes st) = stats_nodes st.
Proof.
  assert (Forall countable_entity sample_entities) as Hce
    by (repeat constructor).
  assert (Forall countable_relationship sample_relationships) as Hcr
    by (repeat constructor).
  split_and!; [reflexivity..|exact Hce|exact Hcr|].
  destruct (proj1 (proj2
              (legend_counts_built_nodes_and_edges initial_state sample_env sample_rect
                 sample_entities sample_relationships sample_model
                 eq_refl eq_refl eq_refl eq_refl eq_refl eq_refl)) Hce Hcr)
    as (st & Hst & _ & Hn & _ & He & Ht).
  exists st. split_and!; [exact Hst | exact Hn | exact He |].
  apply Ht. unfold sample_entities.
  repeat (apply Forall_cons; split;
          [apply (bool_decide_unpack _); vm_compute; exact I|]).
  apply Forall_nil_2.
Defined.

(** ** The deferred fit *)

(** Mount, unmount, mount again, then let the first run's timeout fire: it
    was scheduled for session 0, which is destroyed, and fits session 1. *)
Lemma deferred_fit_reaches_later_session :
  timers remounted_state !! 0%nat = Some {| timer_delay := 100; timer_session := 0 |} ∧
  (cy_destroyed <$> instances remounted_state !! 0%nat) = Some true ∧
  cyRef remounted_state = Some 1%nat ∧
  (cy_fits <$> instances remounted_state !! 1%nat) = Some [] ∧
  (cy_fits <$> instances (step remounted_state (FireTimer 0)) !! 1%nat) = Some [50].
Proof. split_and!; vm_compute; reflexivity. Qed.

(** C9 (amended). When a pending timeout fires, the fit is applied to the
    instance [cyRef] refers to at that moment, whichever run scheduled the
    timeout, and nothing is fitted when [cyRef] is empty; in particular
    nothing is fitted right after a cleanup.  The check reads [cyRef] only
    and never the session that scheduled the timeout. *)
Theorem deferred_fit_targets_current_session s k t :
  timers s !! k = Some t →
  (fire_timer k s).1 = Normal () ∧
  cyRef (step s (FireTimer k)) = cyRef s ∧
  timers (step s (FireTimer k)) = delete k (timers s) ∧
  instances (step s (FireTimer k))
    = match cyRef s with
      | Some c => alter (add_fit 50) c (instances s)
      | None => instances s
      end ∧
  (∀ t', step {| cyRef := cyRef s; instances := instances s; console := console s;
                 stats := stats s; timers := <[k := t']> (timers s) |} (FireTimer k)
         = step s (FireTimer k)) ∧
  instances (step (step s RunCleanup) (FireTimer k)) = instances (step s RunCleanup).
Proof.
  intros Ht. simpl. rewrite !fire_timer_spec, Ht. simpl. split_and!; [done..| |].
  - intros t'. rewrite fire_timer_spec. simpl.
    rewrite list_lookup_insert_eq by (by eapply lookup_lt_Some).
    f_equal. clear Ht. revert k. induction (timers s) as [|x l IH]; intros [|k]; simpl;
      [done..|]. f_equal. apply IH.
  - rewrite cleanup_spec. simpl. by destruct (timers s !! k).
Qed.

Lemma deferred_fit_targets_current_session_witness :
  timers remounted_state !! 0%nat = Some {| timer_delay := 100; timer_session := 0 |} ∧
  cyRef (step remounted_state (FireTimer 0)) = cyRef remounted_state.
Proof.
  split; [reflexivity|].
  exact (proj1 (proj2
    (deferred_fit_targets_current_session remounted_state 0%nat
       {| timer_delay := 100; timer_session := 0 |} eq_refl))).
Defined.

(** ** Rebuilding *)

Ltac frame_close :=
  intros ?; split;
  [ rewrite <- ?app_assoc; first [reflexivity | symmetry; apply app_nil_r]
  | first [reflexivity | symmetry; apply app_nil_r] ].

(** [render] appends to the console and to the instances, and what it
    appends does not depend on the state it starts from. *)
Lemma render_frame env rect entities relationships :
  ∃ out new,
    ∀ s, console (render env rect entities relationships s).2 = console s ++ out ∧
         instances (render env rect entities relationships s).2 = instances s ++ new.
Proof.
  unfold render, bind, liftC. simpl.
  destruct (build_nodes (array_items entities)) as [ns|?]; simpl;
    [|exists [], []; frame_close].
  destruct (build_edges (valid_node_ids ns) (array_items relationships))
    as [[es warns]|?]; simpl;
    [|eexists _, []; frame_close].
  destruct (head es); simpl;
    (destruct ((rect_width rect =? 0) || (rect_height rect =? 0)); simpl;
     [eexists _, []; frame_close|]);
    unfold create_instance, try_catch, bind, cytoscape, liftC;
    (destruct (cytoscape_throws env); simpl;
     [eexists _, []; frame_close|]);
    (destruct (getEntityTypeCounts _); simpl;
     [|eexists _, _; frame_close]);
    (destruct (getRelationshipTypeCounts _); simpl;
     eexists _, _; frame_close).
Qed.

(** The same for the whole effect, up to the line printed when a previous
    instance is destroyed and the destroyed mark put on that instance. *)
Lemma useEffect_body_frame env :
  ∃ pre post new (destroys : bool),
    Forall (λ e, log_level e ≠ LWarn) pre ∧
    ∀ s, console (useEffect_body env s).2
           = console s ++ pre ++ (if destroys then destroy_log s else []) ++ post ∧
         instances (useEffect_body env s).2
           = (if destroys
              then match cyRef s with
                   | Some c => alter mark_destroyed c (instances s)
                   | None => instances s
                   end
              else instances s) ++ new.
Proof.
  pose (early := mkLog LLog "Early return - missing graphData or container" []).
  pose (creating := mkLog LLog "Creating graph with data:" [graphData env]).
  unfold useEffect_body.
  destruct (truthy (graphData env)) eqn:Ht;
    [|exists [early], [], [], false; split; [by repeat constructor|];
      intros s; simpl; rewrite !app_nil_r; split; reflexivity].
  destruct (container env) as [rect|];
    [|exists [early], [], [], false; split; [by repeat constructor|];
      intros s; simpl; rewrite !app_nil_r; split; reflexivity].
  eff_step.
  destruct (getProp (graphData env) "entities") as [entities|?];
    [|exists [creating], [], [], false; split; [by repeat constructor|];
      intros s; simpl; rewrite !app_nil_r; split; reflexivity].
  destruct (negb (truthy entities) || negb (Array_isArray entities));
    [exists [creating; mkLog LError "Invalid graphData.entities:" [entities]],
       [], [], false; split; [by repeat constructor|];
      intros s; simpl; rewrite <- !app_assoc, !app_nil_r; split; reflexivity|].
  destruct (getProp (graphData env) "relationships") as [relationships|?];
    [|exists [creating], [], [], false; split; [by repeat constructor|];
      intros s; simpl; rewrite !app_nil_r; split; reflexivity].
  destruct (negb (truthy relationships) || negb (Array_isArray relationships));
    [exists [creating; mkLog LError "Invalid graphData.relationships:" [relationships]],
       [], [], false; split; [by repeat constructor|];
      intros s; simpl; rewrite <- !app_assoc, !app_nil_r; split; reflexivity|].
  destruct (render_frame env rect entities relationships) as (out & new & Hframe).
  exists [mkLog LLog "Creating graph with data:" [graphData env]], out, new, true.
  split; [by repeat constructor|].
  intros s. rewrite destroy_previous_spec. cbv iota.
  match goal with
  | |- context [render env rect entities relationships ?st] =>
      destruct (Hframe st) as [Hcons Hinst]
  end.
  rewrite Hcons, Hinst. unfold destroy_log, destroy_failure.
  destruct (cyRef s) eqn:Href; simpl; rewrite <- ?app_assoc; done.
Qed.

Lemma filter_none {A} (P : A → Prop) `{∀ x, Decision (P x)} (l : list A) :
  Forall (λ x, ¬ P x) l → filter P l = [].
Proof.
  induction 1 as [|x l Hx _ IH]; [done|]. by rewrite filter_cons_False.
Qed.

Lemma filter_all {A} (P : A → Prop) `{∀ x, Decision (P x)} (l : list A) :
  Forall P l → filter P l = l.
Proof.
  induction 1 as [|x l Hx _ IH]; [done|]. rewrite filter_cons_True by done.
  by rewrite IH.
Qed.

Lemma prefix_append (p s : string) : String.prefix p (p +:+ s) = true.
Proof.
  induction p as [|a p IH]; [by destruct s|].
  change (String a p +:+ s) with (String a (p +:+ s)). cbn [String.prefix].
  by destruct (ascii_dec a a).
Qed.

Lemma skip_warning_is_skip_warning e : is_skip_warning (skip_warning e).
Proof. split; [done|]. apply prefix_append. Qed.

Lemma not_warning_not_skip (l : list LogEntry) :
  Forall (λ e, log_level e ≠ LWarn) l → filter is_skip_warning l = [].
Proof.
  intros H. apply filter_none. eapply Forall_impl; [exact H|].
  intros e Hne [Hw _]. done.
Qed.

Lemma destroy_log_no_skip_warning s : filter is_skip_warning (destroy_log s) = [].
Proof.
  apply filter_none. unfold destroy_log.
  destruct (cyRef s) as [c|]; [|constructor].
  constructor; [by intros [? _]|].
  destruct (destroy_failure c s); constructor; [|constructor].
  intros [_ Hp]. discriminate Hp.
Qed.

(** The warnings and the new instances of a run do not depend on the state
    in which the effect runs. *)
Lemma effect_output_frame env :
  ∃ log new, ∀ s, rejection_log env s = log ∧ created env s = new.
Proof.
  destruct (useEffect_body_frame env) as (pre & post & new & destroys & Hpre & Hframe).
  exists (filter is_skip_warning post), new. intros s.
  destruct (Hframe s) as [Hcons Hinst]. unfold rejection_log, emitted, created.
  rewrite Hcons, Hinst. split.
  - rewrite drop_app_length, !filter_app. rewrite (not_warning_not_skip pre) by done.
    destruct destroys; [rewrite destroy_log_no_skip_warning|]; done.
  - apply drop_app_length'. destruct destroys; [|done].
    destruct (cyRef s); [|done]. by rewrite length_alter.
Qed.

Lemma render_log_warnings rect entities relationships m :
  build entities relationships = Normal m →
  filter is_skip_warning (render_log rect m) = rejectedEdges m.
Proof.
  intros Hb. destruct (build_Normal _ _ _ Hb) as (flagged & _ & _ & _ & Hrej).
  unfold render_log. rewrite !filter_app.
  rewrite (filter_all _ (rejectedEdges m)).
  - rewrite (not_warning_not_skip [_]) by (by repeat constructor).
    rewrite (not_warning_not_skip [_; _; _]) by (by repeat constructor).
    rewrite (not_warning_not_skip [_]) by (by repeat constructor).
    rewrite (not_warning_not_skip (match head (edges m) with
                                   | Some e => _ | None => [] end))
      by (destruct (head (edges m)); by repeat constructor).
    by rewrite app_nil_r.
  - rewrite Hrej. apply Forall_fmap, Forall_forall. intros x _.
    apply skip_warning_is_skip_warning.
Qed.

Lemma StronglySorted_lt_succ (ks : list nat) :
  StronglySorted lt ks → StronglySorted lt (S <$> ks).
Proof.
  induction 1 as [|k ks _ IH Hall]; simpl; constructor; [done|].
  apply Forall_fmap. eapply Forall_impl; [exact Hall|]. intros j Hj. simpl. lia.
Qed.

(** Filtering keeps the elements at an increasing sequence of positions. *)
Lemma filter_positions {A} (P : A → Prop) `{∀ x, Decision (P x)} (l : list A) :
  ∃ ks, StronglySorted lt ks ∧
        Forall2 (λ k y, l !! k = Some y ∧ P y) ks (filter P l).
Proof.
  induction l as [|x l (ks & Hsorted & Hks)].
  - exists []. split; constructor.
  - destruct (decide (P x)) as [Hx|Hx].
    + exists (0%nat :: (S <$> ks)). rewrite filter_cons_True by done. split.
      * constructor; [by apply StronglySorted_lt_succ|].
        apply Forall_fmap, Forall_forall. intros j _. simpl. lia.
      * constructor; [done|]. by apply Forall2_fmap_l.
    + exists (S <$> ks). rewrite filter_cons_False by done. split.
      * by apply StronglySorted_lt_succ.
      * by apply Forall2_fmap_l.
Qed.

(** The ids of the materialized edges are [edge-k] for an increasing
    sequence of input positions [k], each the position of a relationship
    that was flagged valid. *)
Lemma edge_ids_are_input_positions entities relationships m :
  build entities relationships = Normal m →
  ∃ ks, StronglySorted lt ks ∧
        Forall2 (λ k e, edge_id e = "edge-" +:+ pretty k ∧
                        ∃ rel, relationships !! k = Some rel ∧
                               edge_of_rel (valid_node_ids (nodes m)) rel k
                                 = Normal (e, true))
                ks (edges m).
Proof.
  intros Hb. destruct (build_Normal _ _ _ Hb) as (flagged & _ & Hmap & Hedges & _).
  destruct (filter_positions (λ e : EdgeData * bool, e.2 = true) flagged)
    as (ks & Hsorted & Hks).
  exists ks. split; [done|]. rewrite Hedges. apply Forall2_fmap_r.
  eapply Forall2_impl; [exact Hks|]. intros k [e b] [Hk Hvalid]. simpl in *. subst b.
  destruct (Array_mapi_lookup_inv _ _ _ _ _ Hmap Hk) as (rel & Hrel & Hf).
  destruct (edge_of_rel_Normal _ _ _ _ _ Hf) as (_ & _ & _ & _ & Hid & _).
  split; [done|]. by exists rel.
Qed.

(** C7. Two runs of the effect on the same props, from whatever states,
    print the same skip warnings in the same order (the rejection log) and
    create the same instance.  After a successful mount that instance holds
    the nodes and edges of [build] in their order and the skip warnings
    printed are the model's rejection log, whether or not [destroy()] of a
    previous instance throws and whether or not the legend counters throw;
    and the edge ids are [edge-k] with [k] the position of the relationship
    in the input, so they increase along the edges and skip the positions
    of rejected relationships. *)
Theorem rebuild_is_deterministic env s1 s2 :
  rejection_log env s1 = rejection_log env s2 ∧
  created env s1 = created env s2 ∧
  (∀ rect entities relationships m,
     container env = Some rect →
     prop_of (graphData env) "entities" = JArr entities →
     prop_of (graphData env) "relationships" = JArr relationships →
     build entities relationships = Normal m →
     zero_extent rect = false →
     cytoscape_throws env = None →
     created env s1 = [new_instance env m] ∧
     rejection_log env s1 = rejectedEdges m ∧
     ∃ ks, StronglySorted lt ks ∧
           Forall2 (λ k e, edge_id e = "edge-" +:+ pretty k ∧
                           ∃ rel, relationships !! k = Some rel ∧
                                  edge_of_rel (valid_node_ids (nodes m)) rel k
                                    = Normal (e, true))
                   ks (edges m)).
Proof.
  destruct (effect_output_frame env) as (log & new & Hframe).
  destruct (Hframe s1) as [Hl1 Hn1]. destruct (Hframe s2) as [Hl2 Hn2].
  split_and!; [congruence..|].
  intros rect entities relationships m Hc He Hr Hb Hz Hlib.
  split_and!; [| |by eapply edge_ids_are_input_positions].
  - unfold created.
    rewrite (useEffect_body_valid env rect entities relationships) by done.
    rewrite (render_creates env rect entities relationships m) by done. cbn.
    apply drop_app_length'. by rewrite destroy_previous_length.
  - unfold rejection_log, emitted.
    rewrite (useEffect_body_valid env rect entities relationships) by done.
    rewrite (render_creates env rect entities relationships m) by done.
    cbn [snd console].
    set (s0 := (console_log "Creating graph with data:" [graphData env] s1).2).
    assert (console (destroy_previous s0).2
            = console s1 ++ [mkLog LLog "Creating graph with data:" [graphData env]]
                ++ destroy_log s1) as ->.
    { rewrite destroy_previous_spec. unfold destroy_log, destroy_failure, s0. simpl.
      destruct (cyRef s1); simpl; rewrite <- ?app_assoc; done. }
    rewrite <- !app_assoc, drop_app_length, !filter_app.
    rewrite (render_log_warnings rect entities relationships m Hb).
    rewrite destroy_log_no_skip_warning.
    rewrite (not_warning_not_skip [_]) by (by repeat constructor).
    rewrite (not_warning_not_skip [created_log]) by (by repeat constructor).
    rewrite (not_warning_not_skip (legend_error _ _))
      by (unfold legend_error; destruct (legend_counts _ _); by repeat constructor).
    by rewrite app_nil_r.
Qed.

(** A second run over an instance whose [destroy()] throws: the [catch]
    prints its warning, the run goes on to mount the new instance, and the
    warning is no part of the rejection log. *)
Example throwing_destroy_is_warned_not_rejected :
  let s := step initial_state (RunEffect env_destroy_throws) in
  mkLog LWarn "Error destroying previous instance:" [JStr "boom"]
    ∈ emitted sample_env s ∧
  rejection_log sample_env s = rejectedEdges sample_model ∧
  created sample_env s = [new_instance sample_env sample_model] ∧
  live_sessions (step s (RunEffect sample_env)) = [1%nat].
Proof.
  split_and!; [|reflexivity..].
  vm_compute. apply list_elem_of_lookup. by exists 2%nat.
Qed.

(** The only edge kept from [bad; good] is [edge-1], not [edge-0]. *)
Example edge_id_is_not_the_position_after_filtering :
  build sample_entities (reverse sample_relationships)
  = Normal {| nodes := nodes sample_model;
              edges := [ {| edge_id := "edge-1"; edge_source := "a";
                            edge_target := "b"; edge_label := JStr "works_at";
                            edge_type := JStr "works_at" |} ];
              rejectedEdges := rejectedEdges sample_model |}.
Proof. reflexivity. Qed.

Lemma rebuild_is_deterministic_witness :
  container sample_env = Some sample_rect ∧
  build sample_entities sample_relationships = Normal sample_model ∧
  zero_extent sample_rect = false ∧
  created sample_env (step initial_state (RunEffect sample_env))
    = [new_instance sample_env sample_model] ∧
  rejection_log sample_env (step initial_state (RunEffect sample_env))
    = rejectedEdges sample_model.
Proof.
  split_and!; [reflexivity..| |];
    destruct (rebuild_is_deterministic sample_env
                (step initial_state (RunEffect sample_env)) initial_state)
      as (_ & _ & Hmount);
    destruct (Hmount sample_rect sample_entities sample_relationships sample_model
                eq_refl eq_refl eq_refl eq_refl eq_refl eq_refl)
      as (Hcreated & Hlog & _); assumption.
Defined.

(** ** The earlier copy of the component

    The file carries a second, earlier [GraphVisualization] whose effect
    maps every relationship to an edge without looking at the nodes. *)

(** The earlier copy keeps every relationship, the one naming the unknown
    node "zzz" included; the component above is the one that validates. *)
Lemma legacy_edges_keep_every_relationship relationships es :
  legacy_edges relationships = Normal es → length es = length relationships.
Proof. intros H. by destruct (Array_mapi_lookup _ _ _ H). Qed.

Example legacy_edges_sample :
  legacy_edges sample_relationships
  = Normal [ {| legacy_edge_id := "edge-0"; legacy_edge_source := JStr "a";
                legacy_edge_target := JStr "b"; legacy_edge_label := JStr "works_at";
                legacy_edge_type := JStr "works_at" |};
             {| legacy_edge_id := "edge-1"; legacy_edge_source := JStr "a";
                legacy_edge_target := JStr "zzz"; legacy_edge_label := JStr "bad";
                legacy_edge_type := JStr "bad" |} ].
Proof. reflexivity. Qed.

(** * Further properties of the builder *)

(** ** When the builder throws *)



Lemma non_nullish_not_nullish v : non_nullish v → nullish v → False.
Proof. intros H [-> | ->]; exact H. Qed.



(** An identifier that is an object with an own [toString] member cannot
    be converted: the [map] callback throws. *)
Example build_unconvertible_id :
  build [JObj [("id", JObj [("toString", JNum 1)])]] [] = Throw ConversionError.
Proof. reflexivity. Qed.


(** ** Defaults *)

Lemma truthy_js_or a b : truthy b = true → truthy (js_or a b) = true.
Proof. intros Hb. unfold js_or. by destruct (truthy a) eqn:Ha. Qed.


Lemma js_or_truthy a b : truthy a = true → js_or a b = a.
Proof. intros Ha. unfold js_or. by rewrite Ha. Qed.

(** X2. No node of a built model has a falsy label, type, properties or
    mentions: a falsy [name] is replaced by "Unknown", a falsy [type] by
    "default", falsy [properties] by the empty object and falsy [mentions]
    (0 included) by 1, and a truthy field is kept as it is.  Every edge has
    a truthy type, which is also its label. *)
Theorem built_elements_carry_defaults entities relationships m :
  build entities relationships = Normal m →
  Forall (λ n, truthy (node_label n) = true ∧ truthy (node_type n) = true ∧
               truthy (node_properties n) = true ∧ truthy (node_mentions n) = true)
         (nodes m) ∧
  (∀ i entity n, entities !! i = Some entity → nodes m !! i = Some n →
     node_label n = (if truthy (prop_of entity "name")
                     then prop_of entity "name" else JStr "Unknown") ∧
     node_type n = (if truthy (prop_of entity "type")
                    then prop_of entity "type" else JStr "default") ∧
     node_properties n = (if truthy (prop_of entity "properties")
                          then prop_of entity "properties" else JObj []) ∧
     node_mentions n = (if truthy (prop_of entity "mentions")
                        then prop_of entity "mentions" else JNum 1)) ∧
  Forall (λ e, edge_label e = edge_type e ∧ truthy (edge_type e) = true) (edges m).
Proof.
  intros Hb. destruct (build_Normal _ _ _ Hb) as (flagged & Hn & _).
  apply Array_map_Normal in Hn.
  assert (∀ i entity n, entities !! i = Some entity → nodes m !! i = Some n →
            non_nullish entity ∧ node_of_entity entity = Normal n) as Hnode.
  { intros i entity n Hi Hni.
    destruct (Forall2_lookup_l _ _ _ _ _ Hn Hi) as (n' & Hn' & Hne).
    assert (n' = n) as -> by congruence.
    split; [by eapply node_of_entity_Normal | done]. }
  split_and!.
  - apply Forall_lookup. intros i n Hni.
    destruct (Forall2_lookup_r _ _ _ _ _ Hn Hni) as (entity & Hi & _).
    destruct (Hnode i entity n Hi Hni) as [Hnn Hne].
    apply node_of_entity_fields in Hne as ->. simpl.
    split_and!; by apply truthy_js_or.
  - intros i entity n Hi Hni. destruct (Hnode i entity n Hi Hni) as [Hnn Hne].
    apply node_of_entity_fields in Hne as ->. simpl.
    unfold js_or. split_and!; done.
  - apply Forall_forall. intros e He.
    destruct (edges_origin _ _ _ _ Hb He) as (k & rel & Hrel & Hf).
    apply edge_of_rel_Normal in Hf as (_ & _ & Hty & Hlabel & _).
    split; [done|]. unfold rel_type in Hty.
    destruct (getProp rel "type") as [t|]; simpl in Hty; [|discriminate].
    destruct (getProp rel "relationship") as [r|]; simpl in Hty; [|discriminate].
    injection Hty as <-. by apply truthy_js_or.
Qed.

Lemma built_elements_carry_defaults_witness :
  build sample_entities sample_relationships = Normal sample_model ∧
  Forall (λ e, edge_label e = edge_type e ∧ truthy (edge_type e) = true)
         (edges sample_model).
Proof.
  split; [reflexivity|].
  exact (proj2 (proj2 (built_elements_carry_defaults
                         sample_entities sample_relationships sample_model eq_refl))).
Defined.

(** ** Edge ids *)

Lemma StronglySorted_lt_NoDup (ks : list nat) : StronglySorted lt ks → NoDup ks.
Proof.
  induction 1 as [|k ks _ IH Hall]; constructor; [|done].
  intros Hin. eapply Forall_forall in Hall; [|exact Hin]. lia.
Qed.

(** X3. The ids of the edges of a built model are pairwise distinct,
    however many relationships were rejected, and there are never more
    edges than input relationships. *)
Theorem built_edge_ids_are_distinct entities relationships m :
  build entities relationships = Normal m →
  NoDup (edge_id <$> edges m) ∧
  (length (edges m) ≤ length relationships)%nat.
Proof.
  intros Hb. split.
  - destruct (edge_ids_are_input_positions _ _ _ Hb) as (ks & Hsorted & Hks).
    assert (edge_id <$> edges m = (λ k : nat, "edge-" +:+ pretty k) <$> ks) as ->.
    { induction Hks as [|k e ks' es' [Hid _] _ IH]; [done|].
      simpl. f_equal; [done|]. apply IH.
      by apply StronglySorted_inv in Hsorted as [? _]. }
    apply NoDup_fmap_2; [|by apply StronglySorted_lt_NoDup].
    intros j k. apply edge_id_inj.
  - destruct (build_Normal _ _ _ Hb) as (flagged & _ & Hmap & Hedges & _).
    destruct (Array_mapi_lookup _ _ _ Hmap) as [Hlen _].
    rewrite Hedges, length_fmap, <- Hlen. apply length_filter.
Qed.

Lemma built_edge_ids_are_distinct_witness :
  build sample_entities sample_relationships = Normal sample_model ∧
  NoDup (edge_id <$> edges sample_model).
Proof.
  split; [reflexivity|].
  exact (proj1 (built_edge_ids_are_distinct
                  sample_entities sample_relationships sample_model eq_refl)).
Defined.

(** ** The legend counters, slot by slot *)

Lemma count_key_lookup acc key k :
  key ∉ objectPrototypeKeys → all_counts acc →
  count_key acc key !! k
  = if decide (key = k) then Some (CNum (S (bucket acc k))) else acc !! k.
Proof.
  intros Hkey Hacc. unfold count_key, bucket.
  destruct (decide (key = k)) as [->|Hne].
  - destruct (acc !! k) as [[n|]|] eqn:Hl.
    + rewrite lookup_insert_eq. do 2 f_equal. lia.
    + by destruct (Hacc k).
    + rewrite bool_decide_eq_false_2 by done. by rewrite lookup_insert_eq.
  - destruct (acc !! key) as [[n|]|] eqn:Hl.
    + by rewrite lookup_insert_ne.
    + by destruct (Hacc key).
    + rewrite bool_decide_eq_false_2 by done. by rewrite lookup_insert_ne.
Qed.

Lemma occurrences_not_in k keys : k ∉ keys → occurrences k keys = 0%nat.
Proof.
  intros Hnin. unfold occurrences.
  rewrite filter_none; [done|].
  apply Forall_forall. intros x Hx ->. done.
Qed.

Lemma foldl_count_key_lookup keys acc k :
  Forall (λ key, key ∉ objectPrototypeKeys) keys → all_counts acc →
  foldl count_key acc keys !! k
  = if decide (k ∈ keys) then Some (CNum (bucket acc k + occurrences k keys)) else acc !! k.
Proof.
  intros H. revert acc. induction H as [|key keys Hkey _ IH]; intros acc Hacc.
  - destruct (decide (k ∈ [])) as [Hin|]; [by apply elem_of_nil in Hin|done].
  - cbn [foldl]. destruct (count_total_count_key acc key Hkey Hacc) as [_ Hacc'].
    rewrite IH by done.
    pose proof (count_key_lookup acc key k Hkey Hacc) as Hl.
    assert (bucket (count_key acc key) k
            = if decide (key = k) then S (bucket acc k) else bucket acc k) as Hb.
    { unfold bucket at 1. rewrite Hl. by destruct (decide (key = k)). }
    assert (occurrences k (key :: keys)
            = if decide (key = k) then S (occurrences k keys) else occurrences k keys)
      as Ho.
    { unfold occurrences. destruct (decide (key = k)).
      - by rewrite filter_cons_True.
      - by rewrite filter_cons_False. }
    rewrite Hb, Ho, Hl.
    destruct (decide (key = k)) as [->|Hne].
    + rewrite (decide_True (P := k ∈ k :: keys)) by (by left).
      destruct (decide (k ∈ keys)) as [Hin|Hnin].
      * do 2 f_equal. lia.
      * rewrite occurrences_not_in by done. do 2 f_equal. lia.
    + destruct (decide (k ∈ keys)) as [Hin|Hnin].
      * by rewrite (decide_True (P := k ∈ key :: keys)) by (by right).
      * rewrite decide_False; [done|]. intros [?|?]%elem_of_cons; by subst.
Qed.

(** X4. Over entities and relationships that can be counted (none is
    [null] and every type converts to a string), and whose type names are
    not names of members that a plain object inherits, both counters
    return, and the slot of a type holds exactly the number of elements of
    that type; a type that does not occur has no slot (and no slot holds
    0).  Conversely a counter that returns has found every element
    countable: it throws on a [null] element and on a type that is an
    object with an own [toString] member. *)
Theorem type_counts_count_occurrences entities relationships :
  Forall countable_entity entities →
  Forall countable_relationship relationships →
  Forall (λ entity, type_key_of_entity entity ∉ objectPrototypeKeys) entities →
  Forall (λ rel, type_key_of_rel rel ∉ objectPrototypeKeys) relationships →
  (∃ entityTypes relationshipTypes,
     getEntityTypeCounts entities = Normal entityTypes ∧
     getRelationshipTypeCounts relationships = Normal relationshipTypes ∧
     (∀ k, entityTypes !! k
           = if decide (k ∈ type_key_of_entity <$> entities)
             then Some (CNum (occurrences k (type_key_of_entity <$> entities)))
             else None) ∧
     (∀ k, relationshipTypes !! k
           = if decide (k ∈ type_key_of_rel <$> relationships)
             then Some (CNum (occurrences k (type_key_of_rel <$> relationships)))
             else None) ∧
     (∀ k, k ∈ type_key_of_entity <$> entities →
           (1 ≤ occurrences k (type_key_of_entity <$> entities))%nat)) ∧
  (∀ others counts,
     getEntityTypeCounts others = Normal counts → Forall countable_entity others) ∧
  (∀ others counts,
     getRelationshipTypeCounts others = Normal counts →
     Forall countable_relationship others).
Proof.
  intros Hne Hnr Hke Hkr. split_and!.
  - eexists _, _. split_and!.
    + by apply getEntityTypeCounts_Normal.
    + by apply getRelationshipTypeCounts_Normal.
    + intros k. rewrite foldl_count_key_lookup;
        [|by apply Forall_fmap|apply all_counts_empty].
      unfold bucket. rewrite lookup_empty. done.
    + intros k. rewrite foldl_count_key_lookup;
        [|by apply Forall_fmap|apply all_counts_empty].
      unfold bucket. rewrite lookup_empty. done.
    + intros k Hin. unfold occurrences.
      assert (k ∈ filter (λ x, x = k) (type_key_of_entity <$> entities)) as Hf
        by (by apply list_elem_of_filter).
      destruct (filter _ _); [by apply elem_of_nil in Hf|]. simpl. lia.
  - intros others counts. apply getEntityTypeCounts_countable.
  - intros others counts. apply getRelationshipTypeCounts_countable.
Qed.

(** A type that is an object with an own [toString] member makes the
    counter throw. *)
Example counter_unconvertible_type :
  getEntityTypeCounts [JObj [("id", JStr "a"); ("type", JObj [("toString", JNum 1)])]]
  = Throw ConversionError.
Proof. reflexivity. Qed.

Lemma not_inherited_keys_sample :
  Forall (λ entity, type_key_of_entity entity ∉ objectPrototypeKeys) sample_entities ∧
  Forall (λ rel, type_key_of_rel rel ∉ objectPrototypeKeys) sample_relationships.
Proof.
  split; repeat (apply Forall_cons; split;
                 [apply (bool_decide_unpack _); vm_compute; exact I|]);
    apply Forall_nil_2.
Defined.

Lemma type_counts_count_occurrences_witness :
  Forall countable_entity sample_entities ∧
  Forall countable_relationship sample_relationships ∧
  ∃ entityTypes, getEntityTypeCounts sample_entities = Normal entityTypes ∧
                 entityTypes !! "PERSON" = Some (CNum 1).
Proof.
  assert (Forall countable_entity sample_entities) as He
    by (repeat constructor).
  assert (Forall countable_relationship sample_relationships) as Hr
    by (repeat constructor).
  split_and!; [exact He | exact Hr |].
  destruct (proj1 (type_counts_count_occurrences sample_entities sample_relationships
                     He Hr (proj1 not_inherited_keys_sample)
                     (proj2 not_inherited_keys_sample)))
    as (ce & cr & Hce & _ & Hlook & _).
  exists ce. split; [exact Hce|]. rewrite Hlook. reflexivity.
Defined.



(** * Further properties of the effect *)

(** ** Rejected props *)

Lemma truthy_non_nullish v : truthy v = true → non_nullish v.
Proof. by destruct v. Qed.

Lemma Array_isArray_JArr v : Array_isArray v = true → ∃ items, v = JArr items.
Proof. destruct v; try discriminate. eauto. Qed.

Lemma useEffect_body_rejected env s :
  payload_rejected env →
  (useEffect_body env s).1 = Normal NoCleanup ∧
  cyRef (useEffect_body env s).2 = cyRef s ∧
  instances (useEffect_body env s).2 = instances s ∧
  stats (useEffect_body env s).2 = stats s ∧
  timers (useEffect_body env s).2 = timers s.
Proof.
  intros Hrej. unfold useEffect_body.
  destruct (truthy (graphData env)) eqn:Ht; [|done].
  destruct (container env) as [rect|] eqn:Hc; [|done].
  destruct Hrej as [Hrej|[Hrej|Hrej]]; [congruence..|].
  eff_step. rewrite !getProp_non_nullish by by apply truthy_non_nullish.
  destruct (Array_isArray (prop_of (graphData env) "entities")) eqn:Hae.
  - destruct Hrej as [Hrej|Hrej]; [congruence|].
    apply Array_isArray_JArr in Hae as [entities Hents]. rewrite Hents, Hrej.
    simpl. rewrite orb_true_r. done.
  - rewrite orb_true_r. done.
Qed.

(** X6. When the props fail a check at the top of the effect (no
    [graphData], no container, [entities] or [relationships] not an array)
    the effect returns without a cleanup and touches nothing but the
    console: the previous instance is neither destroyed nor replaced, the
    legend and the pending timeouts stay.  It prints no warning; when the
    data is at fault, the last line printed is one of the two data
    errors. *)
Theorem rejected_props_change_only_the_console env s :
  payload_rejected env →
  (useEffect_body env s).1 = Normal NoCleanup ∧
  cyRef (useEffect_body env s).2 = cyRef s ∧
  instances (useEffect_body env s).2 = instances s ∧
  stats (useEffect_body env s).2 = stats s ∧
  timers (useEffect_body env s).2 = timers s ∧
  ∃ entries,
    console (useEffect_body env s).2 = console s ++ entries ∧
    Forall (λ e, log_level e ≠ LWarn) entries ∧
    (truthy (graphData env) = true → is_Some (container env) →
     ∃ e, last entries = Some e ∧ log_level e = LError ∧
          log_text e ∈ data_error_texts).
Proof.
  intros Hrej. unfold useEffect_body.
  destruct (truthy (graphData env)) eqn:Ht.
  2:{ split_and!; [done..|]. eexists. split; [done|].
      split; [by repeat constructor|]. discriminate. }
  destruct (container env) as [rect|] eqn:Hc.
  2:{ split_and!; [done..|]. eexists. split; [done|].
      split; [by repeat constructor|]. intros _ [? ?]. discriminate. }
  destruct Hrej as [Hrej|[Hrej|Hrej]]; [congruence..|].
  eff_step. rewrite !getProp_non_nullish by by apply truthy_non_nullish.
  destruct (Array_isArray (prop_of (graphData env) "entities")) eqn:Hae.
  - destruct Hrej as [Hrej|Hrej]; [congruence|].
    apply Array_isArray_JArr in Hae as [entities Hents]. rewrite Hents, Hrej.
    simpl. rewrite orb_true_r. simpl.
    split_and!; [done..|]. eexists. split; [by rewrite <- app_assoc|].
    split; [by repeat constructor|]. intros _ _. eexists. split; [done|].
    split; [done|]. unfold data_error_texts. by apply list_elem_of_further, list_elem_of_here.
  - rewrite orb_true_r. simpl.
    split_and!; [done..|]. eexists. split; [by rewrite <- app_assoc|].
    split; [by repeat constructor|]. intros _ _. eexists. split; [done|].
    split; [done|]. unfold data_error_texts. by apply list_elem_of_here.
Qed.

Lemma rejected_props_change_only_the_console_witness :
  payload_rejected env_without_entities ∧
  cyRef (useEffect_body env_without_entities mounted_state).2 = cyRef mounted_state.
Proof.
  assert (payload_rejected env_without_entities) as H
    by (right; right; left; reflexivity).
  split; [exact H|].
  exact (proj1 (proj2
    (rejected_props_change_only_the_console env_without_entities mounted_state H))).
Defined.

(** ** A [null] element *)

Lemma render_build_throws env rect entities relationships err s :
  build entities relationships = Throw err →
  ∃ out, Forall (λ e, log_level e = LLog) out ∧
         render env rect (JArr entities) (JArr relationships) s
         = (Throw err,
            {| cyRef := cyRef s; instances := instances s;
               console := console s ++ out; stats := stats s; timers := timers s |}).
Proof.
  unfold build. intros Hb. unfold render, bind, liftC. simpl.
  destruct (build_nodes entities) as [ns|e] eqn:Hn; simpl in *.
  - destruct (build_edges (valid_node_ids ns) relationships) as [es|e] eqn:He;
      simpl in *; [discriminate|].
    injection Hb as ->. eexists [_]. split; [|done]. by repeat constructor.
  - injection Hb as ->. exists []. split; [constructor|].
    rewrite app_nil_r. by destruct s.
Qed.

(** X7. When both fields are arrays but the builder throws (an element is
    [null], or a value it passes to [String] does not convert), the effect
    throws the builder's [TypeError] after it has destroyed the previous
    instance: nothing is referred to any more, no session is live, no
    instance was created, and the legend and the pending timeouts are those
    of the previous graph. *)
Theorem null_element_destroys_without_rebuilding
    evs env rect entities relationships err :
  container env = Some rect →
  prop_of (graphData env) "entities" = JArr entities →
  prop_of (graphData env) "relationships" = JArr relationships →
  build entities relationships = Throw err →
  let s := run evs initial_state in
  (useEffect_body env s).1 = Throw err ∧
  cyRef (useEffect_body env s).2 = None ∧
  live_sessions (useEffect_body env s).2 = [] ∧
  length (instances (useEffect_body env s).2) = length (instances s) ∧
  stats (useEffect_body env s).2 = stats s ∧
  timers (useEffect_body env s).2 = timers s.
Proof.
  intros Hc He Hr Hb s.
  rewrite (useEffect_body_valid env rect entities relationships) by done.
  set (s1 := (destroy_previous _).2).
  destruct (render_build_throws env rect entities relationships err s1 Hb)
    as (out & _ & ->).
  assert (quiescent s1) as Hq.
  { apply destroy_previous_quiescent.
    eapply same_sessions_invariant; [apply console_log_sessions|].
    apply run_invariant, initial_state_invariant. }
  cbn. split_and!.
  - done.
  - apply Hq.
  - apply live_sessions_quiescent. split; [apply Hq|]. cbn. apply Hq.
  - unfold s1. by rewrite destroy_previous_length.
  - unfold s1. rewrite destroy_previous_spec. cbn. by destruct (cyRef s).
  - unfold s1. rewrite destroy_previous_spec. cbn. by destruct (cyRef s).
Qed.

Lemma null_element_destroys_without_rebuilding_witness :
  container env_with_null_entity = Some sample_rect ∧
  build [JObj [("id", JStr "a")]; JNull] [] = Throw (TypeError "id") ∧
  live_sessions
    (useEffect_body env_with_null_entity (run [RunEffect sample_env] initial_state)).2
  = [].
Proof.
  split_and!; [reflexivity..|].
  exact (proj1 (proj2 (proj2
    (null_element_destroys_without_rebuilding [RunEffect sample_env]
       env_with_null_entity sample_rect [JObj [("id", JStr "a")]; JNull] []
       (TypeError "id") eq_refl eq_refl eq_refl eq_refl)))).
Defined.

(** ** What a run can change *)

Lemma destroy_previous_keeps_legend s :
  stats (destroy_previous s).2 = stats s ∧ timers (destroy_previous s).2 = timers s ∧
  cyRef (destroy_previous s).2 = None.
Proof. rewrite destroy_previous_spec. simpl. destruct (cyRef s) eqn:H; done. Qed.

(** X8. A run of the effect has one of three outcomes.  It creates
    nothing, and then leaves the legend and the pending timeouts as they
    were (so after a zero-size container, a library error or a rejected
    payload the legend still describes the previous graph, whose instance
    may be gone).  Or it creates exactly one instance, live and not yet
    fitted, and stores it in [cyRef], but a legend counter throws: the
    error is the last line printed, and the legend and the timeouts are
    left as they were.  Or it creates that instance, sets the legend's node
    and edge counts to the numbers of its nodes and edges, and schedules
    exactly one timeout, of 100 ms. *)
Theorem legend_and_timers_change_only_with_a_new_instance env s :
  (created env s = [] ∧
   stats (useEffect_body env s).2 = stats s ∧
   timers (useEffect_body env s).2 = timers s ∧
   (cyRef (useEffect_body env s).2 = cyRef s ∨ cyRef (useEffect_body env s).2 = None)) ∨
  (∃ i err,
     created env s = [i] ∧ cy_destroyed i = false ∧ cy_fits i = [] ∧
     cyRef (useEffect_body env s).2 = Some (length (instances s)) ∧
     stats (useEffect_body env s).2 = stats s ∧
     timers (useEffect_body env s).2 = timers s ∧
     last (console (useEffect_body env s).2)
       = Some (mkLog LError "Error creating cytoscape graph:" [error_value err])) ∨
  (∃ i st,
     created env s = [i] ∧ cy_destroyed i = false ∧ cy_fits i = [] ∧
     cyRef (useEffect_body env s).2 = Some (length (instances s)) ∧
     stats (useEffect_body env s).2 = Some st ∧
     stats_nodes st = length (cy_nodes i) ∧
     stats_edges st = length (cy_edges i) ∧
     timers (useEffect_body env s).2
       = timers s ++ [{| timer_delay := 100; timer_session := length (instances s) |}]).
Proof.
  unfold created.
  destruct (truthy (graphData env)) eqn:Ht.
  2:{ left. destruct (useEffect_body_rejected env s)
        as (_ & Hr & -> & Hs & Hti); [by left|].
      rewrite drop_all. auto. }
  destruct (container env) as [rect|] eqn:Hc.
  2:{ left. destruct (useEffect_body_rejected env s)
        as (_ & Hr & -> & Hs & Hti); [by right; left|].
      rewrite drop_all. auto. }
  destruct (Array_isArray (prop_of (graphData env) "entities")) eqn:Hae.
  2:{ left. destruct (useEffect_body_rejected env s)
        as (_ & Hr & -> & Hs & Hti); [by right; right; left|].
      rewrite drop_all. auto. }
  destruct (Array_isArray (prop_of (graphData env) "relationships")) eqn:Har.
  2:{ left. destruct (useEffect_body_rejected env s)
        as (_ & Hr & -> & Hs & Hti); [by right; right; right|].
      rewrite drop_all. auto. }
  apply Array_isArray_JArr in Hae as [entities He].
  apply Array_isArray_JArr in Har as [relationships Hr].
  rewrite (useEffect_body_valid env rect entities relationships) by done.
  set (s1 := (destroy_previous _).2).
  assert (stats s1 = stats s ∧ timers s1 = timers s ∧ cyRef s1 = None)
    as (Hs1 & Ht1 & Hr1).
  { unfold s1.
    destruct (destroy_previous_keeps_legend
                (console_log "Creating graph with data:" [graphData env] s).2)
      as (-> & -> & ->).
    done. }
  assert (length (instances s1) = length (instances s)) as Hlen
    by (unfold s1; by rewrite destroy_previous_length).
  destruct (build entities relationships) as [m|err] eqn:Hb.
  - destruct (zero_extent rect) eqn:Hz.
    + left. rewrite (render_zero_extent env rect entities relationships m) by done.
      cbn. rewrite <- Hlen, drop_all. auto.
    + destruct (cytoscape_throws env) as [thrown|] eqn:Hlib.
      * left.
        rewrite (render_library_throws env rect entities relationships m _ thrown)
          by done.
        cbn. rewrite <- Hlen, drop_all. auto.
      * right. rewrite (render_creates env rect entities relationships m) by done.
        unfold legend_error.
        destruct (legend_counts entities relationships) as [counts|err] eqn:Hcounts;
          cbn [snd stats timers cyRef instances console].
        -- right. eexists (new_instance env m), _.
           rewrite <- Hlen, drop_app_length, Ht1. done.
        -- left. exists (new_instance env m), err.
           rewrite <- Hlen, drop_app_length, Ht1, Hs1, app_nil_r.
           split_and!; [done..|]. rewrite !app_assoc. apply last_snoc.
  - left. destruct (render_build_throws env rect entities relationships err s1 Hb)
      as (out & _ & ->).
    cbn. rewrite <- Hlen, drop_all. auto.
Qed.

(** A payload whose only relationship has a type that cannot be converted:
    the instance is created and referred to, and there is no legend. *)
Example mount_without_legend :
  cyRef (step initial_state (RunEffect env_unconvertible_type)) = Some 0%nat ∧
  stats (step initial_state (RunEffect env_unconvertible_type)) = None ∧
  timers (step initial_state (RunEffect env_unconvertible_type)) = [].
Proof. split_and!; reflexivity. Qed.

(** ** The life of an instance *)

(** What one event does to an instance that exists already. *)
Lemma step_instance s ev c i :
  session_invariant s →
  instances s !! c = Some i →
  ∃ i', instances (step s ev) !! c = Some i' ∧
        cy_nodes i' = cy_nodes i ∧ cy_edges i' = cy_edges i ∧
        cy_layout i' = cy_layout i ∧
        cy_fits i `prefix_of` cy_fits i' ∧
        (cy_destroyed i = true → i' = i).
Proof.
  intros [_ Hlive] Hi.
  assert (∀ f c0 tl,
            cyRef s = Some c0 →
            (∀ j, cy_nodes (f j) = cy_nodes j ∧ cy_edges (f j) = cy_edges j ∧
                  cy_layout (f j) = cy_layout j ∧ cy_fits j `prefix_of` cy_fits (f j)) →
            ∃ i', (alter f c0 (instances s) ++ tl) !! c = Some i' ∧
                  cy_nodes i' = cy_nodes i ∧ cy_edges i' = cy_edges i ∧
                  cy_layout i' = cy_layout i ∧
                  cy_fits i `prefix_of` cy_fits i' ∧
                  (cy_destroyed i = true → i' = i)) as Halter.
  { intros f c0 tl Hc0 Hf.
    assert (c < length (alter f c0 (instances s)))%nat as Hlt
      by (rewrite length_alter; by eapply lookup_lt_Some).
    rewrite lookup_app_l by done.
    destruct (decide (c = c0)) as [->|Hne].
    - rewrite list_lookup_alter_eq, Hi. simpl. exists (f i).
      destruct (Hf i) as (? & ? & ? & ?). split_and!; [done..|].
      intros Hd. destruct (Hlive _ Hc0) as (j & Hj & Hjd). congruence.
    - rewrite list_lookup_alter_ne by done. exists i. by split_and!. }
  assert (∀ tl, ∃ i', (instances s ++ tl) !! c = Some i' ∧
                  cy_nodes i' = cy_nodes i ∧ cy_edges i' = cy_edges i ∧
                  cy_layout i' = cy_layout i ∧
                  cy_fits i `prefix_of` cy_fits i' ∧
                  (cy_destroyed i = true → i' = i)) as Hsame.
  { intros tl. exists i. rewrite lookup_app_l by (by eapply lookup_lt_Some).
    by split_and!. }
  assert (∀ j, cy_nodes (mark_destroyed j) = cy_nodes j ∧
               cy_edges (mark_destroyed j) = cy_edges j ∧
               cy_layout (mark_destroyed j) = cy_layout j ∧
               cy_fits j `prefix_of` cy_fits (mark_destroyed j)) as Hmark by done.
  assert (∀ j, cy_nodes (add_fit 50 j) = cy_nodes j ∧
               cy_edges (add_fit 50 j) = cy_edges j ∧
               cy_layout (add_fit 50 j) = cy_layout j ∧
               cy_fits j `prefix_of` cy_fits (add_fit 50 j)) as Hfit.
  { intros j. split_and!; [done..|]. by exists [50]. }
  destruct ev as [env| |k]; simpl.
  - destruct (useEffect_body_frame env) as (pre & post & new & destroys & _ & Hframe).
    destruct (Hframe s) as [_ ->].
    destruct destroys; [|apply Hsame].
    destruct (cyRef s) as [c0|] eqn:Hc0; [by apply Halter|apply Hsame].
  - rewrite cleanup_spec. simpl.
    destruct (cyRef s) as [c0|] eqn:Hc0.
    + specialize (Halter mark_destroyed c0 [] eq_refl Hmark).
      by rewrite app_nil_r in Halter.
    + specialize (Hsame []). by rewrite app_nil_r in Hsame.
  - rewrite fire_timer_spec. simpl.
    destruct (timers s !! k); simpl;
      [|specialize (Hsame []); by rewrite app_nil_r in Hsame].
    destruct (cyRef s) as [c0|] eqn:Hc0.
    + specialize (Halter (add_fit 50) c0 [] eq_refl Hfit).
      by rewrite app_nil_r in Halter.
    + specialize (Hsame []). by rewrite app_nil_r in Hsame.
Qed.

Lemma run_instance evs s c i :
  session_invariant s →
  instances s !! c = Some i →
  ∃ i', instances (run evs s) !! c = Some i' ∧
        cy_nodes i' = cy_nodes i ∧ cy_edges i' = cy_edges i ∧
        cy_layout i' = cy_layout i ∧
        cy_fits i `prefix_of` cy_fits i' ∧
        (cy_destroyed i = true → i' = i).
Proof.
  revert s i. induction evs as [|ev evs IH]; intros s i Hinv Hi.
  - exists i. by split_and!.
  - destruct (step_instance s ev c i Hinv Hi) as (i1 & Hi1 & Hn & He & Hl & Hf & Hd).
    destruct (IH (step s ev) i1 (step_invariant _ _ Hinv) Hi1)
      as (i2 & Hi2 & Hn2 & He2 & Hl2 & Hf2 & Hd2).
    exists i2. split_and!; [done|congruence..| |].
    + by etrans.
    + intros Hdi. specialize (Hd Hdi). subst i1. by apply Hd2.
Qed.

(** X9. Whatever happens later (runs of the effect, cleanups, timeouts
    firing, in any order and number), an instance that exists stays at its
    position in the history with the nodes, edges and layout it was created
    with; fits are only ever added to it; and once it is destroyed nothing
    is done to it any more: no later fit reaches a destroyed instance. *)
Theorem destroyed_instance_is_never_used_again evs later c i :
  instances (run evs initial_state) !! c = Some i →
  ∃ i', instances (run later (run evs initial_state)) !! c = Some i' ∧
        cy_nodes i' = cy_nodes i ∧ cy_edges i' = cy_edges i ∧
        cy_layout i' = cy_layout i ∧
        cy_fits i `prefix_of` cy_fits i' ∧
        (cy_destroyed i = true → i' = i).
Proof.
  apply run_instance, run_invariant, initial_state_invariant.
Qed.

Lemma destroyed_instance_is_never_used_again_witness :
  instances (run [RunEffect sample_env; RunCleanup] initial_state) !! 0%nat
    = Some (mark_destroyed (new_instance sample_env sample_model)) ∧
  ∃ i', instances (run [FireTimer 0; RunEffect sample_env; FireTimer 0]
                     (run [RunEffect sample_env; RunCleanup] initial_state)) !! 0%nat
          = Some i' ∧
        cy_nodes i' = nodes sample_model.
Proof.
  split; [reflexivity|].
  destruct (destroyed_instance_is_never_used_again
              [RunEffect sample_env; RunCleanup]
              [FireTimer 0; RunEffect sample_env; FireTimer 0]
              0%nat (mark_destroyed (new_instance sample_env sample_model)) eq_refl)
    as (i' & Hi' & Hn & _).
  exists i'. split; [exact Hi'|exact Hn].
Defined.

(** ** The toolbar *)

(** X10. In every state the component can reach, the toolbar acts on the
    one live instance or on nothing.  An export that produces a download
    found [cyRef] referring to a live instance, and the picture is taken
    from that instance; with no live instance (nothing rendered yet, a
    zero-size container, a library error, after the cleanup) "Export PNG",
    "Export JSON" and "Fit to View" all do nothing, the JSON export too
    although it needs no instance; a format other than "png" and "json"
    downloads nothing; and "Fit to View" leaves every destroyed instance
    as it is. *)
Theorem toolbar_acts_on_the_live_instance_only evs format gd :
  let s := run evs initial_state in
  (∀ d, exportGraph format gd s = Some d →
        ∃ c i, live_sessions s = [c] ∧ instances s !! c = Some i ∧
               cy_destroyed i = false ∧
               (format = "png" ∧
                d = {| download_name := "knowledge-graph.png";
                       download_content := PngImage c 2 |}
                ∨ format = "json" ∧ download_name d = "knowledge-graph.json")) ∧
  (live_sessions s = [] → exportGraph format gd s = None ∧ fitGraph s = (Normal (), s)) ∧
  (format ≠ "png" → format ≠ "json" → exportGraph format gd s = None) ∧
  (∀ c i, instances s !! c = Some i → cy_destroyed i = true →
          instances (fitGraph s).2 !! c = Some i) ∧
  session_invariant (fitGraph s).2.
Proof.
  intros s.
  assert (session_invariant s) as Hinv
    by apply run_invariant, initial_state_invariant.
  pose proof (live_sessions_invariant s Hinv) as Hlive.
  destruct Hinv as [Hown Href].
  unfold exportGraph, fitGraph, bind, get_cyRef, cy_fit, update_instance. simpl.
  split_and!.
  - intros d Hd. destruct (cyRef s) as [c|] eqn:Hc; [|discriminate].
    destruct (Href c Hc) as (i & Hi & Hid).
    exists c, i. split_and!; [done..|].
    destruct (String.eqb format "png") eqn:Hpng.
    + apply String.eqb_eq in Hpng. left. split; [done|]. congruence.
    + destruct (String.eqb format "json") eqn:Hjson; [|discriminate].
      apply String.eqb_eq in Hjson. right. split; [done|].
      injection Hd as <-. done.
  - intros Hnil. rewrite Hnil in Hlive.
    destruct (cyRef s) as [c|] eqn:Hc; [discriminate|]. done.
  - intros Hpng Hjson. destruct (cyRef s); [|done].
    apply String.eqb_neq in Hpng, Hjson. by rewrite Hpng, Hjson.
  - intros c i Hi Hd. destruct (cyRef s) as [c0|] eqn:Hc; simpl; [|done].
    destruct (Href c0 Hc) as (j & Hj & Hjd).
    rewrite list_lookup_alter_ne; [done|]. intros ->. congruence.
  - destruct (cyRef s) as [c0|] eqn:Hc; simpl; [|done].
    split.
    + intros c i. simpl. intros Hi Hid.
      destruct (decide (c = c0)) as [->|Hne]; [done|].
      rewrite list_lookup_alter_ne in Hi by done.
      by eapply Hown.
    + intros c. simpl. rewrite Hc. intros [= <-].
      destruct (Href c0 Hc) as (j & Hj & Hjd).
      rewrite list_lookup_alter_eq, Hj. simpl. eexists. split; [done|]. done.
Qed.

(** * Colours *)

Lemma upper_char_not_lower a :
  ((97 <=? nat_of_ascii (upper_char a))%nat
   && (nat_of_ascii (upper_char a) <=? 122)%nat) = false.
Proof. destruct a as [[] [] [] [] [] [] [] []]; vm_compute; reflexivity. Qed.

Lemma upper_char_idem a : upper_char (upper_char a) = upper_char a.
Proof. destruct a as [[] [] [] [] [] [] [] []]; vm_compute; reflexivity. Qed.

Lemma toUpperCase_no_lower t : has_lower (toUpperCase t) = false.
Proof.
  induction t as [|a t IH]; [done|]. cbn [toUpperCase has_lower].
  by rewrite upper_char_not_lower, IH.
Qed.

Lemma toUpperCase_idem t : toUpperCase (toUpperCase t) = toUpperCase t.
Proof.
  induction t as [|a t IH]; [done|]. cbn [toUpperCase].
  by rewrite upper_char_idem, IH.
Qed.

Lemma toUpperCase_fixed t : has_lower t = false → toUpperCase t = t.
Proof.
  induction t as [|a t IH]; [done|]. cbn [toUpperCase has_lower].
  intros [Ha Ht]%orb_false_iff.
  rewrite (IH Ht). unfold upper_char. cbv zeta. by rewrite Ha.
Qed.

Lemma inherited_keys_have_lower k : k ∈ objectPrototypeKeys → has_lower k = true.
Proof.
  unfold objectPrototypeKeys. rewrite !elem_of_cons, elem_of_nil.
  intros H. repeat (destruct H as [->|H]; [reflexivity|]). done.
Qed.

Lemma assoc_colors key hex :
  assoc key colors = Some hex →
  (key ∈ palette_types ∧ hex ≠ "#95A5A6" ∨ key = "default" ∧ hex = "#95A5A6")
  ∧ hex ≠ "".
Proof.
  unfold colors, palette_types. simpl.
  repeat (case_decide;
          [subst key; intros [= <-]; split; [|done];
           first [ by right
                 | left; split; [|done]; rewrite !elem_of_cons; tauto ]|]).
  done.
Qed.

Lemma assoc_palette key :
  key ∈ palette_types → ∃ hex, assoc key colors = Some hex ∧ hex ≠ "#95A5A6".
Proof.
  unfold palette_types. rewrite !elem_of_cons, elem_of_nil.
  intros H. repeat (destruct H as [->|H]; [eexists; split; [reflexivity|done]|]).
  done.
Qed.

Lemma colors_or_default_upper t :
  has_lower t = false →
  ∃ hex, colors_or_default t = Own hex ∧
         (t ∈ palette_types ∧ assoc t colors = Some hex ∧ hex ≠ "#95A5A6"
          ∨ (t ∉ palette_types) ∧ hex = "#95A5A6").
Proof.
  intros Hl. unfold colors_or_default.
  destruct (assoc t colors) as [hex|] eqn:Ha.
  - destruct (assoc_colors t hex Ha) as [[[Hin Hne]|[-> _]] Hnonempty];
      [|discriminate].
    apply String.eqb_neq in Hnonempty. rewrite Hnonempty.
    exists hex. split; [done|]. left. done.
  - case_decide as Hin.
    + apply inherited_keys_have_lower in Hin. congruence.
    + eexists. split; [reflexivity|]. right. split; [|done].
      intros (hex & Hhex & _)%assoc_palette. congruence.
Qed.

(** X11. [getNodeColor] of the validating component.  For a type name in
    ASCII it returns a colour string of the palette, never a member
    inherited from [Object.prototype]; the name is matched without regard
    to case; the colour is the grey default exactly when the upper-cased
    name is none of the seven coloured types (so "default" and "Unknown"
    are grey).  [null] and [undefined] give grey.  Any other value (a
    number, a boolean, an array, an object) makes the call throw. *)
Theorem node_colour_ignores_case_and_is_a_palette_colour t :
  ascii_text t = true →
  (∃ hex, getNodeColor (JStr t) = Normal (Own hex) ∧
          getNodeColor (JStr (toUpperCase t)) = Normal (Own hex) ∧
          hex ∈ colors.*2 ∧
          (hex ≠ "#95A5A6" ↔ toUpperCase t ∈ palette_types)) ∧
  (∀ v, nullish v → getNodeColor v = Normal (Own "#95A5A6")) ∧
  (∀ v, non_nullish v → (∀ text, v ≠ JStr text) → ∃ err, getNodeColor v = Throw err).
Proof.
  intros _. split_and!.
  - simpl. rewrite toUpperCase_idem.
    destruct (colors_or_default_upper (toUpperCase t) (toUpperCase_no_lower t))
      as (hex & -> & [(Hin & Ha & Hne)|(Hnin & ->)]).
    + exists hex. split_and!; [done..| |done].
      clear -Ha. unfold colors in *. simpl in Ha.
      repeat (case_decide; [injection Ha as <-; rewrite !elem_of_cons; simpl; tauto|]).
      done.
    + eexists. split_and!; [done..| |].
      * simpl. rewrite !elem_of_cons. tauto.
      * split; [done|]. intros ?. done.
  - by intros v [-> | ->].
  - intros [| | | |text| |] Hv Hs; try done; try (by eexists).
    by destruct (Hs text).
Qed.

Lemma node_colour_ignores_case_and_is_a_palette_colour_witness :
  ascii_text "Person" = true ∧
  ∃ hex, getNodeColor (JStr "Person") = Normal (Own hex) ∧
         getNodeColor (JStr "PERSON") = Normal (Own hex).
Proof.
  split; [reflexivity|].
  destruct (proj1 (node_colour_ignores_case_and_is_a_palette_colour "Person" eq_refl))
    as (hex & H1 & H2 & _).
  exists hex. split; [exact H1|exact H2].
Defined.

(** X12. A node and its legend row.  For an entity whose type is a string
    or is absent (or falsy), the node on the canvas and the entity's row in
    the legend get the same colour, although the one is computed from
    [entity.type || 'default'] and the other from the key
    [entity.type || 'Unknown'].  For a truthy type that is not a string
    (a number, say) the legend row still gets a colour, but computing the
    colour of the node throws. *)
Theorem node_and_legend_row_share_a_colour entity n :
  node_of_entity entity = Normal n →
  ascii_text (type_key_of_entity entity) = true →
  (∃ hex, getNodeColor (JStr (type_key_of_entity entity)) = Normal (Own hex)) ∧
  (truthy (prop_of entity "type") = false ∨ (∃ t, prop_of entity "type" = JStr t) →
   getNodeColor (node_type n) = getNodeColor (JStr (type_key_of_entity entity))) ∧
  (truthy (prop_of entity "type") = true → (∀ t, prop_of entity "type" ≠ JStr t) →
   ∃ err, getNodeColor (node_type n) = Throw err).
Proof.
  intros Hn _. pose proof (node_of_entity_Normal _ _ Hn) as Hnn.
  apply node_of_entity_fields in Hn as ->.
  unfold type_key_of_entity. cbn [node_type]. split_and!.
  - simpl.
    destruct (colors_or_default_upper _ (toUpperCase_no_lower
               (js_String (js_or (prop_of entity "type") (JStr "Unknown")))))
      as (hex & -> & _).
    by exists hex.
  - intros [Hf|[t Ht]].
    + unfold js_or. rewrite Hf. reflexivity.
    + rewrite Ht. unfold js_or. by destruct (truthy (JStr t)).
  - intros Ht Hs. unfold js_or. rewrite Ht.
    destruct (prop_of entity "type") as [| | | |t| |]; try done; try (by eexists).
    by destruct (Hs t).
Qed.

Lemma node_and_legend_row_share_a_colour_witness :
  node_of_entity (JObj [("id", JStr "a")])
    = Normal {| node_id := "a"; node_label := JStr "Unknown";
                node_type := JStr "default"; node_properties := JObj [];
                node_mentions := JNum 1 |} ∧
  ascii_text (type_key_of_entity (JObj [("id", JStr "a")])) = true ∧
  getNodeColor (JStr "default") = getNodeColor (JStr "Unknown").
Proof.
  split_and!; [reflexivity..|].
  exact (proj1 (proj2
    (node_and_legend_row_share_a_colour (JObj [("id", JStr "a")]) _ eq_refl eq_refl))
    (or_introl eq_refl)).
Defined.

(** X13. The earlier copy of [getNodeColor] looks the type up as it is
    written.  On a name without lower-case letters the two copies agree.
    A name with a lower-case letter whose upper-case form is a coloured
    type is coloured by the validating copy and grey in the earlier one,
    and for a name that [Object.prototype] defines ("constructor",
    "toString", ...) the earlier copy returns the inherited member, which
    is not a colour, where the validating copy returns grey. *)
Theorem legacy_colour_is_case_sensitive t :
  ascii_text t = true →
  (has_lower t = false → legacy_getNodeColor (JStr t) = getNodeColor (JStr t)) ∧
  (has_lower t = true → toUpperCase t ∈ palette_types →
   legacy_getNodeColor (JStr t) = Normal (Own "#95A5A6") ∧
   ∃ hex, getNodeColor (JStr t) = Normal (Own hex) ∧ hex ≠ "#95A5A6") ∧
  (t ∈ objectPrototypeKeys →
   legacy_getNodeColor (JStr t) = Normal (Inherited t) ∧
   getNodeColor (JStr t) = Normal (Own "#95A5A6")).
Proof.
  intros _.
  assert (legacy_getNodeColor (JStr t) = Normal (colors_or_default t)) as -> by done.
  simpl. split_and!.
  - intros Hl. by rewrite toUpperCase_fixed.
  - intros Hl Hup. split.
    + unfold colors_or_default.
      destruct (assoc t colors) as [hex|] eqn:Ha.
      * destruct (assoc_colors t hex Ha) as [[[Hin _]|[-> ->]] _]; [|done].
        exfalso. revert Hl Hin. unfold palette_types.
        rewrite !elem_of_cons, elem_of_nil. intros Hl Hin.
        repeat (destruct Hin as [->|Hin]; [discriminate|]). done.
      * case_decide as Hin; [|done].
        exfalso. revert Hup Hin. unfold objectPrototypeKeys, palette_types.
        rewrite !elem_of_cons, !elem_of_nil. intros Hup Hin.
        repeat (destruct Hin as [->|Hin];
                [vm_compute in Hup; repeat (destruct Hup as [Hup|Hup]; [discriminate|]);
                 done|]).
        done.
    + destruct (colors_or_default_upper (toUpperCase t) (toUpperCase_no_lower t))
        as (hex & -> & [(_ & _ & Hne)|(Hnin & _)]); [|done].
      by exists hex.
  - intros Hin. split.
    + unfold colors_or_default.
      destruct (assoc t colors) as [hex|] eqn:Ha.
      * exfalso. revert Ha Hin. unfold objectPrototypeKeys.
        rewrite !elem_of_cons, elem_of_nil. intros Ha Hin.
        repeat (destruct Hin as [->|Hin]; [discriminate|]). done.
      * by rewrite decide_True.
    + destruct (colors_or_default_upper (toUpperCase t) (toUpperCase_no_lower t))
        as (hex & -> & [(Hup & _ & _)|(_ & ->)]); [|done].
      exfalso. revert Hup Hin. unfold objectPrototypeKeys, palette_types.
      rewrite !elem_of_cons, !elem_of_nil. intros Hup Hin.
      repeat (destruct Hin as [->|Hin];
              [vm_compute in Hup; repeat (destruct Hup as [Hup|Hup]; [discriminate|]);
               done|]).
      done.
Qed.

Lemma legacy_colour_is_case_sensitive_witness :
  ascii_text "person" = true ∧ has_lower "person" = true ∧
  legacy_getNodeColor (JStr "person") = Normal (Own "#95A5A6").
Proof.
  split_and!; [reflexivity..|].
  assert (toUpperCase "person" ∈ palette_types) as Hin by apply list_elem_of_here.
  exact (proj1 (proj1 (proj2
    (legacy_colour_is_case_sensitive "person" eq_refl)) eq_refl Hin)).
Defined.

(** * Node size *)

Lemma js_or_mentions k :
  js_or (JNum k) (JNum 1) = JNum (if decide (k = 0) then 1 else k).
Proof.
  unfold js_or. simpl. case_decide as Hz; [by subst|].
  apply Z.eqb_neq in Hz. by rewrite Hz.
Qed.

Lemma node_diameter_JNum z :
  z ≠ 0 → node_diameter (JNum z) = Some (Z.min (20 + z * 5) 60).
Proof.
  intros Hz. unfold node_diameter, js_or. simpl.
  apply Z.eqb_neq in Hz. by rewrite Hz.
Qed.

Lemma node_mentions_of_entity entity n k :
  node_of_entity entity = Normal n →
  prop_of entity "mentions" = JNum k →
  node_mentions n = JNum (if decide (k = 0) then 1 else k).
Proof.
  intros Hn Hk. pose proof (node_of_entity_Normal _ _ Hn) as Hnn.
  apply node_of_entity_fields in Hn as ->.
  cbn [node_mentions]. rewrite Hk. apply js_or_mentions.
Qed.

(** X14. The diameter of a node.  For an entity with an integer mention
    count [k] (in the range where the arithmetic is exact) the node's
    width and height are [min(20 + 5 * k, 60)], with [k = 0] drawn as one
    mention: at most 60, at least 25 when [k] is not negative, equal to 60
    from 8 mentions on (so that larger counts cannot be told apart), never
    decreasing in [k], and zero or negative when [k <= -4], because a
    negative count is truthy and is kept by [entity.mentions || 1].  An
    entity without a mention count is drawn with diameter 25. *)
Theorem node_diameter_is_clamped entity n k :
  node_of_entity entity = Normal n →
  prop_of entity "mentions" = JNum k →
  - 2 ^ 50 < k < 2 ^ 50 →
  ∃ d, node_diameter (node_mentions n) = Some d ∧
       d = Z.min (20 + 5 * (if decide (k = 0) then 1 else k)) 60 ∧
       d ≤ 60 ∧ (0 ≤ k → 25 ≤ d) ∧ (8 ≤ k → d = 60) ∧ (k ≤ -4 → d ≤ 0) ∧
       (∀ entity' n' k' d',
          node_of_entity entity' = Normal n' →
          prop_of entity' "mentions" = JNum k' → 1 ≤ k → k ≤ k' →
          node_diameter (node_mentions n') = Some d' → d ≤ d') ∧
       (∀ entity' n',
          node_of_entity entity' = Normal n' →
          prop_of entity' "mentions" = JUndefined →
          node_diameter (node_mentions n') = Some 25).
Proof.
  intros Hn Hk _. rewrite (node_mentions_of_entity _ _ _ Hn Hk).
  rewrite node_diameter_JNum by (case_decide; lia).
  eexists. split; [reflexivity|].
  split_and!; try (case_decide; lia).
  - intros entity' n' k' d' Hn' Hk' H1 Hle.
    rewrite (node_mentions_of_entity _ _ _ Hn' Hk').
    rewrite node_diameter_JNum by (case_decide; lia).
    intros [= <-]. repeat case_decide; lia.
  - intros entity' n' Hn' Hk'.
    pose proof (node_of_entity_Normal _ _ Hn') as Hnn'.
    apply node_of_entity_fields in Hn' as ->.
    cbn [node_mentions]. rewrite Hk'. reflexivity.
Qed.

Lemma node_diameter_is_clamped_witness :
  node_of_entity (JObj [("id", JStr "a"); ("mentions", JNum 12)])
    = Normal {| node_id := "a"; node_label := JStr "Unknown";
                node_type := JStr "default"; node_properties := JObj [];
                node_mentions := JNum 12 |} ∧
  - 2 ^ 50 < 12 < 2 ^ 50 ∧
  ∃ d, node_diameter (JNum 12) = Some d ∧ d ≤ 60.
Proof.
  assert (- 2 ^ 50 < 12 < 2 ^ 50) as Hr by (split; reflexivity).
  split; [reflexivity|]. split; [exact Hr|].
  destruct (node_diameter_is_clamped
              (JObj [("id", JStr "a"); ("mentions", JNum 12)]) _ 12
              eq_refl eq_refl Hr) as (d & Hd & _ & Hle & _).
  exists d. split; [exact Hd|exact Hle].
Defined.

(** * The application shell *)

Lemma response_invalid_false data : response_invalid data = Normal false → accepted data.
Proof.
  unfold response_invalid, accepted.
  destruct data; simpl; try discriminate.
  intros [= H]. apply orb_false_iff in H as [H1 H2].
  by rewrite !negb_false_iff in H1, H2.
Qed.

Lemma accepted_truthy data : accepted data → truthy data = true.
Proof. intros [H _]. by destruct data. Qed.

Lemma app_step_shape a ev a' : AppShape a → app_step a ev = Some a' → AppShape a'.
Proof.
  intros Hshape Hstep.
  destruct Hshape as [e|ph Hph|data Hdata|data Hdata].
  - destruct ev as [url|[|call] ok status statusText|[|call] message
                    |[|call] errorData|[|call] data|[|call] message|[|call]| |];
      unfold app_step, shows_input, shows_error in Hstep; simpl in Hstep;
      try discriminate.
    + destruct (error_truthy e); simpl in Hstep; [discriminate|].
      injection Hstep as <-. by apply (shape_in_flight AwaitFetch).
    + unfold shows_error in Hstep. simpl in Hstep.
      destruct (error_truthy e); [|discriminate].
      injection Hstep as <-. apply shape_idle.
  - destruct ev as [url|[|call] ok status statusText|[|call] message
                    |[|call] errorData|[|call] data|[|call] message|[|call]| |];
      unfold app_step, shows_input, shows_error in Hstep; simpl in Hstep;
      try discriminate.
    + destruct ph; try discriminate. destruct ok; injection Hstep as <-.
      * by apply (shape_in_flight AwaitBody).
      * by apply (shape_in_flight (AwaitErrorBody status statusText)).
    + destruct ph; try discriminate. injection Hstep as <-. apply shape_idle.
    + destruct ph; try discriminate. injection Hstep as <-. apply shape_idle.
    + destruct ph; try discriminate.
      destruct (response_invalid data) as [[|]|err] eqn:Hinv; injection Hstep as <-.
      * apply shape_idle.
      * apply (shape_in_flight (AwaitDelay data)). by apply response_invalid_false.
      * apply shape_idle.
    + destruct ph; try discriminate. injection Hstep as <-. apply shape_idle.
    + destruct ph; try discriminate. injection Hstep as <-. by apply shape_closing.
  - destruct ev as [url|[|call] ok status statusText|[|call] message
                    |[|call] errorData|[|call] data'|[|call] message|[|call]| |];
      unfold app_step, shows_input, shows_error in Hstep; simpl in Hstep;
      try discriminate.
    + unfold shows_input in Hstep. simpl in Hstep.
      rewrite andb_false_r in Hstep. discriminate.
    + injection Hstep as <-. by apply shape_showing.
  - destruct ev as [url|[|call] ok status statusText|[|call] message
                    |[|call] errorData|[|call] data'|[|call] message|[|call]| |];
      unfold app_step, shows_input, shows_error in Hstep; simpl in Hstep;
      try discriminate.
    unfold shows_input in Hstep. simpl in Hstep.
    rewrite (accepted_truthy _ Hdata) in Hstep. discriminate.
Qed.

Lemma app_run_shape evs a a' : AppShape a → app_run evs a = Some a' → AppShape a'.
Proof.
  revert a. induction evs as [|ev evs IH]; intros a Hshape; simpl.
  - by intros [= <-].
  - destruct (app_step a ev) as [a1|] eqn:Hstep; [|discriminate].
    apply IH. by eapply app_step_shape.
Qed.

Lemma app_reachable_shape evs a : app_run evs app_initial = Some a → AppShape a.
Proof. apply app_run_shape, shape_idle. Qed.

(** X15. Whatever the history of submissions, responses, timeouts and
    retries, [App] renders exactly one of its four sections (input,
    spinner, error, graph): the spinner and the error are never shown
    together.  The spinner is shown exactly while a call of
    [handleURLSubmit] is suspended or the closing timeout is pending. *)
Theorem app_renders_exactly_one_section evs a :
  app_run evs app_initial = Some a →
  sections_shown (app_state a) = 1%nat ∧
  shows_loading (app_state a) && shows_error (app_state a) = false ∧
  (shows_loading (app_state a) = true ↔ app_calls a ≠ [] ∨ app_closing a ≠ 0%nat).
Proof.
  intros Hrun.
  pose proof (app_reachable_shape _ _ Hrun) as Hshape.
  unfold sections_shown, shows_input, shows_loading, shows_error, shows_graph.
  destruct Hshape as [e|ph Hph|data Hdata|data Hdata];
    cbn [app_state app_calls app_closing app_graphData app_loading app_error].
  - destruct (error_truthy e); simpl; (split_and!; [done..|]); (split; [done|]);
      by intros [?|?].
  - simpl. split_and!; try done. split; [|done]. intros _. by left.
  - rewrite (accepted_truthy _ Hdata). simpl. split_and!; try done.
    split; [|done]. intros _. by right.
  - rewrite (accepted_truthy _ Hdata). simpl. split_and!; try done.
    split; [done|]. by intros [?|?].
Qed.

Lemma app_renders_exactly_one_section_witness :
  app_run success_history app_initial = Some app_showing_sample ∧
  sections_shown (app_state app_showing_sample) = 1%nat.
Proof.
  split; [reflexivity|].
  exact (proj1 (app_renders_exactly_one_section success_history app_showing_sample
                  eq_refl)).
Defined.

(** X16. At most one call of [handleURLSubmit] is ever in progress, and it
    never overlaps the closing timeout.  While a call is suspended nothing
    is displayed but the spinner: there is no graph data and no error, and
    the progress is 10 while the request is pending, 30 while the body of a
    failed response is read, 70 while the body is read, 90 during the
    pause; the data a call holds during the pause has passed the check.
    With nothing pending the progress is 0 or 100. *)
Theorem app_has_at_most_one_call_in_flight evs a :
  app_run evs app_initial = Some a →
  (length (app_calls a) + app_closing a ≤ 1)%nat ∧
  (∀ call ph, app_calls a !! call = Some ph →
     call = 0%nat ∧
     app_state a = {| app_graphData := JNull; app_loading := true; app_error := None;
                      app_progress := progress_at ph;
                      app_currentStep := step_at ph |} ∧
     payload_of_call ph) ∧
  (app_calls a = [] →
   app_progress (app_state a) = 0 ∧ app_graphData (app_state a) = JNull
   ∨ app_progress (app_state a) = 100 ∧ accepted (app_graphData (app_state a))
     ∧ app_error (app_state a) = None).
Proof.
  intros Hrun.
  destruct (app_reachable_shape _ _ Hrun) as [e|ph Hph|data Hdata|data Hdata];
    cbn [app_state app_calls app_closing app_graphData app_loading app_error
         app_progress length]; split_and!; try done; try lia.
  - by left.
  - intros [|call] ph'; simpl; [|done]. intros [= <-]. done.
  - by right.
  - by right.
Qed.

Lemma app_has_at_most_one_call_in_flight_witness :
  app_run success_history app_initial = Some app_showing_sample ∧
  (length (app_calls app_showing_sample) + app_closing app_showing_sample ≤ 1)%nat.
Proof.
  split; [reflexivity|].
  exact (proj1 (app_has_at_most_one_call_in_flight success_history app_showing_sample
                  eq_refl)).
Defined.

Lemma shows_graph_shape a :
  AppShape a → shows_graph (app_state a) = true →
  ∃ data, accepted data ∧
          a = {| app_state := {| app_graphData := data; app_loading := false;
                                 app_error := None; app_progress := 100;
                                 app_currentStep := "Complete!" |};
                 app_calls := []; app_closing := 0 |}.
Proof.
  intros [e|ph Hph|data Hdata|data Hdata]; unfold shows_graph; simpl;
    try discriminate.
  - by rewrite andb_false_r.
  - by exists data.
Qed.

(** X17. The graph view is final.  Once the graph section is rendered, no
    event of the application can happen any more: the form and the Retry
    button are not rendered, nothing is pending, and [App] passes no
    callback to the graph component; so the data shown is never replaced or
    cleared.  The data shown has truthy [entities] and [relationships]. *)
Theorem app_graph_view_is_final evs a :
  app_run evs app_initial = Some a →
  shows_graph (app_state a) = true →
  accepted (app_graphData (app_state a)) ∧
  app_state a = {| app_graphData := app_graphData (app_state a); app_loading := false;
                   app_error := None; app_progress := 100;
                   app_currentStep := "Complete!" |} ∧
  (∀ ev, app_step a ev = None) ∧
  (∀ later a', app_run later a = Some a' → a' = a).
Proof.
  intros Hrun Hshow.
  destruct (shows_graph_shape a (app_reachable_shape _ _ Hrun) Hshow)
    as (data & Hdata & ->).
  assert (∀ ev, app_step {| app_state := {| app_graphData := data; app_loading := false;
                                 app_error := None; app_progress := 100;
                                 app_currentStep := "Complete!" |};
                 app_calls := []; app_closing := 0 |} ev = None) as Hfinal.
  { intros ev.
    destruct ev as [url|[|call] ok status statusText|[|call] message
                    |[|call] errorData|[|call] data'|[|call] message|[|call]| |];
      unfold app_step, shows_input, shows_error; simpl; try done.
    by rewrite (accepted_truthy _ Hdata). }
  split_and!; [done..|].
  intros [|ev later] a'; simpl; [by intros [= <-]|]. by rewrite Hfinal.
Qed.

Lemma app_graph_view_is_final_witness :
  app_run success_history app_initial = Some app_showing_sample ∧
  shows_graph (app_state app_showing_sample) = true ∧
  app_step app_showing_sample (Submit "https://example.org/b") = None.
Proof.
  split_and!; [reflexivity..|].
  exact (proj1 (proj2 (proj2
    (app_graph_view_is_final success_history app_showing_sample eq_refl eq_refl)))
    (Submit "https://example.org/b")).
Defined.

(** X18. A failure followed by Retry is a round trip.  While the error
    section is rendered, the only event that can happen is the click on
    Retry, and it puts the application back in its initial state exactly:
    no data, no error, progress 0, empty step text, nothing pending. *)
Theorem retry_after_failure_restores_the_initial_state evs a :
  app_run evs app_initial = Some a →
  shows_error (app_state a) = true →
  app_step a RetryClicked = Some app_initial ∧
  (∀ ev a', app_step a ev = Some a' → ev = RetryClicked) ∧
  app_graphData (app_state a) = JNull ∧ app_progress (app_state a) = 0.
Proof.
  intros Hrun Hshow.
  destruct (app_reachable_shape _ _ Hrun) as [e|ph Hph|data Hdata|data Hdata];
    try discriminate.
  unfold shows_error in Hshow. simpl in Hshow. split_and!; [| |done..].
  - unfold app_step, shows_error. simpl. by rewrite Hshow.
  - intros ev a' Hstep.
    destruct ev as [url|[|call] ok status statusText|[|call] message
                    |[|call] errorData|[|call] data'|[|call] message|[|call]| |];
      unfold app_step, shows_input, shows_error in Hstep; simpl in Hstep;
      try discriminate; [|done].
    unfold shows_input in Hstep. simpl in Hstep. rewrite Hshow in Hstep. discriminate.
Qed.

Lemma retry_after_failure_restores_the_initial_state_witness :
  app_run not_found_history app_initial = Some app_not_found ∧
  shows_error (app_state app_not_found) = true ∧
  app_step app_not_found RetryClicked = Some app_initial.
Proof.
  split_and!; [reflexivity..|].
  exact (proj1
    (retry_after_failure_restores_the_initial_state not_found_history app_not_found
       eq_refl eq_refl)).
Defined.

(** * The error view *)

Lemma includes_cons a s sub :
  includes (String a s) sub = String.prefix sub (String a s) || includes s sub.
Proof. done. Qed.

Lemma includes_skip p s c sub :
  occurs c p = false →
  includes (p +:+ s) (String c sub) = includes s (String c sub).
Proof.
  induction p as [|a p IH]; [done|].
  change (String a p +:+ s) with (String a (p +:+ s)).
  rewrite includes_cons. cbn [occurs String.prefix].
  destruct (ascii_dec c a) as [|Hne]; [done|]. intros Hp. by rewrite IH.
Qed.

Lemma digits_no_letter c s :
  digits_only s = true →
  ((48 <=? nat_of_ascii c)%nat && (nat_of_ascii c <=? 57)%nat) = false →
  occurs c s = false.
Proof.
  intros Hs Hc. induction s as [|a s IH]; [done|]. cbn [occurs digits_only] in *.
  apply andb_true_iff in Hs as [Ha Hs].
  destruct (ascii_dec c a) as [->|_]; [congruence|]. by apply IH.
Qed.

Lemma pretty_N_go_decimal x s : decimal s → decimal (pretty_N_go x s).
Proof.
  revert s. induction (N.lt_wf_0 x) as [x _ IH]; intros s Hs.
  assert (x = 0 ∨ 0 < x)%N as [->|Hx] by lia; [by rewrite pretty_N_go_0|].
  rewrite pretty_N_go_step by done. apply IH; [by apply N.div_lt|].
  destruct Hs as [_ Hs]. split; [done|]. cbn [digits_only]. rewrite Hs.
  unfold pretty_N_char. by repeat case_match.
Qed.

Lemma pretty_Z_decimal z : 0 ≤ z → decimal (pretty z).
Proof.
  intros Hz. destruct z as [|p|p]; [done| |lia].
  unfold pretty, pretty_Z, pretty, pretty_positive, pretty, pretty_N.
  rewrite decide_False by done.
  assert (0 < N.pos p)%N as Hp by lia.
  rewrite pretty_N_go_step by done. apply pretty_N_go_decimal.
  split; [done|]. cbn [digits_only]. unfold pretty_N_char. by repeat case_match.
Qed.

(** In [`HTTP ${status}: ${statusText}`] a key of [errorMap] can only
    occur inside the status text. *)
Lemma http_error_text_includes status statusText key :
  0 ≤ status → key ∈ errorMap.*1 →
  includes (http_error_text status statusText) key = includes statusText key.
Proof.
  intros Hs Hkey. unfold http_error_text.
  destruct (pretty_Z_decimal status Hs) as [Hne Hd].
  destruct (pretty status) as [|d ds] eqn:Hp; [done|].
  assert (∀ c sub,
            occurs c "TTP : " = false →
            ((48 <=? nat_of_ascii c)%nat && (nat_of_ascii c <=? 57)%nat) = false →
            includes ("TTP " +:+ String d ds +:+ ": " +:+ statusText) (String c sub)
            = includes statusText (String c sub)) as Hskip.
  { intros c sub Hc Hnd.
    rewrite (includes_skip "TTP " _ c sub)
      by (revert Hc; cbn [occurs]; by repeat destruct (ascii_dec _ _)).
    rewrite (includes_skip (String d ds) _ c sub)
      by (by apply digits_no_letter).
    rewrite (includes_skip ": " _ c sub)
      by (revert Hc; cbn [occurs]; by repeat destruct (ascii_dec _ _)).
    done. }
  cbn [digits_only] in Hd. apply andb_true_iff in Hd as [Hd Hds].
  change ("HTTP " +:+ String d ds +:+ ": " +:+ statusText)
    with (String "H" (String "T" (String "T" (String "P" (String " "
            (String d (ds +:+ ": " +:+ statusText))))))).
  rewrite includes_cons.
  change (String "T" (String "T" (String "P" (String " "
            (String d (ds +:+ ": " +:+ statusText))))))
    with ("TTP " +:+ String d ds +:+ ": " +:+ statusText) at 2.
  unfold errorMap in Hkey. cbn [fmap list_fmap fst] in Hkey.
  rewrite !elem_of_cons, elem_of_nil in Hkey.
  destruct Hkey as [->|[->|[->|[->|[->|[]]]]]]; rewrite Hskip by done;
    cbn [String.prefix];
    repeat (destruct (ascii_dec _ _) as [?|?]; [try discriminate|done]);
    subst d; vm_compute in Hd; discriminate.
Qed.

Lemma prefix_app_includes p q s :
  String.prefix (p +:+ q) s = true → includes s q = true.
Proof.
  revert s. induction p as [|a p IH]; intros s.
  - change ("" +:+ q) with q. intros Hq.
    destruct s; [cbn [includes]|rewrite includes_cons]; by rewrite Hq.
  - change (String a p +:+ q) with (String a (p +:+ q)).
    destruct s as [|b s]; cbn [String.prefix]; [done|].
    destruct (ascii_dec a b); [|done]. intros Hp%IH.
    rewrite includes_cons, Hp. apply orb_true_r.
Qed.

Lemma includes_weaken s p q : includes s (p +:+ q) = true → includes s q = true.
Proof.
  induction s as [|a s IH].
  - cbn [includes]. rewrite !orb_false_r. intros Hp. 
    pose proof (prefix_app_includes _ _ _ Hp) as Hq. cbn [includes] in Hq.
    by rewrite orb_false_r in Hq.
  - rewrite !includes_cons. intros [Hp|Hs]%orb_true_iff.
    + rewrite <- includes_cons. by eapply prefix_app_includes.
    + rewrite (IH Hs). apply orb_true_r.
Qed.

Lemma formatError_verbatim errorMessage :
  (∀ key, key ∈ errorMap.*1 → includes errorMessage key = false) →
  formatError errorMessage = errorMessage.
Proof.
  intros Hnone. unfold formatError, errorMap. cbn [List.find fst snd].
  rewrite !Hnone; [done|unfold errorMap; cbn [fmap list_fmap fst]..];
    rewrite !elem_of_cons; tauto.
Qed.

(** X19. [formatError] is idempotent: formatting a formatted message
    changes nothing, because none of the five friendly texts contains a
    key of the map.  Its result is the message itself or one of the five
    texts, and it is one of the texts exactly when the message contains a
    key. *)
Theorem formatError_is_idempotent errorMessage :
  formatError (formatError errorMessage) = formatError errorMessage ∧
  (formatError errorMessage = errorMessage ∨ formatError errorMessage ∈ errorMap.*2) ∧
  ((∀ key, key ∈ errorMap.*1 → includes errorMessage key = false) →
   formatError errorMessage = errorMessage) ∧
  ((∃ key, key ∈ errorMap.*1 ∧ includes errorMessage key = true) →
   formatError errorMessage ∈ errorMap.*2).
Proof.
  unfold formatError, errorMap. cbn [List.find fst snd fmap list_fmap].
  destruct (includes errorMessage "Failed to fetch") eqn:H1;
    [split_and!;
     [ reflexivity
     | right; rewrite !elem_of_cons; tauto
     | intros Hnone; rewrite Hnone in H1 by (rewrite !elem_of_cons; tauto);
       discriminate
     | intros _; rewrite !elem_of_cons; tauto ]|].
  destruct (includes errorMessage "HTTP error! status: 404") eqn:H2;
    [split_and!;
     [ reflexivity
     | right; rewrite !elem_of_cons; tauto
     | intros Hnone; rewrite Hnone in H2 by (rewrite !elem_of_cons; tauto);
       discriminate
     | intros _; rewrite !elem_of_cons; tauto ]|].
  destruct (includes errorMessage "HTTP error! status: 500") eqn:H3;
    [split_and!;
     [ reflexivity
     | right; rewrite !elem_of_cons; tauto
     | intros Hnone; rewrite Hnone in H3 by (rewrite !elem_of_cons; tauto);
       discriminate
     | intros _; rewrite !elem_of_cons; tauto ]|].
  destruct (includes errorMessage "HTTP error! status: 403") eqn:H4;
    [split_and!;
     [ reflexivity
     | right; rewrite !elem_of_cons; tauto
     | intros Hnone; rewrite Hnone in H4 by (rewrite !elem_of_cons; tauto);
       discriminate
     | intros _; rewrite !elem_of_cons; tauto ]|].
  destruct (includes errorMessage "Invalid URL") eqn:H5;
    [split_and!;
     [ reflexivity
     | right; rewrite !elem_of_cons; tauto
     | intros Hnone; rewrite Hnone in H5 by (rewrite !elem_of_cons; tauto);
       discriminate
     | intros _; rewrite !elem_of_cons; tauto ]|].
  rewrite H1, H2, H3, H4, H5. split_and!; [done|by left|done|].
  intros (key & Hkey & Hinc). exfalso. revert Hkey Hinc.
  rewrite !elem_of_cons, elem_of_nil.
  intros [->|[->|[->|[->|[->|[]]]]]]; congruence.
Qed.

(** X20. A message that contains "Failed to fetch" is shown as the network
    text under the network icon, and the icon would be the same if it were
    computed from the text shown. *)
Theorem failed_fetch_gets_network_text_and_icon errorMessage :
  includes errorMessage "Failed to fetch" = true →
  formatError errorMessage = "Network error. Please check your connection." ∧
  getErrorIcon errorMessage = "Network Error" ∧
  getErrorIcon (formatError errorMessage) = "Network Error".
Proof.
  intros Hinc.
  assert (formatError errorMessage = "Network error. Please check your connection.")
    as Hfmt.
  { unfold formatError, errorMap. cbn [List.find fst snd]. by rewrite Hinc. }
  split_and!; [done| |by rewrite Hfmt].
  unfold getErrorIcon.
  rewrite (includes_weaken errorMessage "Failed to " "fetch" Hinc).
  by rewrite orb_true_r.
Qed.

Lemma failed_fetch_gets_network_text_and_icon_witness :
  includes "TypeError: Failed to fetch" "Failed to fetch" = true ∧
  getErrorIcon "TypeError: Failed to fetch" = "Network Error".
Proof.
  split; [reflexivity|].
  exact (proj1 (proj2
    (failed_fetch_gets_network_text_and_icon "TypeError: Failed to fetch" eq_refl))).
Defined.

(** X21. The messages [App] builds for a failed response never get a
    friendly text.  When the body of a response that is not [ok] has no
    truthy [detail] or [error], the error is
    [`HTTP ${status}: ${statusText}`]; a key of the error view's map can
    occur in it only inside the status text, so unless the status text
    itself contains a key, the view shows the message as it is: the texts
    for 404, 500 and 403 are keyed on "HTTP error! status: ...", which
    [App] never produces. *)
Theorem http_status_errors_are_shown_verbatim errorData status statusText :
  0 ≤ status →
  non_nullish errorData →
  truthy (prop_of errorData "detail") = false →
  truthy (prop_of errorData "error") = false →
  http_error errorData status statusText = Text (http_error_text status statusText) ∧
  error_truthy (Some (http_error errorData status statusText)) = true ∧
  (∀ key, key ∈ errorMap.*1 →
     includes (http_error_text status statusText) key = includes statusText key) ∧
  ((∀ key, key ∈ errorMap.*1 → includes statusText key = false) →
   formatError (http_error_text status statusText) = http_error_text status statusText).
Proof.
  intros Hs Hnn Hd He.
  assert (http_error errorData status statusText
          = Text (http_error_text status statusText)) as Herr.
  { unfold http_error, http_error_value. rewrite !getProp_non_nullish by done.
    simpl. unfold js_or. by rewrite Hd, He. }
  split_and!.
  - done.
  - rewrite Herr. unfold http_error_text. simpl. done.
  - intros key Hkey. by apply http_error_text_includes.
  - intros Hnone.
    apply formatError_verbatim.
    intros key Hkey. rewrite http_error_text_includes by done. by apply Hnone.
Qed.

Lemma http_status_errors_are_shown_verbatim_witness :
  0 ≤ 404 ∧ non_nullish (JObj []) ∧
  http_error (JObj []) 404 "Not Found" = Text "HTTP 404: Not Found".
Proof.
  assert (0 ≤ 404) as Hs by discriminate.
  split; [exact Hs|]. split; [exact I|].
  exact (proj1 (http_status_errors_are_shown_verbatim (JObj []) 404 "Not Found"
                  Hs I eq_refl eq_refl)).
Defined.

(** * The graph component inside the application *)

(** X22. Inside [App] the graph component never renders its "Loading
    graph..." or "Error loading graph" view: whenever the graph section is
    rendered, the component shows the canvas or the "No graph data
    available" notice, the notice exactly when [entities] has length zero.
    The check in [App] only asks for truthy [entities] and
    [relationships]: a payload in which one of them is not an array is
    displayed, and the effect then refuses it, creating no instance and
    leaving [cyRef] as it was. *)
Theorem graph_section_shows_canvas_or_empty_notice evs a :
  app_run evs app_initial = Some a →
  shows_graph (app_state a) = true →
  (app_view (app_state a) = EmptyView ∨ app_view (app_state a) = CanvasView) ∧
  (app_view (app_state a) = EmptyView ↔
   length_is_zero (prop_of (app_graphData (app_state a)) "entities") = true) ∧
  (∀ env s,
     graphData env = app_graphData (app_state a) →
     Array_isArray (prop_of (graphData env) "entities") = false
     ∨ Array_isArray (prop_of (graphData env) "relationships") = false →
     (useEffect_body env s).1 = Normal NoCleanup ∧ created env s = [] ∧
     cyRef (useEffect_body env s).2 = cyRef s).
Proof.
  intros Hrun Hshow.
  destruct (shows_graph_shape a (app_reachable_shape _ _ Hrun) Hshow)
    as (data & [Hents Hrels] & ->).
  unfold app_view, view.
  cbn [app_state app_graphData app_loading app_error error_prop truthy].
  rewrite (accepted_truthy data) by done. rewrite Hents. cbn [negb orb].
  split_and!.
  - destruct (length_is_zero _); auto.
  - destruct (length_is_zero _); split; done.
  - intros env s Hdata Harr.
    destruct (useEffect_body_rejected env s) as (Hret & Href & Hinst & _).
    { right; right. destruct Harr; [by left|by right]. }
    split_and!; [done| |done]. unfold created. rewrite Hinst. apply drop_all.
Qed.

Lemma graph_section_shows_canvas_or_empty_notice_witness :
  app_run text_history app_initial = Some app_showing_text ∧
  shows_graph (app_state app_showing_text) = true ∧
  app_view (app_state app_showing_text) = CanvasView ∧
  created (env_of text_payload sample_rect) mounted_state = [].
Proof.
  split_and!; [reflexivity..|].
  exact (proj1 (proj2 (proj2 (proj2
    (graph_section_shows_canvas_or_empty_notice text_history app_showing_text
       eq_refl eq_refl)) (env_of text_payload sample_rect) mounted_state eq_refl
    (or_introl eq_refl)))).
Defined.

(** * The earlier copy of the component *)

(** X23. The earlier copy of the effect draws every relationship.  Over
    relationships that are not [null] its edge list has one edge per
    relationship, the k-th with id [edge-k] and with [rel.source],
    [rel.target] and [rel.type] as they are: no fallback to [from], [to] or
    [relationship], no conversion to a string, no default type, and no
    look at the nodes.  The edges of the validating component are, by
    their ids, a selection of these. *)
Theorem legacy_copy_draws_every_relationship relationships :
  Forall non_nullish relationships →
  ∃ es, legacy_edges relationships = Normal es ∧
        length es = length relationships ∧
        (∀ k rel, relationships !! k = Some rel →
           es !! k = Some {| legacy_edge_id := "edge-" +:+ pretty k;
                             legacy_edge_source := prop_of rel "source";
                             legacy_edge_target := prop_of rel "target";
                             legacy_edge_label := prop_of rel "type";
                             legacy_edge_type := prop_of rel "type" |}) ∧
        (∀ entities m, build entities relationships = Normal m →
           (length (edges m) ≤ length es)%nat ∧
           ∀ e, e ∈ edges m →
                ∃ k le, es !! k = Some le ∧ legacy_edge_id le = edge_id e).
Proof.
  intros Hnn.
  assert (∀ k rel, relationships !! k = Some rel →
            legacy_edge_of_rel rel k
            = Normal {| legacy_edge_id := "edge-" +:+ pretty k;
                        legacy_edge_source := prop_of rel "source";
                        legacy_edge_target := prop_of rel "target";
                        legacy_edge_label := prop_of rel "type";
                        legacy_edge_type := prop_of rel "type" |}) as Hone.
  { intros k rel Hk. unfold legacy_edge_of_rel.
    rewrite !getProp_non_nullish by (by eapply Forall_lookup_1). done. }
  destruct (sequenceC_total (imap (λ idx x, legacy_edge_of_rel x idx) relationships))
    as [es Hes].
  { apply Forall_lookup. intros k c Hk. rewrite list_lookup_imap in Hk.
    destruct (relationships !! k) as [rel|] eqn:Hrel; simpl in Hk; [|discriminate].
    injection Hk as <-. rewrite (Hone _ _ Hrel). eauto. }
  exists es. unfold legacy_edges, Array_mapi.
  assert (Array_mapi legacy_edge_of_rel relationships = Normal es) as Hmap by done.
  destruct (Array_mapi_lookup _ _ _ Hmap) as [Hlen Hlook].
  split_and!; [done..| |].
  - intros k rel Hk. destruct (Hlook k rel Hk) as (y & Hy & ->).
    rewrite (Hone _ _ Hk) in Hy. by injection Hy as <-.
  - intros entities m Hb.
    destruct (build_Normal _ _ _ Hb) as (flagged & _ & Hflag & Hedges & _).
    destruct (Array_mapi_lookup _ _ _ Hflag) as [Hflen _].
    split.
    + rewrite Hedges, length_fmap, Hlen, <- Hflen. apply length_filter.
    + intros e He. destruct (edges_origin _ _ _ _ Hb He) as (k & rel & Hk & Hedge).
      destruct (Hlook k rel Hk) as (le & Hle & Hlk).
      exists k, le. split; [done|].
      rewrite (Hone _ _ Hk) in Hle. injection Hle as <-.
      by destruct (edge_of_rel_Normal _ _ _ _ _ Hedge) as (_ & _ & _ & _ & -> & _).
Qed.

Lemma legacy_copy_draws_every_relationship_witness :
  Forall non_nullish sample_relationships ∧
  ∃ es, legacy_edges sample_relationships = Normal es ∧
        length es = length sample_relationships.
Proof.
  assert (Forall non_nullish sample_relationships) as Hnn by (repeat constructor).
  split; [exact Hnn|].
  destruct (legacy_copy_draws_every_relationship sample_relationships Hnn)
    as (es & Hes & Hlen & _).
  exists es. split; [exact Hes|exact Hlen].
Defined.

Lemma Array_reduce_ext {A B} (f g : B → A → Completion B) (l : list A) acc :
  Forall (λ x, ∀ b, f b x = g b x) l → Array_reduce f l acc = Array_reduce g l acc.
Proof.
  intros H. revert acc. induction H as [|x l Hx _ IH]; intros acc; [done|].
  simpl. rewrite Hx. destruct (g acc x); simpl; [apply IH|done].
Qed.

Lemma typed_non_nullish v : typed v → non_nullish v.
Proof. unfold typed. by destruct v. Qed.

(** X24. The legend counters of the two copies agree on typed input: when
    every entity and every relationship has a truthy [type], the earlier
    counters, which use the type as it is, return what the validating
    ones return (which first fall back to "Unknown", and to
    [rel.relationship] and "related"). *)
Theorem legacy_legend_agrees_on_typed_input entities relationships :
  Forall typed entities → Forall typed relationships →
  legacy_getEntityTypeCounts entities = getEntityTypeCounts entities ∧
  legacy_getRelationshipTypeCounts relationships
  = getRelationshipTypeCounts relationships.
Proof.
  intros He Hr. split.
  - apply Array_reduce_ext. eapply Forall_impl; [exact He|].
    intros entity Ht acc. cbv beta.
    rewrite getProp_non_nullish by (by apply typed_non_nullish).
    simpl. unfold js_or. by rewrite Ht.
  - apply Array_reduce_ext. eapply Forall_impl; [exact Hr|].
    intros rel Ht acc. cbv beta. unfold rel_type.
    rewrite !getProp_non_nullish by (by apply typed_non_nullish).
    simpl. unfold js_or. by rewrite Ht, Ht.
Qed.

Lemma legacy_legend_agrees_on_typed_input_witness :
  Forall typed sample_entities ∧ Forall typed sample_relationships ∧
  legacy_getEntityTypeCounts sample_entities = getEntityTypeCounts sample_entities.
Proof.
  assert (Forall typed sample_entities) as He by (repeat constructor).
  assert (Forall typed sample_relationships) as Hr by (repeat constructor).
  split; [exact He|]. split; [exact Hr|].
  exact (proj1 (legacy_legend_agrees_on_typed_input sample_entities
                  sample_relationships He Hr)).
Defined.

(** X25. The cleanup of the earlier copy leaves a dangling reference: it
    destroys the instance [cyRef] refers to but does not clear [cyRef], so
    afterwards [cyRef] refers to a destroyed instance, "Fit to View" calls
    [fit] on that destroyed instance and "Export PNG" still takes its
    picture from it.  After the cleanup of the validating copy [cyRef] is
    empty and both do nothing. *)
Theorem legacy_cleanup_leaves_a_dangling_reference s c i format gd :
  cyRef s = Some c → instances s !! c = Some i →
  cyRef (legacy_cleanup s).2 = Some c ∧
  instances (legacy_cleanup s).2 !! c = Some (mark_destroyed i) ∧
  ¬ ref_is_live (legacy_cleanup s).2 ∧
  instances (fitGraph (legacy_cleanup s).2).2 !! c
    = Some (add_fit 50 (mark_destroyed i)) ∧
  exportGraph "png" gd (legacy_cleanup s).2
    = Some {| download_name := "knowledge-graph.png";
              download_content := PngImage c 2 |} ∧
  cyRef (cleanup s).2 = None ∧
  instances (cleanup s).2 !! c = Some (mark_destroyed i) ∧
  fitGraph (cleanup s).2 = (Normal (), (cleanup s).2) ∧
  exportGraph format gd (cleanup s).2 = None.
Proof.
  intros Hc Hi. rewrite cleanup_spec.
  unfold legacy_cleanup, fitGraph, exportGraph, bind, get_cyRef, cy_destroy, cy_fit,
    update_instance, ret.
  cbn [fst snd cyRef instances]. rewrite Hc. cbn [fst snd cyRef instances].
  rewrite !list_lookup_alter_eq, Hi. cbn [fmap option_fmap option_map].
  split_and!; try done.
  - intros Hlive. destruct (Hlive c) as (j & Hj & Hd); [done|].
    cbn [instances] in Hj. rewrite list_lookup_alter_eq, Hi in Hj.
    injection Hj as <-. discriminate.
  - rewrite Hc. cbn [fst snd instances].
    by rewrite !list_lookup_alter_eq, Hi.
  - by rewrite Hc.
Qed.

Lemma legacy_cleanup_leaves_a_dangling_reference_witness :
  cyRef mounted_state = Some 0%nat ∧
  instances mounted_state !! 0%nat = Some (new_instance sample_env sample_model) ∧
  cyRef (legacy_cleanup mounted_state).2 = Some 0%nat.
Proof.
  split_and!; [reflexivity..|].
  exact (proj1 (legacy_cleanup_leaves_a_dangling_reference mounted_state 0%nat
                  (new_instance sample_env sample_model) "png" JNull eq_refl eq_refl)).
Defined.
